(** * Cellular connection monitor: the monitoring loop and its accounting

    A shallow embedding of [src/monitor-cellular.py] (class
    [CellularMonitor]) and the properties its specification states about
    the probe counters, the downtime accounting, the two rolling buffers,
    the rates and the failure breakdown of the reports, the latency
    fallback of [ping_host] and the end of the run.

    Conventions of the embedding.
    - A [datetime] is the integer number of microseconds it denotes (its
      resolution), so a [timedelta] is an exact integer of microseconds;
      [total_seconds()] only changes the unit.  The clock is the wall
      clock: nothing makes two readings ordered.  The range of [datetime]
      and [timedelta] is not modelled: durations are taken within it.
    - Python floats that are measured or computed as ratios (round-trip
      times, rates, [time.time()]) are rationals; rounding is not modelled.
    - Python integers are [Z].
    - Everything the program asks of its environment (the clock, the probe,
      the signal query, the interrupt) is an input of the model.
    - A [KeyboardInterrupt] reaches the loop where the process waits: in
      the subprocess of [ping_host], in the subprocess of
      [get_signal_strength], or in [time.sleep]. *)

From Stdlib Require Import String Ascii ZArith QArith Qminmax Bool Lia.
From Stdlib Require Import List Sorted Permutation.
From Stdlib Require Import DecimalString.
Import ListNotations.

Local Open Scope string_scope.
Local Open Scope list_scope.
Local Open Scope Z_scope.

(** ** [collections.deque(maxlen=...)] *)

Module Deque.

(** [deque.append] with a [maxlen]: the item is added on the right and,
    when the length now exceeds [maxlen], one item is dropped on the
    left. *)
Definition append {A : Type} (maxlen : nat) (x : A) (d : list A) : list A :=
  let d' := d ++ [x] in
  if Nat.ltb maxlen (length d') then tl d' else d'.

(** The last [n] items of a list. *)
Definition lastn {A : Type} (n : nat) (l : list A) : list A :=
  skipn (length l - n) l.

End Deque.

(** ** Data *)

(** What [ping_host] returns: [(True, rtt, None)] or [(False, None, error)]. *)
Inductive ProbeResult : Type :=
| Success (rtt : Q)
| Failure (error : string).

(** The payload of one [self.log(level, message)] call; numbers are kept
    as numbers, the [f"..."] formatting is not modelled. *)
Inductive message : Type :=
| MStarting
| MHost (host : string)
| MInterface (iface : string)
| MInterval (seconds : Z)
| MTimeout (seconds : Z)
| MDuration (minutes : Z)
| MDurationInfinite
| MDiagnosticsStart
| MCheck (name text : string)
| MStartLoop
| MDurationExceeded
| MRecovered (downtime : Z)
| MPingOk (n : Z) (rtt : Q)
| MPingLoss (n : Z) (error signal : string)
| MStillDown (current : Z) (losses : Z) (signal error : string)
| MStats (ok total : Z) (rate : Q) (rtt : option (Q * Q * Q)) (downtime : option Z)
| MInterrupted
| MFinalHeader
| MTotalPings (n : Z)
| MSuccessful (n : Z)
| MFailed (n : Z)
| MSuccessRate (rate : Q)
| MLossRate (rate : Q)
| MTotalTime (elapsed : Z)
| MRtt (avg lo hi : Q)
| MTotalDowntime (d : Z)
| MMaxDowntime (d : Z)
| MCumulativeLosses (n : Z)
| MBreakdownHeader
| MBreakdownItem (failure_type : string) (count : Z).

(** One line of standard output: a [self.log] record or a bare [print]. *)
Inductive output : Type :=
| Log (level : string) (msg : message)
| Print (text : string).

(** The attributes of [CellularMonitor] set from the command line. *)
Record Config : Type := {
  host : string;
  interval : Z;
  timeout : Z;
  interface : string;
  duration : Z
}.

(** The attributes of [CellularMonitor] that [monitor] mutates. *)
Record CellularMonitor : Type := {
  start_time : option Z;
  end_time : option Z;
  ping_count : Z;
  success_count : Z;
  failure_count : Z;
  downtime_start : option Z;
  downtime_duration : Z;
  max_downtime : Z;
  current_downtime : Z;
  recent_pings : list Q;
  recent_failures : list string
}.

(** [__init__] *)
Definition init : CellularMonitor := {|
  start_time := None;
  end_time := None;
  ping_count := 0;
  success_count := 0;
  failure_count := 0;
  downtime_start := None;
  downtime_duration := 0;
  max_downtime := 0;
  current_downtime := 0;
  recent_pings := [];
  recent_failures := []
|}.

Definition maxlen : nat := 100.

Definition set_start_time v s :=
  {| start_time := v; end_time := end_time s; ping_count := ping_count s;
     success_count := success_count s; failure_count := failure_count s;
     downtime_start := downtime_start s;
     downtime_duration := downtime_duration s; max_downtime := max_downtime s;
     current_downtime := current_downtime s;
     recent_pings := recent_pings s; recent_failures := recent_failures s |}.

Definition set_end_time v s :=
  {| start_time := start_time s; end_time := v; ping_count := ping_count s;
     success_count := success_count s; failure_count := failure_count s;
     downtime_start := downtime_start s;
     downtime_duration := downtime_duration s; max_downtime := max_downtime s;
     current_downtime := current_downtime s;
     recent_pings := recent_pings s; recent_failures := recent_failures s |}.

Definition set_ping_count v s :=
  {| start_time := start_time s; end_time := end_time s; ping_count := v;
     success_count := success_count s; failure_count := failure_count s;
     downtime_start := downtime_start s;
     downtime_duration := downtime_duration s; max_downtime := max_downtime s;
     current_downtime := current_downtime s;
     recent_pings := recent_pings s; recent_failures := recent_failures s |}.

Definition set_success_count v s :=
  {| start_time := start_time s; end_time := end_time s;
     ping_count := ping_count s;
     success_count := v; failure_count := failure_count s;
     downtime_start := downtime_start s;
     downtime_duration := downtime_duration s; max_downtime := max_downtime s;
     current_downtime := current_downtime s;
     recent_pings := recent_pings s; recent_failures := recent_failures s |}.

Definition set_failure_count v s :=
  {| start_time := start_time s; end_time := end_time s;
     ping_count := ping_count s;
     success_count := success_count s; failure_count := v;
     downtime_start := downtime_start s;
     downtime_duration := downtime_duration s; max_downtime := max_downtime s;
     current_downtime := current_downtime s;
     recent_pings := recent_pings s; recent_failures := recent_failures s |}.

Definition set_downtime_start v s :=
  {| start_time := start_time s; end_time := end_time s;
     ping_count := ping_count s;
     success_count := success_count s; failure_count := failure_count s;
     downtime_start := v;
     downtime_duration := downtime_duration s; max_downtime := max_downtime s;
     current_downtime := current_downtime s;
     recent_pings := recent_pings s; recent_failures := recent_failures s |}.

Definition set_downtime_duration v s :=
  {| start_time := start_time s; end_time := end_time s;
     ping_count := ping_count s;
     success_count := success_count s; failure_count := failure_count s;
     downtime_start := downtime_start s;
     downtime_duration := v; max_downtime := max_downtime s;
     current_downtime := current_downtime s;
     recent_pings := recent_pings s; recent_failures := recent_failures s |}.

Definition set_max_downtime v s :=
  {| start_time := start_time s; end_time := end_time s;
     ping_count := ping_count s;
     success_count := success_count s; failure_count := failure_count s;
     downtime_start := downtime_start s;
     downtime_duration := downtime_duration s; max_downtime := v;
     current_downtime := current_downtime s;
     recent_pings := recent_pings s; recent_failures := recent_failures s |}.

Definition set_current_downtime v s :=
  {| start_time := start_time s; end_time := end_time s;
     ping_count := ping_count s;
     success_count := success_count s; failure_count := failure_count s;
     downtime_start := downtime_start s;
     downtime_duration := downtime_duration s; max_downtime := max_downtime s;
     current_downtime := v;
     recent_pings := recent_pings s; recent_failures := recent_failures s |}.

Definition set_recent_pings v s :=
  {| start_time := start_time s; end_time := end_time s;
     ping_count := ping_count s;
     success_count := success_count s; failure_count := failure_count s;
     downtime_start := downtime_start s;
     downtime_duration := downtime_duration s; max_downtime := max_downtime s;
     current_downtime := current_downtime s;
     recent_pings := v; recent_failures := recent_failures s |}.

Definition set_recent_failures v s :=
  {| start_time := start_time s; end_time := end_time s;
     ping_count := ping_count s;
     success_count := success_count s; failure_count := failure_count s;
     downtime_start := downtime_start s;
     downtime_duration := downtime_duration s; max_downtime := max_downtime s;
     current_downtime := current_downtime s;
     recent_pings := recent_pings s; recent_failures := v |}.

(** ** The environment of one pass of the [while True] loop *)

(** What the environment answers during one pass of the loop:
    - [head_now]: [datetime.now()] of the duration check at the top (read
      only when an end time is set);
    - [result]: what [self.ping_host()] returns;
    - [body_now]: [datetime.now()] of the branch taken (the recovery time at
      line 288, the episode start at line 307, the elapsed time at line 310);
      a successful pass outside a downtime reads no clock;
    - [signal]: what [self.get_signal_strength()] returns (failed passes). *)
Record cycle_input : Type := {
  head_now : Z;
  result : ProbeResult;
  body_now : Z;
  signal : string
}.

(** Where, in the pass it cuts short, a [KeyboardInterrupt] is raised:
    inside [self.ping_host()] (line 280), or, the probe having failed with
    [error], inside [self.get_signal_strength()] (line 303); neither
    function catches it. *)
Inductive cut_point : Type :=
| InProbe
| InSignalQuery (error : string).

(** When the [KeyboardInterrupt] comes, the passes of the input once
    through: during the [time.sleep] that follows the last of them (on
    entering the loop when there is none), or inside one more pass, whose
    duration check reads [head_now]. *)
Inductive interrupt : Type :=
| InSleep
| InPass (head_now : Z) (point : cut_point).

(** Why the loop was left: the [break] of the duration check, a
    [KeyboardInterrupt], or the [ValueError] that [time.sleep] raises for a
    negative interval. *)
Inductive stop : Type :=
| DurationExceeded
| Interrupted
| SleepRaised.

(** ** Statistics *)

(** [sum(xs)]: from 0, left to right. *)
Definition sum_Q (xs : list Q) : Q := fold_left Qplus xs 0%Q.

(** [min(xs)] and [max(xs)] of a non-empty sequence. *)
Definition min_Q (x : Q) (xs : list Q) : Q := fold_left Qmin xs x.
Definition max_Q (x : Q) (xs : list Q) : Q := fold_left Qmax xs x.

(** The block under [if self.recent_pings:], shared by both reports:
    average, minimum and maximum of the rolling latencies.  The average is
    the exact mean; the float the source computes is that mean up to the
    rounding of the sum and of the division, so nothing is stated about its
    last digits or its order against the minimum and the maximum. *)
Definition rtt_summary (pings : list Q) : option (Q * Q * Q) :=
  match pings with
  | [] => None
  | x :: xs =>
      let avg_rtt := (sum_Q pings / inject_Z (Z.of_nat (length pings)))%Q in
      let min_rtt := min_Q x xs in
      let max_rtt := max_Q x xs in
      Some (avg_rtt, min_rtt, max_rtt)
  end.

(** [print_stats] *)
Definition print_stats (s : CellularMonitor) : list output :=
  let success_rate :=
    if 0 <? ping_count s
    then (inject_Z (success_count s) / inject_Z (ping_count s) * 100)%Q
    else 0%Q in
  let downtime :=
    match downtime_start s with
    | Some _ => Some (current_downtime s)
    | None => None
    end in
  [Log "STAT" (MStats (success_count s) (ping_count s) success_rate
                      (rtt_summary (recent_pings s)) downtime)].

(** ** One pass of the loop *)

(** The branch [if success:] (lines 283-297). *)
Definition on_success (rtt : Q) (now : Z) (s : CellularMonitor)
  : CellularMonitor * list output :=
  let s := set_success_count (success_count s + 1) s in
  let s := set_recent_pings (Deque.append maxlen rtt (recent_pings s)) s in
  let '(s, out) :=
    match downtime_start s with
    | Some t0 =>
        let downtime := now - t0 in
        let s := set_downtime_duration (downtime_duration s + downtime) s in
        let s := if max_downtime s <? downtime
                 then set_max_downtime downtime s else s in
        let s := set_downtime_start None s in
        let s := set_current_downtime 0 s in
        (s, [Log "INFO" (MRecovered downtime)])
    | None => (s, [])
    end in
  (s, out ++ [Log "OK  " (MPingOk (ping_count s) rtt)]).

(** The branch [else:] (lines 299-311). *)
Definition on_failure (error sig : string) (now : Z) (s : CellularMonitor)
  : CellularMonitor * list output :=
  let s := set_failure_count (failure_count s + 1) s in
  let s := set_recent_failures
             (Deque.append maxlen error (recent_failures s)) s in
  match downtime_start s with
  | None =>
      let s := set_downtime_start (Some now) s in
      (s, [Log "FAIL" (MPingLoss (failure_count s) error sig)])
  | Some t0 =>
      let s := set_current_downtime (now - t0) s in
      (s, [Log "FAIL"
             (MStillDown (current_downtime s) (failure_count s) sig error)])
  end.

(** Lines 279-315: the pass from [self.ping_count += 1] to the periodic
    statistics. *)
Definition cycle (ev : cycle_input) (s : CellularMonitor)
  : CellularMonitor * list output :=
  let s := set_ping_count (ping_count s + 1) s in
  let '(s, out) :=
    match result ev with
    | Success rtt => on_success rtt (body_now ev) s
    | Failure error => on_failure error (signal ev) (body_now ev) s
    end in
  if ping_count s mod 10 =? 0 then (s, out ++ print_stats s) else (s, out).

(** The duration check at the top of the loop:
    [self.end_time and datetime.now() >= self.end_time]. *)
Definition duration_exceeded (s : CellularMonitor) (now : Z) : bool :=
  match end_time s with
  | Some e => e <=? now
  | None => false
  end.

(** What a pass has done when the interrupt cuts it at [point]: line 279
    and, in the signal query, lines 299-300; it has printed nothing. *)
Definition begin_pass (point : cut_point) (s : CellularMonitor)
  : CellularMonitor :=
  let s := set_ping_count (ping_count s + 1) s in
  match point with
  | InProbe => s
  | InSignalQuery error =>
      let s := set_failure_count (failure_count s + 1) s in
      set_recent_failures (Deque.append maxlen error (recent_failures s)) s
  end.

(** The [while True] loop over the answers of the environment: the passes
    of [evs], each followed by [time.sleep(self.interval)], which raises
    when the interval is negative, then the interrupt [intr]. *)
Fixpoint loop (cfg : Config) (evs : list cycle_input) (intr : interrupt)
    (s : CellularMonitor) : CellularMonitor * list output * stop :=
  match evs with
  | [] =>
      match intr with
      | InSleep => (s, [], Interrupted)
      | InPass now point =>
          if duration_exceeded s now
          then (s, [Log "INFO" MDurationExceeded], DurationExceeded)
          else (begin_pass point s, [], Interrupted)
      end
  | ev :: rest =>
      if duration_exceeded s (head_now ev)
      then (s, [Log "INFO" MDurationExceeded], DurationExceeded)
      else
        let '(s1, out1) := cycle ev s in
        if interval cfg <? 0 then (s1, out1, SleepRaised)
        else
          let '(s2, out2, why) := loop cfg rest intr s1 in
          (s2, out1 ++ out2, why)
  end.

(** ** The final report *)

(** The dictionary [failure_types] as the list of its items in insertion
    order, which is the order Python iterates it in. *)
Module Dict.

Definition t : Type := list (string * Z).

(** [d.get(k, default)] *)
Fixpoint get (k : string) (default : Z) (d : t) : Z :=
  match d with
  | [] => default
  | (k', v) :: d' => if String.eqb k' k then v else get k default d'
  end.

(** [d[k] = v]: an existing key keeps its place, a new key goes last. *)
Fixpoint set (k : string) (v : Z) (d : t) : t :=
  match d with
  | [] => [(k, v)]
  | (k', v') :: d' =>
      if String.eqb k' k then (k', v) :: d' else (k', v') :: set k v d'
  end.

End Dict.

(** The loop [for failure in self.recent_failures: ...] from [acc]. *)
Definition count_failures (failures : list string) (acc : Dict.t) : Dict.t :=
  fold_left (fun d failure => Dict.set failure (Dict.get failure 0 d + 1) d)
            failures acc.

(** [sorted(items, key=lambda x: x[1], reverse=True)]: a stable sort, so
    any stable sort computes it; here by insertion from the right, an item
    going in front of the first one whose count is not larger. *)
Fixpoint insert_desc (x : string * Z) (l : list (string * Z))
  : list (string * Z) :=
  match l with
  | [] => [x]
  | y :: l' => if snd x <? snd y then y :: insert_desc x l' else x :: l
  end.

Definition sorted_by_count_desc (l : list (string * Z)) : list (string * Z) :=
  fold_right insert_desc [] l.

(** The items printed under "Failure breakdown:". *)
Definition failure_breakdown (failures : list string) : list (string * Z) :=
  sorted_by_count_desc (count_failures failures []).

Definition separator : string :=
  "======================================================================".

(** [print_final_stats]; [now] is its [datetime.now()]. *)
Definition print_final_stats (now : Z) (s : CellularMonitor) : list output :=
  let elapsed := now - match start_time s with Some t => t | None => 0 end in
  let success_rate :=
    if 0 <? ping_count s
    then (inject_Z (success_count s) / inject_Z (ping_count s) * 100)%Q
    else 0%Q in
  let loss_rate :=
    if 0 <? ping_count s
    then (inject_Z (failure_count s) / inject_Z (ping_count s) * 100)%Q
    else 0%Q in
  [ Print ""; Print separator; Log "INFO" MFinalHeader; Print separator;
    Log "INFO" (MTotalPings (ping_count s));
    Log "INFO" (MSuccessful (success_count s));
    Log "INFO" (MFailed (failure_count s));
    Log "INFO" (MSuccessRate success_rate);
    Log "INFO" (MLossRate loss_rate);
    Log "INFO" (MTotalTime elapsed) ]
  ++ match rtt_summary (recent_pings s) with
     | Some (avg_rtt, min_rtt, max_rtt) =>
         [Log "INFO" (MRtt avg_rtt min_rtt max_rtt)]
     | None => []
     end
  ++ (if 0 <? failure_count s
      then
        [ Log "WARN" (MTotalDowntime (downtime_duration s));
          Log "WARN" (MMaxDowntime (max_downtime s));
          Log "WARN" (MCumulativeLosses (failure_count s)) ]
        ++ match recent_failures s with
           | [] => []
           | _ :: _ =>
               Log "WARN" MBreakdownHeader
               :: map (fun item =>
                         Log "WARN" (MBreakdownItem (fst item) (snd item)))
                      (failure_breakdown (recent_failures s))
           end
      else [])
  ++ [Print separator].

(** ** [monitor] *)

(** Lines 253-255: the start time and, [if self.duration:], the end time
    [start_time + timedelta(minutes=self.duration)]. *)
Definition startup (cfg : Config) (start : Z) (s : CellularMonitor)
  : CellularMonitor :=
  let s := set_start_time (Some start) s in
  if duration cfg =? 0 then s
  else set_end_time (Some (start + duration cfg * 60000000)) s.

(** What the five checks of [run_diagnostics] return, each a pair
    [(success, message)]. *)
Record diagnostics_input : Type := {
  check_interface : bool * string;
  check_ip_config : bool * string;
  check_dns : bool * string;
  check_route : bool * string;
  check_modem_status : bool * string
}.

(** [run_diagnostics]: it only prints. *)
Definition run_diagnostics (d : diagnostics_input) : list output :=
  let checks :=
    [ ("Interface", check_interface d); ("IP Config", check_ip_config d);
      ("DNS", check_dns d); ("Routes", check_route d);
      ("Modem", check_modem_status d) ] in
  Log "INFO" MDiagnosticsStart
  :: map (fun '(name, (success, text)) =>
            Log (if success : bool then "OK  " else "FAIL") (MCheck name text))
         checks.

(** [monitor]: [start] is the [datetime.now()] of line 253, [diagnostics]
    what the checks of [run_diagnostics] answer, [evs] and [intr] the
    answers of the environment to the loop and [final_now] the clock read by
    the final report.  The [finally] clause runs the final report however
    the loop was left; after it the [ValueError] of [time.sleep], which no
    clause catches, leaves [monitor]. *)
Definition monitor (cfg : Config) (start : Z) (diagnostics : diagnostics_input)
    (evs : list cycle_input) (intr : interrupt) (final_now : Z)
    (s : CellularMonitor)
  : CellularMonitor * list output :=
  let s := startup cfg start s in
  let banner :=
    [ Log "INFO" MStarting; Log "INFO" (MHost (host cfg));
      Log "INFO" (MInterface (interface cfg));
      Log "INFO" (MInterval (interval cfg));
      Log "INFO" (MTimeout (timeout cfg));
      Log "INFO" (if duration cfg =? 0 then MDurationInfinite
                  else MDuration (duration cfg)) ]
    ++ run_diagnostics diagnostics ++ [Log "INFO" MStartLoop; Print ""] in
  let '(s, out, why) := loop cfg evs intr s in
  let out :=
    match why with
    | Interrupted => out ++ [Log "INFO" MInterrupted]
    | DurationExceeded | SleepRaised => out
    end in
  (s, banner ++ out ++ print_final_stats final_now s).

(** The passes of the loop that ran to their end: the inputs before the
    first one whose duration check stops the loop, and only the first of
    them when the interval is negative. *)
Fixpoint completed (cfg : Config) (evs : list cycle_input)
    (s : CellularMonitor) : list cycle_input :=
  match evs with
  | [] => []
  | ev :: rest =>
      if duration_exceeded s (head_now ev) then []
      else if interval cfg <? 0 then [ev]
      else ev :: completed cfg rest (fst (cycle ev s))
  end.

(** The point at which the interrupt cut one more pass, when the loop got
    that far. *)
Fixpoint cut_pass (cfg : Config) (evs : list cycle_input) (intr : interrupt)
    (s : CellularMonitor) : option cut_point :=
  match evs with
  | [] =>
      match intr with
      | InSleep => None
      | InPass now point =>
          if duration_exceeded s now then None else Some point
      end
  | ev :: rest =>
      if duration_exceeded s (head_now ev) then None
      else if interval cfg <? 0 then None
      else cut_pass cfg rest intr (fst (cycle ev s))
  end.

(** The tracker after a pass cut at [cut], if any. *)
Definition after_cut (cut : option cut_point) (s : CellularMonitor)
  : CellularMonitor :=
  match cut with
  | Some point => begin_pass point s
  | None => s
  end.

(** The probes a cut pass started (counted in [ping_count]), those of them
    left without an outcome, and the failure reasons it recorded. *)
Definition probes_begun (cut : option cut_point) : Z :=
  match cut with
  | Some _ => 1
  | None => 0
  end.

Definition probes_unfinished (cut : option cut_point) : Z :=
  match cut with
  | Some InProbe => 1
  | _ => 0
  end.

Definition cut_failures (cut : option cut_point) : list string :=
  match cut with
  | Some (InSignalQuery error) => [error]
  | _ => []
  end.

(** Folding the passes without the duration check. *)
Definition run (evs : list cycle_input) (s : CellularMonitor)
  : CellularMonitor :=
  fold_left (fun s ev => fst (cycle ev s)) evs s.

(** The tracker after each pass that ran to its end, in order. *)
Fixpoint history (cfg : Config) (evs : list cycle_input) (s : CellularMonitor)
  : list CellularMonitor :=
  match evs with
  | [] => []
  | ev :: rest =>
      if duration_exceeded s (head_now ev) then []
      else
        let s1 := fst (cycle ev s) in
        if interval cfg <? 0 then [s1] else s1 :: history cfg rest s1
  end.

(** ** Sample runs *)

(** A pass whose probe succeeds in [rtt] ms, and one whose probe fails with
    [error]; [t] is the clock of the pass. *)
Definition ok_at (t : Z) (rtt : Q) : cycle_input :=
  {| head_now := t; result := Success rtt; body_now := t; signal := "" |}.

Definition fail_at (t : Z) (error : string) : cycle_input :=
  {| head_now := t; result := Failure error; body_now := t;
     signal := "75% (recent)" |}.

Definition default_config : Config :=
  {| host := "8.8.8.8"; interval := 10; timeout := 5; interface := "wwan0";
     duration := 0 |}.

(** The tracker once both buffers hold 100 entries. *)
Definition full_buffers : CellularMonitor :=
  set_recent_failures (repeat "Ping timeout" 99 ++ ["Ping failed"])
    (set_recent_pings (map (fun n => inject_Z (Z.of_nat n)) (seq 0 100))
       (set_failure_count 100 (set_success_count 100
          (set_ping_count 200 init)))).

Definition buffers_bounded (s : CellularMonitor) : Prop :=
  (length (recent_pings s) <= maxlen)%nat /\
  (length (recent_failures s) <= maxlen)%nat.

Definition buffers_track_counts (s : CellularMonitor) : Prop :=
  Z.of_nat (length (recent_pings s)) = Z.min (success_count s) 100 /\
  Z.of_nat (length (recent_failures s)) = Z.min (failure_count s) 100.

(** ** Downtime episodes, as the specification defines them *)

(** A closed downtime episode: the clock of the first failure after an up
    period and the clock of the first success after it. *)
Record DowntimeEpisode : Type := {
  episode_start : Z;
  recovery_time : Z
}.

Definition episode_duration (e : DowntimeEpisode) : Z :=
  recovery_time e - episode_start e.

(** The episodes closed by a sequence of passes, oldest first; [active] is
    the start of the episode open before the first pass, if any.  A failed
    pass opens an episode when none is open and otherwise continues the
    open one; a successful pass closes the open one. *)
Fixpoint closed_episodes (active : option Z) (evs : list cycle_input)
  : list DowntimeEpisode :=
  match evs with
  | [] => []
  | ev :: rest =>
      match result ev, active with
      | Failure _, None => closed_episodes (Some (body_now ev)) rest
      | Failure _, Some t0 => closed_episodes (Some t0) rest
      | Success _, Some t0 =>
          {| episode_start := t0; recovery_time := body_now ev |}
            :: closed_episodes None rest
      | Success _, None => closed_episodes None rest
      end
  end.

(** The start of the episode still open after the passes, if any. *)
Fixpoint open_episode (active : option Z) (evs : list cycle_input)
  : option Z :=
  match evs with
  | [] => active
  | ev :: rest =>
      match result ev, active with
      | Failure _, None => open_episode (Some (body_now ev)) rest
      | Failure _, Some t0 => open_episode (Some t0) rest
      | Success _, _ => open_episode None rest
      end
  end.

Definition closed_durations (active : option Z) (evs : list cycle_input)
  : list Z :=
  map episode_duration (closed_episodes active evs).

Definition sum_Z (l : list Z) : Z := fold_right Z.add 0 l.

(** The clock readings of the passes never go back. *)
Definition clock_nondecreasing (evs : list cycle_input) : Prop :=
  StronglySorted Z.le (map body_now evs).

Definition is_failure (ev : cycle_input) : Prop :=
  match result ev with
  | Failure _ => True
  | Success _ => False
  end.

(** While no episode is open the displayed downtime is zero. *)
Definition up_shows_zero (s : CellularMonitor) : Prop :=
  downtime_start s = None -> current_downtime s = 0.

(** The scenario of the specification: two successes, two failures, one
    success, ten seconds apart. *)
Definition scenario : list cycle_input :=
  [ ok_at 0 (20 # 1); ok_at 10000000 (22 # 1);
    fail_at 20000000 "timeout"; fail_at 30000000 "timeout";
    ok_at 40000000 (25 # 1) ].

Definition all_checks_pass : diagnostics_input :=
  {| check_interface := (true, "Interface is UP");
     check_ip_config := (true, "IPs: inet 10.0.0.2/30");
     check_dns := (true, "DNS: nameserver 8.8.8.8");
     check_route := (true, "Routes: 1 found");
     check_modem_status := (true, "Modem: found") |}.

(** ** What the reports show *)

(** The success rates and the loss rates a sequence of lines shows. *)
Definition success_rates_shown (out : list output) : list Q :=
  flat_map (fun o => match o with
                     | Log _ (MStats _ _ rate _ _) => [rate]
                     | Log _ (MSuccessRate rate) => [rate]
                     | _ => []
                     end) out.

Definition loss_rates_shown (out : list output) : list Q :=
  flat_map (fun o => match o with
                     | Log _ (MLossRate rate) => [rate]
                     | _ => []
                     end) out.

(** The items a sequence of lines shows under "Failure breakdown:". *)
Definition breakdown_shown (out : list output) : list (string * Z) :=
  flat_map (fun o => match o with
                     | Log _ (MBreakdownItem failure_type count) =>
                         [(failure_type, count)]
                     | _ => []
                     end) out.

(** A tracker after 3 successes and 1 failure, and a run of one minute
    whose third duration check comes at the end time. *)
Definition three_of_four : CellularMonitor :=
  set_failure_count 1 (set_success_count 3 (set_ping_count 4 init)).

Definition one_minute : Config :=
  {| host := "8.8.8.8"; interval := 10; timeout := 5; interface := "wwan0";
     duration := 1 |}.

Definition expiring_run : list cycle_input :=
  [ ok_at 1000 (20 # 1); ok_at 30000000 (21 # 1); ok_at 60000000 (22 # 1) ].

(** ** [ping_host] *)

(** Python's [str] operations used by [ping_host]. *)
Module Str.

(** [sub in s] *)
Fixpoint contains (sub s : string) : bool :=
  match s with
  | EmptyString => String.prefix sub EmptyString
  | String _ s' => String.prefix sub s || contains sub s'
  end.

(** [s.split(sep)] for a non-empty [sep]: [cur] is the piece being read,
    [skip] the number of characters of a separator still to pass. *)
Fixpoint split_from (sep s cur : string) (skip : nat) : list string :=
  match s with
  | EmptyString => [cur]
  | String c s' =>
      match skip with
      | S k => split_from sep s' cur k
      | O =>
          if String.prefix sep s
          then cur :: split_from sep s' EmptyString (String.length sep - 1)
          else split_from sep s' (String.append cur (String c EmptyString)) 0
      end
  end.

Definition split (sep s : string) : list string :=
  split_from sep s EmptyString 0.

Definition newline : string := String "010"%char EmptyString.

End Str.

(** How [subprocess.run] ended: it returned a completed process, it raised
    [TimeoutExpired], or it raised another exception, of text [msg]. *)
Inductive subprocess_result : Type :=
| Completed (returncode : Z) (stdout stderr : string)
| TimeoutExpired
| Raised (msg : string).

(** What the environment answers to one call of [ping_host]:
    - [is_ip]: [socket.inet_aton(self.host)] did not raise;
    - [resolution]: what [self.resolve_hostname(self.host)] returns;
    - [clock_before], [clock_after]: [time.time()] around the subprocess,
      in seconds;
    - [ping]: how the subprocess ended. *)
Record ping_input : Type := {
  is_ip : bool;
  resolution : bool * string;
  clock_before : Q;
  ping : subprocess_result;
  clock_after : Q
}.

Section PingHost.

(** [float(text)], [None] when it raises, and [text.strip()]. *)
Variable parse_float : string -> option Q.
Variable strip : string -> string.

(** [line.split('time=')[1].split(' ')[0]] *)
Definition time_field (line : string) : string :=
  hd EmptyString (Str.split " " (nth 1 (Str.split "time=" line) EmptyString)).

(** The loop [for line in result.stdout.split('\n')]: the first line
    holding ['time='] whose field [float] accepts gives the result. *)
Fixpoint first_rtt (lines : list string) : option Q :=
  match lines with
  | [] => None
  | line :: rest =>
      if Str.contains "time=" line
      then match parse_float (time_field line) with
           | Some rtt => Some rtt
           | None => first_rtt rest
           end
      else first_rtt rest
  end.

(** [ping_host] *)
Definition ping_host (env : ping_input) : ProbeResult :=
  if negb (is_ip env) && negb (fst (resolution env))
  then Failure (String.append "DNS resolution failed: " (snd (resolution env)))
  else
    match ping env with
    | Completed returncode stdout stderr =>
        let elapsed := (clock_after env - clock_before env)%Q in
        if returncode =? 0
        then match first_rtt (Str.split Str.newline stdout) with
             | Some rtt => Success rtt
             | None => Success (elapsed * 1000)%Q
             end
        else Failure (match stderr with
                      | EmptyString => "Ping failed"
                      | String _ _ => strip stderr
                      end)
    | TimeoutExpired => Failure "Ping timeout"
    | Raised msg => Failure msg
    end.

End PingHost.

(** A stand-in for [float] that accepts unsigned decimals such as [20.3],
    and one for [strip] that removes nothing, to run [ping_host] on
    examples. *)
Fixpoint digits (s : string) (acc : Z) : option Z :=
  match s with
  | EmptyString => Some acc
  | String c s' =>
      let n := Z.of_nat (nat_of_ascii c) in
      if (48 <=? n) && (n <=? 57) then digits s' (10 * acc + (n - 48))
      else None
  end.

Definition sample_float (s : string) : option Q :=
  match Str.split "." s with
  | [whole] =>
      match whole, digits whole 0 with
      | String _ _, Some w => Some (inject_Z w)
      | _, _ => None
      end
  | [whole; frac] =>
      match whole, frac, digits whole 0, digits frac 0 with
      | String _ _, String _ _, Some w, Some f =>
          Some (inject_Z w
                + Qmake f (Pos.pow 10 (Pos.of_nat (String.length frac))))%Q
      | _, _, _, _ => None
      end
  | _ => None
  end.

Definition sample_strip (s : string) : string := s.

(** A ping that exits with status 0 after 31.5 ms and prints no time that
    [float] accepts. *)
Definition output_without_time : string :=
  String.append "PING 8.8.8.8 (8.8.8.8) from 10.0.0.2 wwan0"
    (String.append Str.newline
    (String.append "64 bytes from 8.8.8.8: icmp_seq=1 time=n/a"
    (String.append Str.newline "1 packets transmitted, 1 received"))).

Definition reply_without_time : ping_input :=
  {| is_ip := true;
     resolution := (true, "8.8.8.8");
     clock_before := 1000 # 1;
     ping := Completed 0 output_without_time "";
     clock_after := 2000063 # 2000 |}.

Definition reply_with_time : ping_input :=
  {| is_ip := true;
     resolution := (true, "8.8.8.8");
     clock_before := 1000 # 1;
     ping := Completed 0
               (String.append "PING 8.8.8.8 (8.8.8.8) from 10.0.0.2 wwan0"
                 (String.append Str.newline
                   "64 bytes from 8.8.8.8: icmp_seq=1 ttl=117 time=20.3 ms"))
               "";
     clock_after := 2000063 # 2000 |}.

(** ** The failure reasons of a run and their order *)

(** The failure reasons of a sequence of passes, oldest first. *)
Definition failures_of (evs : list cycle_input) : list string :=
  flat_map (fun ev => match result ev with
                      | Failure error => [error]
                      | Success _ => []
                      end) evs.

(** The number of occurrences of [r] in [w]. *)
Definition count_in (r : string) (w : list string) : Z :=
  Z.of_nat (count_occ string_dec w r).

(** The position of the first occurrence of [r] in [w] (the length of [w]
    when there is none). *)
Fixpoint first_index (r : string) (w : list string) : nat :=
  match w with
  | [] => 0
  | x :: w' => if String.eqb x r then 0 else S (first_index r w')
  end.

(** Some occurrence of [a] in [l] has an occurrence of [b] after it. *)
Fixpoint comes_before {A : Type} (a b : A) (l : list A) : Prop :=
  match l with
  | [] => False
  | y :: l' => (y = a /\ In b l') \/ comes_before a b l'
  end.

(** The dictionary [d] counts the reasons of [p], its keys in the order
    their first occurrences have in [p]. *)
Definition counts_of (p : list string) (d : Dict.t) : Prop :=
  NoDup (map fst d)
  /\ (forall r c, In (r, c) d <-> In r p /\ c = count_in r p)
  /\ (forall a b, comes_before a b (map fst d) ->
                  (first_index a p < first_index b p)%nat).

(** The reading of the claim on the whole run: every failure reason of the
    passes that ran is listed with its number of occurrences among them. *)
Definition breakdown_covers_run (evs : list cycle_input) (final_now : Z)
  : Prop :=
  let s0 := startup default_config 0 init in
  let s :=
    fst (monitor default_config 0 all_checks_pass evs InSleep final_now init) in
  0 < failure_count s ->
  forall r, In r (failures_of (completed default_config evs s0)) ->
    In (r, count_in r (failures_of (completed default_config evs s0)))
       (breakdown_shown (print_final_stats final_now s)).

(** One probe that finds the network unreachable, then 101 timeouts, ten
    seconds apart. *)
Definition long_outage : list cycle_input :=
  fail_at 0 "connect: Network is unreachable"
  :: map (fun n => fail_at (Z.of_nat n * 10000000) "Ping timeout")
         (seq 1 101).

(** The second scenario of the specification: 100 failures, then 5
    successes, ten seconds apart. *)
Definition outage_then_recovery : list cycle_input :=
  map (fun n => fail_at (Z.of_nat n * 10000000) "timeout") (seq 0 100)
  ++ map (fun n => ok_at (Z.of_nat n * 10000000) (20 # 1)) (seq 100 5).

(** An episode during which the wall clock is set back by an hour. *)
Definition clock_set_back : list cycle_input :=
  [ fail_at 3600000000 "timeout"; ok_at 10000000 (20 # 1) ].

(** The reading of the claim on the maximum: at the end of the run
    [max_downtime] is 0 when no episode was closed and otherwise the
    largest of the durations of the closed episodes, one of them and no
    smaller than any. *)
Definition max_downtime_is_maximum (evs : list cycle_input) : Prop :=
  let s0 := startup default_config 0 init in
  let s := fst (fst (loop default_config evs InSleep s0)) in
  let durations := closed_durations None (completed default_config evs s0) in
  (durations = [] -> max_downtime s = 0)
  /\ (durations <> [] ->
      In (max_downtime s) durations
      /\ Forall (fun d => d <= max_downtime s) durations).

(** ** Reading the lines of a run *)

(** The number of [self.log] lines of [out] whose message satisfies [p]. *)
Definition count_lines (p : message -> bool) (out : list output) : nat :=
  length (filter (fun o => match o with
                           | Log _ m => p m
                           | Print _ => false
                           end) out).

Definition is_stats (m : message) : bool :=
  match m with MStats _ _ _ _ _ => true | _ => false end.

Definition is_ping_ok (m : message) : bool :=
  match m with MPingOk _ _ => true | _ => false end.

Definition is_ping_loss (m : message) : bool :=
  match m with MPingLoss _ _ _ => true | _ => false end.

Definition is_still_down (m : message) : bool :=
  match m with MStillDown _ _ _ _ => true | _ => false end.

(** The messages only a pass of the loop prints. *)
Definition is_pass_line (m : message) : bool :=
  match m with
  | MRecovered _ | MPingOk _ _ | MPingLoss _ _ _ | MStillDown _ _ _ _
  | MStats _ _ _ _ _ => true
  | _ => false
  end.

(** The downtimes announced by the "Connection RECOVERED" lines. *)
Definition recoveries_shown (out : list output) : list Z :=
  flat_map (fun o => match o with
                     | Log _ (MRecovered downtime) => [downtime]
                     | _ => []
                     end) out.

(** The latencies of the successful passes, oldest first. *)
Definition latencies_of (evs : list cycle_input) : list Q :=
  flat_map (fun ev => match result ev with
                      | Success rtt => [rtt]
                      | Failure _ => []
                      end) evs.

(** The lines of the branch a pass takes, before its periodic statistics. *)
Definition branch_lines (ev : cycle_input) (s : CellularMonitor)
  : list output :=
  match result ev, downtime_start s with
  | Success rtt, Some t0 =>
      [ Log "INFO" (MRecovered (body_now ev - t0));
        Log "OK  " (MPingOk (ping_count s + 1) rtt) ]
  | Success rtt, None => [Log "OK  " (MPingOk (ping_count s + 1) rtt)]
  | Failure error, None =>
      [Log "FAIL" (MPingLoss (failure_count s + 1) error (signal ev))]
  | Failure error, Some t0 =>
      [Log "FAIL" (MStillDown (body_now ev - t0) (failure_count s + 1)
                              (signal ev) error)]
  end.

(** No line of [out] is one only a pass prints. *)
Definition no_pass_line (out : list output) : Prop :=
  Forall (fun o => match o with
                   | Log _ m => is_pass_line m = false
                   | Print _ => True
                   end) out.

(** The last pass of [evs] failed. *)
Definition last_pass_failed (evs : list cycle_input) : bool :=
  match rev evs with
  | [] => false
  | ev :: _ => match result ev with
               | Failure _ => true
               | Success _ => false
               end
  end.

(** 1 when an episode is open, 0 otherwise. *)
Definition open_count (active : option Z) : nat :=
  match active with
  | Some _ => 1
  | None => 0
  end.

(** A run that ends inside an episode: the scenario of the specification,
    then three failures. *)
Definition ends_in_outage : list cycle_input :=
  scenario
  ++ [ fail_at 50000000 "timeout"; fail_at 60000000 "timeout";
       fail_at 70000000 "timeout" ].

Definition is_duration_exceeded (m : message) : bool :=
  match m with MDurationExceeded => true | _ => false end.

Definition is_interrupted (m : message) : bool :=
  match m with MInterrupted => true | _ => false end.

(** A run asked to last minus five minutes. *)
Definition negative_duration : Config :=
  {| host := "8.8.8.8"; interval := 10; timeout := 5; interface := "wwan0";
     duration := -5 |}.

(** No [self.log] line of [out] has a message satisfying [p]. *)
Definition free_of (p : message -> bool) (out : list output) : Prop :=
  Forall (fun o => match o with
                   | Log _ m => p m = false
                   | Print _ => True
                   end) out.

(** The lines [monitor] prints before the loop, and the line of its
    [except KeyboardInterrupt] clause. *)
Definition banner_lines (cfg : Config) (diagnostics : diagnostics_input)
  : list output :=
  [ Log "INFO" MStarting; Log "INFO" (MHost (host cfg));
    Log "INFO" (MInterface (interface cfg));
    Log "INFO" (MInterval (interval cfg));
    Log "INFO" (MTimeout (timeout cfg));
    Log "INFO" (if duration cfg =? 0 then MDurationInfinite
                else MDuration (duration cfg)) ]
  ++ run_diagnostics diagnostics ++ [Log "INFO" MStartLoop; Print ""].

Definition interrupt_lines (why : stop) : list output :=
  match why with
  | Interrupted => [Log "INFO" MInterrupted]
  | DurationExceeded | SleepRaised => []
  end.

(** A reply whose first line with ['time='] has a field [float] refuses and
    whose second has one it accepts. *)
Definition reply_with_two_times : ping_input :=
  {| is_ip := false;
     resolution := (true, "8.8.8.8");
     clock_before := 1000 # 1;
     ping := Completed 0
               (String.append "probe time=n/a"
                 (String.append Str.newline
                 (String.append "64 bytes from 8.8.8.8: time=20.3 ms"
                 (String.append Str.newline
                    "64 bytes from 8.8.8.8: time=99.9 ms"))))
               "";
     clock_after := 2000063 # 2000 |}.

(** A name that does not resolve, with a ping that would have answered. *)
Definition unresolved_host : ping_input :=
  {| is_ip := false;
     resolution := (false, "Name or service not known");
     clock_before := 0;
     ping := Completed 0 "time=1.0 ms" "";
     clock_after := 1 |}.

(** ** The checks of [run_diagnostics] that search the output of a command *)

(** How the [try] block of a check ended: [subprocess.run] returned, with
    its status and its standard output, or an exception of text [text] was
    raised (a timeout included). *)
Inductive command_result : Type :=
| Returned (returncode : Z) (stdout : string)
| Failed (text : string).

(** [sep.join(items)] *)
Fixpoint join (sep : string) (items : list string) : string :=
  match items with
  | [] => EmptyString
  | [x] => x
  | x :: rest => String.append x (String.append sep (join sep rest))
  end.

(** [check_interface] *)
Definition check_interface_of (r : command_result) : bool * string :=
  match r with
  | Returned returncode stdout =>
      if negb (returncode =? 0) then (false, "Interface not found")
      else if negb (Str.contains "UP" stdout) then (false, "Interface is DOWN")
      else (true, "Interface is UP")
  | Failed text => (false, String.append "Error checking interface: " text)
  end.

Section Checks.

(** [text.strip()] and [text.lower()]. *)
Variable strip : string -> string.
Variable lower : string -> string.

(** [check_ip_config] *)
Definition check_ip_config_of (r : command_result) : bool * string :=
  match r with
  | Returned returncode stdout =>
      if negb (returncode =? 0) then (false, "Could not get IP config")
      else if Str.contains "inet " stdout || Str.contains "inet6 " stdout
      then
        let lines := Str.split Str.newline stdout in
        let ips := map strip (filter (Str.contains "inet") lines) in
        (true, String.append "IPs: " (join ", " (firstn 2 ips)))
      else (false, "No IP address assigned")
  | Failed text => (false, String.append "Error checking IP: " text)
  end.

(** [check_modem_status] *)
Definition check_modem_status_of (r : command_result) : bool * string :=
  match r with
  | Returned returncode stdout =>
      if negb (returncode =? 0) then (false, "ModemManager not responding")
      else if Str.contains "Modem" stdout
      then
        let lines := Str.split Str.newline (strip stdout) in
        (true, String.append "Modem: "
                 (match lines with
                  | line :: _ => line
                  | [] => "Found"
                  end))
      else (false, "No modems found")
  | Failed text => (false, String.append "Error checking modem: " text)
  end.

(** The loop of [get_signal_strength] over the lines of the output. *)
Fixpoint first_signal (lines : list string) : option string :=
  match lines with
  | [] => None
  | line :: rest =>
      if Str.contains "signal quality" (lower line)
      then Some (strip (last (Str.split ":" line) EmptyString))
      else first_signal rest
  end.

(** [get_signal_strength] *)
Definition get_signal_strength (r : command_result) : string :=
  match r with
  | Returned returncode stdout =>
      if returncode =? 0
      then match first_signal (Str.split Str.newline stdout) with
           | Some signal => signal
           | None => "unknown"
           end
      else "unknown"
  | Failed _ => "unknown"
  end.

End Checks.

(** An interface that is administratively up without a carrier. *)
Definition no_carrier_output : string :=
  "3: wwan0: <NO-CARRIER,BROADCAST,MULTICAST,UP> mtu 1500 state DOWN".

(** No occurrence of [sep] in [pre ++ tail] starts inside [pre]. *)
Fixpoint starts_none (sep pre tail : string) : bool :=
  match pre with
  | EmptyString => true
  | String c pre' =>
      negb (String.prefix sep (String.append pre tail))
      && starts_none sep pre' tail
  end.

(** A line of [ping] as iputils prints it. *)
Definition ping_line_before : string :=
  "64 bytes from 8.8.8.8: icmp_seq=1 ttl=117 ".

(** A stand-in for [lower] that maps the capital letters A to Z. *)
Definition sample_lower_char (c : ascii) : ascii :=
  let n := nat_of_ascii c in
  if (Nat.leb 65 n && Nat.leb n 90)%bool then ascii_of_nat (n + 32) else c.

Fixpoint sample_lower (s : string) : string :=
  match s with
  | EmptyString => EmptyString
  | String c s' => String (sample_lower_char c) (sample_lower s')
  end.

(** What [mmcli -m 0] prints around the signal quality. *)
Definition mmcli_output : string :=
  String.append "  Status |          state: connected"
    (String.append Str.newline
    (String.append "         | signal quality:75% (recent)"
    (String.append Str.newline "         |   access tech: lte"))).

(** What [ip addr show] prints for an interface with one address. *)
Definition ip_addr_output : string :=
  String.append "3: wwan0: <POINTOPOINT,UP,LOWER_UP> mtu 1500"
    (String.append Str.newline
    (String.append "    inet 10.0.0.2/30 scope global wwan0"
    (String.append Str.newline "       valid_lft forever"))).

(** ** The checks of the resolver file and of the routes *)

(** How the [try] block of [check_dns] ended: the file was read, with its
    content, or an exception of text [text] was raised. *)
Inductive read_result : Type :=
| Content (content : string)
| ReadError (text : string).

(** [check_dns] *)
Definition check_dns_of (r : read_result) : bool * string :=
  match r with
  | Content content =>
      let nameservers :=
        filter (String.prefix "nameserver")
               (Str.split Str.newline content) in
      match nameservers with
      | _ :: _ =>
          (true, String.append "DNS: " (join ", " (firstn 2 nameservers)))
      | [] => (false, "No nameservers in resolv.conf")
      end
  | ReadError text =>
      (false, String.append "Error reading resolv.conf: " text)
  end.

(** [str(n)] of a length, as an f-string renders it. *)
Definition str_of_nat (n : nat) : string :=
  NilZero.string_of_uint (Nat.to_uint n).

(** [check_route]; [strip] is [text.strip()]. *)
Definition check_route_of (strip : string -> string) (r : command_result)
  : bool * string :=
  match r with
  | Returned returncode stdout =>
      if negb (returncode =? 0) then (false, "No routes for interface")
      else
        let routes := Str.split Str.newline (strip stdout) in
        match routes with
        | String _ _ :: _ =>
            (true, String.append "Routes: "
                     (String.append (str_of_nat (length routes)) " found"))
        | _ => (false, "No routes configured")
        end
  | Failed text => (false, String.append "Error checking routes: " text)
  end.

(** The number of line breaks of a text. *)
Fixpoint count_newlines (s : string) : nat :=
  match s with
  | EmptyString => 0%nat
  | String c s' =>
      ((if Ascii.eqb c "010" then 1 else 0) + count_newlines s')%nat
  end.

(** A resolver file whose second and third lines name servers, and the
    routes of an interface. *)
Definition resolv_conf : string :=
  String.append "# Generated by NetworkManager"
    (String.append Str.newline
       (String.append "nameserver 8.8.8.8"
          (String.append Str.newline
             (String.append "nameserver 1.1.1.1" Str.newline)))).

Definition ip_route_output : string :=
  String.append "default via 10.64.64.64"
    (String.append Str.newline "10.64.64.64 proto kernel scope link").

(** ** The lines of the passes that ran *)

(** The lines [out] are those of the passes [ran], run from the tracker
    [s]: one "Ping #" line per success, one "Ping loss" or "Still down"
    line per failure, one "RECOVERED" line per closed episode, with its
    duration, one "Ping loss" line per episode, and the statistics at every
    tenth pass. *)
Definition lines_of_passes (out : list output) (ran : list cycle_input)
    (s : CellularMonitor) : Prop :=
  count_lines is_ping_ok out = length (latencies_of ran)
  /\ (count_lines is_ping_loss out + count_lines is_still_down out)%nat
     = length (failures_of ran)
  /\ recoveries_shown out = closed_durations (downtime_start s) ran
  /\ (count_lines is_ping_loss out + open_count (downtime_start s))%nat
     = (length (closed_episodes (downtime_start s) ran)
        + open_count (open_episode (downtime_start s) ran))%nat
  /\ Z.of_nat (count_lines is_stats out)
     = (ping_count s + Z.of_nat (length ran)) / 10 - ping_count s / 10.

(** The clock the duration check of the pass cut by the interrupt reads. *)
Definition interrupt_checks (intr : interrupt) : list Z :=
  match intr with
  | InSleep => []
  | InPass now _ => [now]
  end.

(** A run with a negative interval, and a run whose eleventh probe fails
    and is cut by the interrupt during the signal query. *)
Definition negative_interval : Config :=
  {| host := "8.8.8.8"; interval := -1; timeout := 5; interface := "wwan0";
     duration := 0 |}.

Definition ten_successes : list cycle_input :=
  map (fun n => ok_at (Z.of_nat n * 10000000) (20 # 1)) (seq 0 10).

(** * Properties *)

(** ** What one pass does to each attribute *)

(** The periodic statistics only print. *)
Lemma cycle_fst ev s :
  fst (cycle ev s) =
  fst (match result ev with
       | Success rtt =>
           on_success rtt (body_now ev) (set_ping_count (ping_count s + 1) s)
       | Failure error =>
           on_failure error (signal ev) (body_now ev)
                      (set_ping_count (ping_count s + 1) s)
       end).
Proof.
  unfold cycle.
  destruct (result ev) as [rtt|error];
    [ destruct (on_success rtt (body_now ev) _) as [s1 out]
    | destruct (on_failure error (signal ev) (body_now ev) _) as [s1 out] ];
    destruct (ping_count s1 mod 10 =? 0); reflexivity.
Qed.

Ltac proj_simpl :=
  cbv [on_success on_failure set_ping_count set_success_count
       set_failure_count set_downtime_start set_downtime_duration
       set_max_downtime set_current_downtime set_recent_pings
       set_recent_failures set_start_time set_end_time
       fst snd start_time end_time ping_count success_count failure_count
       downtime_start downtime_duration max_downtime current_downtime
       recent_pings recent_failures].

Ltac break_cycle :=
  rewrite cycle_fst;
  match goal with
  | s : CellularMonitor |- _ =>
      destruct s as [? ? ? ? ? [?|] ? ? ? ? ?]
  end;
  match goal with
  | ev : cycle_input |- _ => destruct (result ev)
  end;
  proj_simpl;
  repeat match goal with
         | |- context [?a <? ?b] => destruct (Z.ltb_spec a b); proj_simpl
         end.

Lemma cycle_end_time ev s : end_time (fst (cycle ev s)) = end_time s.
Proof. break_cycle; reflexivity. Qed.


Lemma cycle_ping_count ev s :
  ping_count (fst (cycle ev s)) = ping_count s + 1.
Proof. break_cycle; reflexivity. Qed.

Lemma cycle_success_count ev s :
  success_count (fst (cycle ev s)) =
  match result ev with
  | Success _ => success_count s + 1
  | Failure _ => success_count s
  end.
Proof. break_cycle; reflexivity. Qed.

Lemma cycle_failure_count ev s :
  failure_count (fst (cycle ev s)) =
  match result ev with
  | Success _ => failure_count s
  | Failure _ => failure_count s + 1
  end.
Proof. break_cycle; reflexivity. Qed.

Lemma cycle_recent_pings ev s :
  recent_pings (fst (cycle ev s)) =
  match result ev with
  | Success rtt => Deque.append maxlen rtt (recent_pings s)
  | Failure _ => recent_pings s
  end.
Proof. break_cycle; reflexivity. Qed.

Lemma cycle_recent_failures ev s :
  recent_failures (fst (cycle ev s)) =
  match result ev with
  | Success _ => recent_failures s
  | Failure error => Deque.append maxlen error (recent_failures s)
  end.
Proof. break_cycle; reflexivity. Qed.

Lemma cycle_downtime_start ev s :
  downtime_start (fst (cycle ev s)) =
  match result ev, downtime_start s with
  | Success _, _ => None
  | Failure _, None => Some (body_now ev)
  | Failure _, Some t0 => Some t0
  end.
Proof. break_cycle; reflexivity. Qed.

Lemma cycle_downtime_duration ev s :
  downtime_duration (fst (cycle ev s)) =
  match result ev, downtime_start s with
  | Success _, Some t0 => downtime_duration s + (body_now ev - t0)
  | _, _ => downtime_duration s
  end.
Proof. break_cycle; reflexivity. Qed.

Lemma cycle_max_downtime ev s :
  max_downtime (fst (cycle ev s)) =
  match result ev, downtime_start s with
  | Success _, Some t0 => Z.max (max_downtime s) (body_now ev - t0)
  | _, _ => max_downtime s
  end.
Proof. break_cycle; try reflexivity; lia. Qed.

Lemma cycle_current_downtime ev s :
  current_downtime (fst (cycle ev s)) =
  match result ev, downtime_start s with
  | Success _, Some _ => 0
  | Success _, None => current_downtime s
  | Failure _, None => current_downtime s
  | Failure _, Some t0 => body_now ev - t0
  end.
Proof. break_cycle; reflexivity. Qed.

(** ** The loop, its passes and its history *)

(** The tracker the loop ends with: the one of the passes that ran to
    their end, then what the pass cut by the interrupt did, if any. *)
Lemma loop_state cfg evs intr : forall s,
  fst (fst (loop cfg evs intr s))
  = after_cut (cut_pass cfg evs intr s) (run (completed cfg evs s) s).
Proof.
  induction evs as [|ev rest IH]; intros s; cbn [loop completed cut_pass].
  - destruct intr as [|now point]; [reflexivity|].
    destruct (duration_exceeded s now); reflexivity.
  - destruct (duration_exceeded s (head_now ev)); [reflexivity|].
    specialize (IH (fst (cycle ev s))).
    unfold run in *.
    destruct (interval cfg <? 0); cbn [fold_left];
      destruct (cycle ev s) as [s1 out1]; cbn [fst] in *; [reflexivity|].
    destruct (loop cfg rest intr s1) as [[s2 out2] why]; cbn [fst] in *.
    exact IH.
Qed.

Lemma last_nonempty {A} (l : list A) (c d d' : A) :
  last (c :: l) d = last (c :: l) d'.
Proof.
  revert c; induction l as [|x l IH]; intros c; [reflexivity|].
  change (last (x :: l) d = last (x :: l) d'). apply IH.
Qed.

Lemma history_last cfg evs : forall s,
  run (completed cfg evs s) s = last (history cfg evs s) s.
Proof.
  induction evs as [|ev rest IH]; intros s; cbn [completed history].
  - reflexivity.
  - destruct (duration_exceeded s (head_now ev)); [reflexivity|].
    destruct (interval cfg <? 0); [reflexivity|].
    specialize (IH (fst (cycle ev s))).
    unfold run in *; cbn [fold_left]. rewrite IH.
    destruct (history cfg rest (fst (cycle ev s))) as [|c l]; [reflexivity|].
    change (last (c :: l) (fst (cycle ev s)) = last (c :: l) s).
    apply last_nonempty.
Qed.

Lemma loop_history cfg evs intr s :
  fst (fst (loop cfg evs intr s))
  = after_cut (cut_pass cfg evs intr s) (last (history cfg evs s) s).
Proof. rewrite loop_state, history_last. reflexivity. Qed.

Lemma monitor_state cfg start diagnostics evs intr final_now s :
  fst (monitor cfg start diagnostics evs intr final_now s) =
  fst (fst (loop cfg evs intr (startup cfg start s))).
Proof.
  unfold monitor.
  destruct (loop cfg evs intr (startup cfg start s)) as [[s1 out] why];
    reflexivity.
Qed.

(** What a cut pass did to each attribute. *)
Lemma after_cut_fields cut s :
  let s' := after_cut cut s in
  start_time s' = start_time s /\ end_time s' = end_time s
  /\ ping_count s' = ping_count s + probes_begun cut
  /\ success_count s' = success_count s
  /\ failure_count s'
     = failure_count s + Z.of_nat (length (cut_failures cut))
  /\ downtime_start s' = downtime_start s
  /\ downtime_duration s' = downtime_duration s
  /\ max_downtime s' = max_downtime s
  /\ current_downtime s' = current_downtime s
  /\ recent_pings s' = recent_pings s
  /\ recent_failures s'
     = fold_left (fun d error => Deque.append maxlen error d)
                 (cut_failures cut) (recent_failures s).
Proof.
  destruct s; destruct cut as [[|error]|]; cbn; repeat split; lia.
Qed.

(** A property that holds at the start and that every pass keeps holds
    after every pass that ran. *)
Lemma history_invariant (P : CellularMonitor -> Prop) cfg :
  (forall ev s, P s -> P (fst (cycle ev s))) ->
  forall evs s, P s -> Forall P (history cfg evs s).
Proof.
  intros Hstep evs; induction evs as [|ev rest IH]; intros s Hs;
    cbn [history]; [constructor|].
  destruct (duration_exceeded s (head_now ev)); [constructor|].
  destruct (interval cfg <? 0); constructor; auto.
Qed.

Lemma last_Forall {A} (P : A -> Prop) (l : list A) (d : A) :
  P d -> Forall P l -> P (last l d).
Proof.
  intros Hd Hl; induction Hl as [|x l Hx Hl IH]; [exact Hd|].
  destruct l; [exact Hx|exact IH].
Qed.

(** An invariant of the passes that a cut pass keeps holds of the tracker
    [monitor] returns. *)
Lemma monitor_invariant (P : CellularMonitor -> Prop) cfg start :
  P (startup cfg start init) ->
  (forall ev s, P s -> P (fst (cycle ev s))) ->
  (forall point s, P s -> P (begin_pass point s)) ->
  forall diagnostics evs intr final_now,
    P (fst (monitor cfg start diagnostics evs intr final_now init)).
Proof.
  intros H0 Hstep Hcut diagnostics evs intr final_now.
  rewrite monitor_state, loop_history.
  assert (H : P (last (history cfg evs (startup cfg start init))
                      (startup cfg start init))).
  { apply last_Forall; [exact H0|].
    apply history_invariant; assumption. }
  destruct (cut_pass cfg evs intr (startup cfg start init)) as [point|];
    [apply Hcut|]; exact H.
Qed.

(** An invariant of the passes holds after the passes that ran to their
    end. *)
Lemma completed_invariant (P : CellularMonitor -> Prop) cfg evs s :
  P s -> (forall ev s, P s -> P (fst (cycle ev s))) ->
  P (run (completed cfg evs s) s).
Proof.
  intros H0 Hstep. rewrite history_last.
  apply last_Forall; [exact H0|].
  apply history_invariant; assumption.
Qed.

(** [startup] only sets the two times. *)
Lemma startup_fields cfg start s :
  let s' := startup cfg start s in
  ping_count s' = ping_count s /\ success_count s' = success_count s /\
  failure_count s' = failure_count s /\
  downtime_start s' = downtime_start s /\
  downtime_duration s' = downtime_duration s /\
  max_downtime s' = max_downtime s /\
  current_downtime s' = current_downtime s /\
  recent_pings s' = recent_pings s /\
  recent_failures s' = recent_failures s /\
  start_time s' = Some start.
Proof.
  unfold startup; destruct (duration cfg =? 0); cbn; repeat split.
Qed.

(** ** The rolling buffers *)

Lemma append_not_full {A} (n : nat) (x : A) (d : list A) :
  (length d < n)%nat -> Deque.append n x d = d ++ [x].
Proof.
  intros H; unfold Deque.append.
  rewrite length_app; cbn [length].
  destruct (Nat.ltb_spec n (length d + 1)); [lia|reflexivity].
Qed.

Lemma append_full {A} (n : nat) (x : A) (d : list A) :
  (0 < n)%nat -> length d = n -> Deque.append n x d = tl d ++ [x].
Proof.
  intros Hn H; unfold Deque.append.
  rewrite length_app; cbn [length].
  destruct (Nat.ltb_spec n (length d + 1)); [|lia].
  destruct d; [cbn in H; lia|reflexivity].
Qed.

Lemma append_length {A} (n : nat) (x : A) (d : list A) :
  (0 < n)%nat -> (length d <= n)%nat ->
  length (Deque.append n x d) = Nat.min (S (length d)) n.
Proof.
  intros Hn H.
  destruct (Nat.eq_dec (length d) n) as [E|E].
  - rewrite append_full by assumption.
    rewrite length_app; cbn [length].
    destruct d; cbn [length tl] in *; lia.
  - rewrite append_not_full by lia.
    rewrite length_app; cbn [length]; lia.
Qed.

Lemma maxlen_eq : maxlen = 100%nat.
Proof. reflexivity. Qed.

(** The buffer holds the last [n] of everything appended so far. *)
Lemma append_lastn {A} (n : nat) (x : A) (l : list A) :
  (0 < n)%nat ->
  Deque.append n x (Deque.lastn n l) = Deque.lastn n (l ++ [x]).
Proof.
  intros Hn. unfold Deque.lastn.
  rewrite length_app; cbn [length].
  destruct (Nat.le_gt_cases n (length l)) as [H|H].
  - rewrite append_full; [|assumption|rewrite length_skipn; lia].
    replace (length l + 1 - n)%nat with (S (length l - n)) by lia.
    rewrite skipn_app.
    replace (S (length l - n) - length l)%nat with 0%nat by lia.
    cbn [skipn]. f_equal.
    generalize (length l - n)%nat as k. clear.
    induction l as [|a l IH]; intros k; [destruct k; reflexivity|].
    destruct k; [reflexivity|]. cbn [skipn]. apply IH.
  - replace (length l - n)%nat with 0%nat by lia.
    replace (length l + 1 - n)%nat with 0%nat by lia.
    cbn [skipn]. apply append_not_full; lia.
Qed.

Lemma maxlen_pos : (0 < maxlen)%nat.
Proof. rewrite maxlen_eq; lia. Qed.

Lemma buffers_bounded_cycle ev s :
  buffers_bounded s -> buffers_bounded (fst (cycle ev s)).
Proof.
  intros [Hp Hf]; unfold buffers_bounded.
  rewrite cycle_recent_pings, cycle_recent_failures.
  pose proof maxlen_pos.
  destruct (result ev); split; try assumption;
    rewrite append_length by assumption; lia.
Qed.

Lemma buffers_track_counts_cycle ev s :
  buffers_track_counts s -> buffers_track_counts (fst (cycle ev s)).
Proof.
  intros [Hp Hf]; unfold buffers_track_counts.
  rewrite cycle_recent_pings, cycle_recent_failures,
    cycle_success_count, cycle_failure_count.
  pose proof maxlen_pos as Hpos. pose proof maxlen_eq as E.
  destruct (result ev); split; try assumption;
    rewrite append_length by (try assumption; rewrite E; lia);
    rewrite E; lia.
Qed.

Lemma buffers_track_counts_begin_pass point s :
  buffers_track_counts s -> buffers_track_counts (begin_pass point s).
Proof.
  intros [Hp Hf]; unfold buffers_track_counts.
  pose proof maxlen_pos as Hpos. pose proof maxlen_eq as E.
  destruct s; destruct point as [|error];
    cbn [begin_pass set_ping_count set_failure_count set_recent_failures
         recent_pings recent_failures success_count failure_count
         ping_count] in *;
    split; try assumption.
  rewrite append_length by (try assumption; rewrite E; lia).
  rewrite E; lia.
Qed.

(** ** The counters *)

(** C1.  After every pass of the loop that ran to its end
    [success_count + failure_count = ping_count]; a pass adds one to
    [ping_count] and one to exactly one of the two other counters: to
    [success_count] when the probe succeeded, to [failure_count] when it
    failed.  In the tracker the run ends with the equation holds as well,
    except when the interrupt came inside the last probe: that probe is
    counted in [ping_count] and in neither of the two others. *)
Theorem counters_add_up (cfg : Config) (start : Z) (evs : list cycle_input) :
  Forall (fun s => success_count s + failure_count s = ping_count s)
         (history cfg evs (startup cfg start init))
  /\ (forall diagnostics intr final_now,
        let s := fst (monitor cfg start diagnostics evs intr final_now init) in
        let cut := cut_pass cfg evs intr (startup cfg start init) in
        success_count s + failure_count s
        = ping_count s - probes_unfinished cut)
  /\ (forall ev s,
        let s' := fst (cycle ev s) in
        ping_count s' = ping_count s + 1 /\
        match result ev with
        | Success _ =>
            success_count s' = success_count s + 1 /\
            failure_count s' = failure_count s
        | Failure _ =>
            success_count s' = success_count s /\
            failure_count s' = failure_count s + 1
        end).
Proof.
  assert (Hstep : forall ev s,
             success_count s + failure_count s = ping_count s ->
             success_count (fst (cycle ev s)) + failure_count (fst (cycle ev s))
             = ping_count (fst (cycle ev s))).
  { intros ev s H.
    rewrite cycle_success_count, cycle_failure_count, cycle_ping_count.
    destruct (result ev); lia. }
  assert (H0 : success_count (startup cfg start init)
               + failure_count (startup cfg start init)
               = ping_count (startup cfg start init)).
  { unfold startup; destruct (duration cfg =? 0); reflexivity. }
  split; [|split].
  - apply history_invariant; assumption.
  - intros diagnostics intr final_now. cbv zeta.
    rewrite monitor_state, loop_state.
    pose proof (completed_invariant
                  (fun s => success_count s + failure_count s = ping_count s)
                  cfg evs _ H0 Hstep) as Hran.
    cbv beta in Hran.
    destruct (after_cut_fields (cut_pass cfg evs intr (startup cfg start init))
                (run (completed cfg evs (startup cfg start init))
                     (startup cfg start init)))
      as (_ & _ & Ep & Es & Ef & _).
    rewrite Ep, Es, Ef.
    destruct (cut_pass cfg evs intr (startup cfg start init)) as [[|error]|];
      cbn [probes_begun probes_unfinished cut_failures length]; lia.
  - intros ev s; cbv zeta.
    rewrite cycle_success_count, cycle_failure_count, cycle_ping_count.
    destruct (result ev); repeat split.
Qed.

(** ** The rolling buffers in the loop *)

(** C4.  After every pass neither rolling buffer holds more than 100
    entries, and a pass that appends to a buffer holding 100 entries drops
    its oldest entry and keeps the 99 others in order, the new entry
    last. *)
Theorem buffers_bounded_fifo (cfg : Config) (start : Z)
    (evs : list cycle_input) :
  Forall (fun s => (length (recent_pings s) <= 100)%nat /\
                   (length (recent_failures s) <= 100)%nat)
         (history cfg evs (startup cfg start init))
  /\ (forall ev s rtt,
        result ev = Success rtt ->
        length (recent_pings s) = 100%nat ->
        recent_pings (fst (cycle ev s)) = tl (recent_pings s) ++ [rtt])
  /\ (forall ev s error,
        result ev = Failure error ->
        length (recent_failures s) = 100%nat ->
        recent_failures (fst (cycle ev s)) = tl (recent_failures s) ++ [error]).
Proof.
  split; [|split].
  - apply (history_invariant buffers_bounded).
    + apply buffers_bounded_cycle.
    + unfold buffers_bounded, startup.
      destruct (duration cfg =? 0); cbn [recent_pings recent_failures
        set_start_time set_end_time init length]; lia.
  - intros ev s rtt Hr Hlen.
    rewrite cycle_recent_pings, Hr.
    apply append_full; [apply maxlen_pos|exact Hlen].
  - intros ev s error Hr Hlen.
    rewrite cycle_recent_failures, Hr.
    apply append_full; [apply maxlen_pos|exact Hlen].
Qed.

Lemma buffers_bounded_fifo_witness :
  recent_pings (fst (cycle (ok_at 7 (25 # 1)) full_buffers))
  = tl (recent_pings full_buffers) ++ [25 # 1]
  /\ recent_failures (fst (cycle (fail_at 7 "Ping timeout") full_buffers))
     = tl (recent_failures full_buffers) ++ ["Ping timeout"].
Proof.
  split.
  - apply (proj1 (proj2 (buffers_bounded_fifo default_config 0 [])));
      reflexivity.
  - apply (proj2 (proj2 (buffers_bounded_fifo default_config 0 [])));
      reflexivity.
Defined.

(** C9.  After every pass the rolling latency buffer holds
    [min(success_count, 100)] entries and the rolling failure buffer
    [min(failure_count, 100)]: a pass appends its latency to the first and
    leaves the second alone when the probe succeeded, and appends its
    failure reason to the second and leaves the first alone when it
    failed. *)
Theorem buffer_lengths_follow_counters (cfg : Config) (start : Z)
    (evs : list cycle_input) :
  Forall (fun s =>
            Z.of_nat (length (recent_pings s)) = Z.min (success_count s) 100 /\
            Z.of_nat (length (recent_failures s))
            = Z.min (failure_count s) 100)
         (history cfg evs (startup cfg start init))
  /\ (forall ev s,
        let s' := fst (cycle ev s) in
        match result ev with
        | Success rtt =>
            recent_pings s' = Deque.append maxlen rtt (recent_pings s) /\
            recent_failures s' = recent_failures s
        | Failure error =>
            recent_pings s' = recent_pings s /\
            recent_failures s'
            = Deque.append maxlen error (recent_failures s)
        end).
Proof.
  split.
  - apply (history_invariant buffers_track_counts).
    + apply buffers_track_counts_cycle.
    + unfold buffers_track_counts, startup.
      destruct (duration cfg =? 0); split; reflexivity.
  - intros ev s; cbv zeta.
    rewrite cycle_recent_pings, cycle_recent_failures.
    destruct (result ev); split; reflexivity.
Qed.

(** ** Downtime accounting *)

(** The accumulators after a sequence of passes, from any tracker. *)
Lemma run_downtime evs : forall s,
  downtime_duration (run evs s)
  = downtime_duration s + sum_Z (closed_durations (downtime_start s) evs)
  /\ max_downtime (run evs s)
     = fold_left Z.max (closed_durations (downtime_start s) evs)
                 (max_downtime s)
  /\ downtime_start (run evs s) = open_episode (downtime_start s) evs.
Proof.
  induction evs as [|ev rest IH]; intros s.
  - cbn. repeat split; lia.
  - unfold run in *; cbn [fold_left].
    destruct (IH (fst (cycle ev s))) as (Hd & Hm & Ho).
    rewrite Hd, Hm, Ho.
    rewrite cycle_downtime_duration, cycle_max_downtime, cycle_downtime_start.
    unfold closed_durations; cbn [closed_episodes open_episode].
    destruct (result ev); destruct (downtime_start s);
      unfold sum_Z, episode_duration;
      cbn [map fold_left fold_right recovery_time episode_start];
      repeat split; try reflexivity; lia.
Qed.

Lemma fold_max_ge (l : list Z) : forall m,
  m <= fold_left Z.max l m /\ Forall (fun d => d <= fold_left Z.max l m) l.
Proof.
  induction l as [|d l IH]; intros m; cbn [fold_left].
  - split; [lia|constructor].
  - destruct (IH (Z.max m d)) as [H1 H2]. split; [lia|].
    constructor; [lia|exact H2].
Qed.

Lemma fold_max_in (l : list Z) : forall m,
  fold_left Z.max l m = m \/ In (fold_left Z.max l m) l.
Proof.
  induction l as [|d l IH]; intros m; cbn [fold_left]; [left; reflexivity|].
  destruct (IH (Z.max m d)) as [H|H].
  - destruct (Z.max_spec m d) as [[_ E]|[_ E]]; rewrite H, E.
    + right; left; reflexivity.
    + left; reflexivity.
  - right; right; exact H.
Qed.

(** With a clock that never goes back no closed episode has a negative
    duration. *)
Lemma closed_durations_nonneg evs : forall active,
  clock_nondecreasing evs ->
  (forall t0, active = Some t0 -> Forall (fun ev => t0 <= body_now ev) evs) ->
  Forall (fun d => 0 <= d) (closed_durations active evs).
Proof.
  unfold clock_nondecreasing, closed_durations.
  induction evs as [|ev rest IH]; intros active Hs Ha;
    cbn [closed_episodes map]; [constructor|].
  cbn [map] in Hs. apply StronglySorted_inv in Hs. destruct Hs as [Hs Hhd].
  assert (Hrest : Forall (fun e => body_now ev <= body_now e) rest).
  { rewrite Forall_map in Hhd. exact Hhd. }
  destruct (result ev); destruct active as [t0|].
  - cbn [map]. constructor.
    + specialize (Ha t0 eq_refl). inversion Ha; subst.
      unfold episode_duration; cbn; lia.
    + apply IH; [exact Hs|discriminate].
  - apply IH; [exact Hs|discriminate].
  - apply IH; [exact Hs|].
    intros t E; inversion E; subst.
    specialize (Ha t eq_refl). inversion Ha; assumption.
  - apply IH; [exact Hs|].
    intros t E; inversion E; subst. exact Hrest.
Qed.

(** Failed passes leave the cumulative downtime alone. *)
Lemma run_failures_downtime fails : forall s,
  Forall is_failure fails ->
  downtime_duration (run fails s) = downtime_duration s.
Proof.
  induction fails as [|ev rest IH]; intros s H; [reflexivity|].
  inversion H as [|? ? Hev Hrest]; subst.
  unfold run in *; cbn [fold_left].
  rewrite IH by assumption.
  rewrite cycle_downtime_duration.
  unfold is_failure in Hev. destruct (result ev); [contradiction|].
  destruct (downtime_start s); reflexivity.
Qed.

Lemma startup_downtime cfg start :
  downtime_duration (startup cfg start init) = 0 /\
  max_downtime (startup cfg start init) = 0 /\
  downtime_start (startup cfg start init) = None /\
  current_downtime (startup cfg start init) = 0.
Proof.
  unfold startup; destruct (duration cfg =? 0); repeat split.
Qed.

(** C2.  At the end of the run [downtime_duration] is the sum of
    [recovery_time - episode_start] over the episodes the passes closed;
    the episode still open, if any, is the one [downtime_start] holds and
    is not in the sum: failed passes, however many, leave the accumulator
    as it was; what is shown of an open episode is [current_downtime], in
    the periodic statistics, exactly while [downtime_start] is set. *)
Theorem cumulative_downtime_is_sum_of_closed (cfg : Config) (start : Z)
    (evs : list cycle_input) (intr : interrupt) :
  let s0 := startup cfg start init in
  let ran := completed cfg evs s0 in
  let s := fst (fst (loop cfg evs intr s0)) in
  downtime_duration s = sum_Z (closed_durations None ran)
  /\ downtime_start s = open_episode None ran
  /\ (forall fails s', Forall is_failure fails ->
        downtime_duration (run fails s') = downtime_duration s')
  /\ (forall s', exists ok total rate rtt,
        print_stats s'
        = [Log "STAT"
             (MStats ok total rate rtt
                (match downtime_start s' with
                 | Some _ => Some (current_downtime s')
                 | None => None
                 end))]).
Proof.
  cbv zeta. rewrite loop_state.
  destruct (after_cut_fields (cut_pass cfg evs intr (startup cfg start init))
              (run (completed cfg evs (startup cfg start init))
                   (startup cfg start init)))
    as (_ & _ & _ & _ & _ & Cs & Cd & _).
  rewrite Cs, Cd.
  destruct (run_downtime (completed cfg evs (startup cfg start init))
                         (startup cfg start init)) as (Hd & _ & Ho).
  destruct (startup_downtime cfg start) as (E1 & _ & E3 & _).
  rewrite E1, E3 in *.
  repeat split.
  - rewrite Hd; lia.
  - exact Ho.
  - intros fails s'; apply run_failures_downtime.
  - intros s'; unfold print_stats; repeat eexists.
Qed.

Lemma cumulative_downtime_is_sum_of_closed_witness :
  downtime_duration
    (run [fail_at 50000000 "timeout"; fail_at 60000000 "timeout"]
         (run scenario init))
  = downtime_duration (run scenario init).
Proof.
  apply (proj1 (proj2 (proj2
           (cumulative_downtime_is_sum_of_closed default_config 0 []
              InSleep)))).
  repeat constructor.
Defined.

(** C3, as the code has it.  At the end of the run [max_downtime] is the
    largest of 0 and the durations of the episodes the passes closed: it is
    0 when they closed none, it is never negative, no closed episode is
    longer, and it is 0 or one of their durations.  It is therefore the
    maximum of the durations as soon as one of them is not negative, which
    is the case whenever some episode was closed and the clock never went
    back. *)
Theorem max_downtime_is_max_of_closed (cfg : Config) (start : Z)
    (evs : list cycle_input) (intr : interrupt) :
  let s0 := startup cfg start init in
  let ran := completed cfg evs s0 in
  let s := fst (fst (loop cfg evs intr s0)) in
  let durations := closed_durations None ran in
  (durations = [] -> max_downtime s = 0)
  /\ 0 <= max_downtime s
  /\ Forall (fun d => d <= max_downtime s) durations
  /\ (max_downtime s = 0 \/ In (max_downtime s) durations)
  /\ (Exists (fun d => 0 <= d) durations -> In (max_downtime s) durations)
  /\ (clock_nondecreasing ran -> durations <> [] ->
      In (max_downtime s) durations).
Proof.
  cbv zeta. rewrite loop_state.
  destruct (after_cut_fields (cut_pass cfg evs intr (startup cfg start init))
              (run (completed cfg evs (startup cfg start init))
                   (startup cfg start init)))
    as (_ & _ & _ & _ & _ & _ & _ & Cm & _).
  rewrite Cm. clear Cm.
  destruct (run_downtime (completed cfg evs (startup cfg start init))
                         (startup cfg start init)) as (_ & Hm & _).
  destruct (startup_downtime cfg start) as (_ & E2 & E3 & _).
  rewrite E2, E3 in Hm. rewrite Hm. clear Hm.
  set (ds := closed_durations None
               (completed cfg evs (startup cfg start init))).
  destruct (fold_max_ge ds 0) as [Hge Hall].
  assert (Hex : Exists (fun d => 0 <= d) ds -> In (fold_left Z.max ds 0) ds).
  { intros Hex. destruct (fold_max_in ds 0) as [E|H]; [|exact H].
    rewrite E. apply Exists_exists in Hex. destruct Hex as (d & Hd & Hpos).
    rewrite Forall_forall in Hall. specialize (Hall d Hd).
    replace 0 with d by lia. exact Hd. }
  split; [intros E; rewrite E; reflexivity|].
  split; [exact Hge|]. split; [exact Hall|].
  split; [apply fold_max_in|]. split; [exact Hex|].
  intros Hclock Hne. apply Hex.
  assert (Hpos : Forall (fun d => 0 <= d) ds).
  { apply closed_durations_nonneg; [exact Hclock|discriminate]. }
  destruct ds as [|d ds']; [congruence|].
  inversion Hpos; subst. left. assumption.
Qed.

Lemma max_downtime_is_max_of_closed_witness :
  In (max_downtime
        (fst (fst (loop default_config scenario InSleep
                        (startup default_config 0 init)))))
     [20000000].
Proof.
  apply (proj2 (proj2 (proj2 (proj2 (proj2
           (max_downtime_is_max_of_closed default_config 0 scenario
              InSleep)))))).
  - repeat constructor; cbn; lia.
  - discriminate.
Defined.

(** C3, as the claim states it, fails: when the wall clock is set back by
    an hour during an episode, the one closed episode lasts -3590 seconds
    and [max_downtime] stays 0, which is not the duration of any closed
    episode. *)
Lemma max_downtime_is_not_a_duration_when_the_clock_goes_back :
  ~ max_downtime_is_maximum clock_set_back.
Proof.
  unfold max_downtime_is_maximum. cbv zeta. intros [_ H].
  assert (E : closed_durations None
                (completed default_config clock_set_back
                   (startup default_config 0 init))
              = [-3590000000]) by (vm_compute; reflexivity).
  rewrite E in H. destruct H as [Hin _]; [discriminate|].
  vm_compute in Hin. destruct Hin as [Hin|[]]. discriminate Hin.
Qed.

(** ** The displayed downtime *)

Lemma up_shows_zero_cycle ev s :
  up_shows_zero s -> up_shows_zero (fst (cycle ev s)).
Proof.
  unfold up_shows_zero.
  rewrite cycle_downtime_start, cycle_current_downtime.
  destruct (result ev); destruct (downtime_start s); auto; discriminate.
Qed.

(** What a pass prints: the lines of its branch, then the periodic
    statistics of the tracker it leaves when its number is a multiple of
    ten. *)
Lemma cycle_snd ev s :
  snd (cycle ev s) =
  snd (match result ev with
       | Success rtt =>
           on_success rtt (body_now ev) (set_ping_count (ping_count s + 1) s)
       | Failure error =>
           on_failure error (signal ev) (body_now ev)
                      (set_ping_count (ping_count s + 1) s)
       end)
  ++ (if (ping_count s + 1) mod 10 =? 0
      then print_stats (fst (cycle ev s)) else []).
Proof.
  pose proof (cycle_ping_count ev s) as Hp. rewrite cycle_fst in Hp.
  unfold cycle.
  destruct (result ev) as [rtt|error];
    [ destruct (on_success rtt (body_now ev) _) as [s1 out]
    | destruct (on_failure error (signal ev) (body_now ev) _) as [s1 out] ];
    cbn [fst] in Hp; rewrite <- Hp;
    destruct (ping_count s1 mod 10 =? 0) eqn:E; cbn [fst snd];
    rewrite ?app_nil_r; reflexivity.
Qed.

(** C10.  Whatever ran before, the displayed [current_downtime] is 0 while
    no episode is open; the failed pass that opens an episode sets
    [downtime_start] and leaves [current_downtime] at 0, also in the
    statistics that pass may print; a failed pass inside an episode sets it
    to the time elapsed since the episode started; the successful pass that
    closes the episode sets it back to 0. *)
Theorem current_downtime_lags_one_pass (cfg : Config) (start : Z)
    (evs : list cycle_input) (intr : interrupt) :
  let s := fst (fst (loop cfg evs intr (startup cfg start init))) in
  (downtime_start s = None -> current_downtime s = 0)
  /\ (forall ev error,
        result ev = Failure error -> downtime_start s = None ->
        downtime_start (fst (cycle ev s)) = Some (body_now ev) /\
        current_downtime (fst (cycle ev s)) = 0 /\
        forall ok total rate rtt shown,
          In (Log "STAT" (MStats ok total rate rtt shown)) (snd (cycle ev s)) ->
          shown = Some 0)
  /\ (forall ev error s' t0,
        result ev = Failure error -> downtime_start s' = Some t0 ->
        downtime_start (fst (cycle ev s')) = Some t0 /\
        current_downtime (fst (cycle ev s')) = body_now ev - t0)
  /\ (forall ev rtt s' t0,
        result ev = Success rtt -> downtime_start s' = Some t0 ->
        downtime_start (fst (cycle ev s')) = None /\
        current_downtime (fst (cycle ev s')) = 0).
Proof.
  cbv zeta.
  assert (Hinv : up_shows_zero
                   (fst (fst (loop cfg evs intr (startup cfg start init))))).
  { rewrite loop_state. unfold up_shows_zero.
    destruct (after_cut_fields
                (cut_pass cfg evs intr (startup cfg start init))
                (run (completed cfg evs (startup cfg start init))
                     (startup cfg start init)))
      as (_ & _ & _ & _ & _ & Cs & _ & _ & Cc & _).
    rewrite Cs, Cc.
    apply (completed_invariant up_shows_zero).
    - intros _. apply startup_downtime.
    - apply up_shows_zero_cycle. }
  set (s := fst (fst (loop cfg evs intr (startup cfg start init)))) in *.
  split; [exact Hinv|]. split; [|split].
  - intros ev error Hr Hup.
    assert (Hs : downtime_start (fst (cycle ev s)) = Some (body_now ev)).
    { rewrite cycle_downtime_start, Hr, Hup; reflexivity. }
    assert (Hc : current_downtime (fst (cycle ev s)) = 0).
    { rewrite cycle_current_downtime, Hr, Hup. apply Hinv, Hup. }
    split; [exact Hs|]. split; [exact Hc|].
    intros ok total rate rtt shown Hin.
    rewrite cycle_snd, Hr in Hin.
    apply in_app_or in Hin. destruct Hin as [Hin|Hin].
    + unfold on_failure in Hin.
      destruct (downtime_start _) in Hin; cbn [snd In] in Hin;
        destruct Hin as [Hin|[]]; discriminate.
    + destruct ((ping_count s + 1) mod 10 =? 0); [|destruct Hin].
      unfold print_stats in Hin. rewrite Hs, Hc in Hin.
      destruct Hin as [Hin|[]]. inversion Hin; reflexivity.
  - intros ev error s' t0 Hr Hd.
    rewrite cycle_downtime_start, cycle_current_downtime, Hr, Hd.
    split; reflexivity.
  - intros ev rtt s' t0 Hr Hd.
    rewrite cycle_downtime_start, cycle_current_downtime, Hr, Hd.
    split; reflexivity.
Qed.

Lemma current_downtime_lags_one_pass_witness :
  (downtime_start
     (fst (cycle (fail_at 20000000 "timeout")
             (fst (fst (loop default_config (firstn 2 scenario) InSleep
                             (startup default_config 0 init))))))
   = Some 20000000
   /\ current_downtime
        (fst (cycle (fail_at 20000000 "timeout")
                (fst (fst (loop default_config (firstn 2 scenario) InSleep
                                (startup default_config 0 init))))))
      = 0)
  /\ current_downtime
       (fst (cycle (fail_at 30000000 "timeout")
               (set_downtime_start (Some 20000000) init)))
     = 10000000.
Proof.
  pose proof (current_downtime_lags_one_pass default_config 0
                (firstn 2 scenario) InSleep) as (_ & Hopen & Hdown & _).
  split.
  - destruct (Hopen (fail_at 20000000 "timeout") "timeout" eq_refl eq_refl)
      as (H1 & H2 & _).
    split; [exact H1|exact H2].
  - exact (proj2 (Hdown (fail_at 30000000 "timeout") "timeout"
                    (set_downtime_start (Some 20000000) init) 20000000
                    eq_refl eq_refl)).
Defined.

(** ** The rates of the reports *)

Lemma breakdown_lines_show_no_rate (items : list (string * Z)) :
  success_rates_shown
    (map (fun item => Log "WARN" (MBreakdownItem (fst item) (snd item))) items)
  = []
  /\ loss_rates_shown
       (map (fun item => Log "WARN" (MBreakdownItem (fst item) (snd item)))
            items)
     = [].
Proof.
  induction items as [|item items [IH1 IH2]]; [split; reflexivity|].
  split; cbn; assumption.
Qed.

Lemma final_stats_rates now s :
  success_rates_shown (print_final_stats now s)
  = [if 0 <? ping_count s
     then (inject_Z (success_count s) / inject_Z (ping_count s) * 100)%Q
     else 0%Q]
  /\ loss_rates_shown (print_final_stats now s)
     = [if 0 <? ping_count s
        then (inject_Z (failure_count s) / inject_Z (ping_count s) * 100)%Q
        else 0%Q].
Proof.
  unfold print_final_stats, success_rates_shown, loss_rates_shown.
  rewrite !flat_map_app.
  pose proof (breakdown_lines_show_no_rate
                (failure_breakdown (recent_failures s))) as [B1 B2].
  unfold success_rates_shown, loss_rates_shown in B1, B2.
  destruct (rtt_summary (recent_pings s)) as [[[a b] c]|];
    destruct (0 <? failure_count s);
    destruct (recent_failures s);
    cbn [flat_map app]; rewrite ?flat_map_app, ?B1, ?B2;
    split; reflexivity.
Qed.

(** C5.  With [ping_count > 0] the periodic report shows the success rate
    [success_count / ping_count * 100] and the final report shows it and
    the loss rate [failure_count / ping_count * 100]; with
    [ping_count = 0] every rate shown is 0. *)
Theorem report_rates (s : CellularMonitor) (now : Z) :
  (0 < ping_count s ->
   success_rates_shown (print_stats s)
   = [(inject_Z (success_count s) / inject_Z (ping_count s) * 100)%Q] /\
   success_rates_shown (print_final_stats now s)
   = [(inject_Z (success_count s) / inject_Z (ping_count s) * 100)%Q] /\
   loss_rates_shown (print_final_stats now s)
   = [(inject_Z (failure_count s) / inject_Z (ping_count s) * 100)%Q])
  /\ (ping_count s = 0 ->
      success_rates_shown (print_stats s) = [0%Q] /\
      success_rates_shown (print_final_stats now s) = [0%Q] /\
      loss_rates_shown (print_final_stats now s) = [0%Q]).
Proof.
  destruct (final_stats_rates now s) as [F1 F2].
  split; intros H.
  - apply Z.ltb_lt in H. rewrite F1, F2.
    unfold print_stats; cbn [success_rates_shown flat_map app].
    rewrite H. repeat split.
  - assert (E : (0 <? ping_count s) = false) by (apply Z.ltb_ge; lia).
    rewrite F1, F2.
    unfold print_stats; cbn [success_rates_shown flat_map app].
    rewrite E. repeat split.
Qed.

Lemma report_rates_witness :
  (success_rates_shown (print_stats three_of_four)
   = [(inject_Z 3 / inject_Z 4 * 100)%Q] /\
   success_rates_shown (print_final_stats 9 three_of_four)
   = [(inject_Z 3 / inject_Z 4 * 100)%Q] /\
   loss_rates_shown (print_final_stats 9 three_of_four)
   = [(inject_Z 1 / inject_Z 4 * 100)%Q])
  /\ loss_rates_shown (print_final_stats 9 init) = [0%Q].
Proof.
  split.
  - apply (proj1 (report_rates three_of_four 9)). reflexivity.
  - apply (proj2 (report_rates init 9)). reflexivity.
Defined.

(** ** The end of the run *)

Lemma loop_stops_at_end_time cfg ev rest intr s e :
  end_time s = Some e -> e <= head_now ev ->
  loop cfg (ev :: rest) intr s
  = (s, [Log "INFO" MDurationExceeded], DurationExceeded).
Proof.
  intros He Hle. cbn [loop]. unfold duration_exceeded. rewrite He.
  destruct (Z.leb_spec e (head_now ev)); [reflexivity|lia].
Qed.


Lemma duration_exceeded_cycle ev s t :
  duration_exceeded (fst (cycle ev s)) t = duration_exceeded s t.
Proof. unfold duration_exceeded. rewrite cycle_end_time. reflexivity. Qed.



Lemma run_ping_count evs : forall s,
  ping_count (run evs s) = ping_count s + Z.of_nat (length evs).
Proof.
  induction evs as [|ev rest IH]; intros s.
  - cbn. lia.
  - unfold run in *; cbn [fold_left length].
    rewrite IH, cycle_ping_count. lia.
Qed.




(** ** The latency fallback of [ping_host] *)

Lemma first_rtt_none parse_float (lines : list string) :
  (forall line, In line lines -> Str.contains "time=" line = true ->
                parse_float (time_field line) = None) ->
  first_rtt parse_float lines = None.
Proof.
  induction lines as [|line rest IH]; intros H; cbn [first_rtt];
    [reflexivity|].
  destruct (Str.contains "time=" line) eqn:E.
  - rewrite (H line (or_introl eq_refl) E).
    apply IH. intros l Hl. apply H. right; exact Hl.
  - apply IH. intros l Hl. apply H. right; exact Hl.
Qed.

(** C7.  When the host is an address or resolves, the subprocess returns
    with status 0 and no line of its output holds a ['time='] field that
    [float] accepts, [ping_host] reports a success whose latency is the
    wall-clock time of the call in milliseconds. *)
Theorem ping_host_falls_back_to_elapsed
    (parse_float : string -> option Q) (strip : string -> string)
    (env : ping_input) (stdout stderr : string) :
  is_ip env = true \/ fst (resolution env) = true ->
  ping env = Completed 0 stdout stderr ->
  (forall line, In line (Str.split Str.newline stdout) ->
                Str.contains "time=" line = true ->
                parse_float (time_field line) = None) ->
  ping_host parse_float strip env
  = Success ((clock_after env - clock_before env) * 1000)%Q.
Proof.
  intros Hhost Hping Hnone. unfold ping_host.
  replace (negb (is_ip env) && negb (fst (resolution env))) with false
    by (destruct Hhost as [E|E]; rewrite E;
        destruct (is_ip env); reflexivity).
  rewrite Hping. cbn [Z.eqb].
  rewrite (first_rtt_none parse_float _ Hnone). reflexivity.
Qed.

Lemma ping_host_falls_back_to_elapsed_witness :
  ping_host sample_float sample_strip reply_without_time
  = Success ((Qmake 2000063 2000 - Qmake 1000 1) * 1000)%Q.
Proof.
  apply (ping_host_falls_back_to_elapsed sample_float sample_strip
           reply_without_time output_without_time "").
  - left; reflexivity.
  - reflexivity.
  - intros line Hin Hc. vm_compute in Hin.
    repeat (destruct Hin as [Hin|Hin];
            [subst line; first [reflexivity | discriminate Hc]|]).
    destruct Hin.
Defined.

(** A reply that carries its time is reported with that time. *)
Example ping_host_reads_time :
  ping_host sample_float sample_strip reply_with_time
  = Success (inject_Z 20 + Qmake 3 10)%Q.
Proof. reflexivity. Qed.

(** ** The failure breakdown *)

Lemma comes_before_cons {A} (a b y : A) (l : list A) :
  comes_before a b l -> comes_before a b (y :: l).
Proof. intros H; right; exact H. Qed.

Lemma comes_before_in {A} (a b : A) (l : list A) :
  comes_before a b l -> In a l /\ In b l.
Proof.
  induction l as [|y l IH]; cbn; [tauto|].
  intros [[E H]|H]; [subst; tauto|]. destruct (IH H); tauto.
Qed.

Lemma comes_before_snoc {A} (a b x : A) (l : list A) :
  comes_before a b (l ++ [x]) ->
  comes_before a b l \/ (b = x /\ In a l).
Proof.
  induction l as [|y l IH]; cbn [app comes_before].
  - intros [[_ []]|[]].
  - intros [[E H]|H].
    + apply in_app_or in H. destruct H as [H|[H|[]]].
      * left; left; split; assumption.
      * right; split; [symmetry; exact H|left; exact E].
    + destruct (IH H) as [H'|[E H']].
      * left; right; exact H'.
      * right; split; [exact E|right; exact H'].
Qed.

Lemma comes_before_map {A B} (f : A -> B) (a b : A) (l : list A) :
  comes_before a b l -> comes_before (f a) (f b) (map f l).
Proof.
  induction l as [|y l IH]; cbn [map comes_before]; [tauto|].
  intros [[E H]|H].
  - left; split; [f_equal; exact E|apply in_map; exact H].
  - right; apply IH; exact H.
Qed.

Lemma first_index_lt r w : In r w -> (first_index r w < length w)%nat.
Proof.
  induction w as [|x w IH]; cbn [first_index length In]; [tauto|].
  intros H. destruct (String.eqb_spec x r); [lia|].
  destruct H as [H|H]; [contradiction|]. specialize (IH H). lia.
Qed.

Lemma first_index_app_in r w x :
  In r w -> first_index r (w ++ [x]) = first_index r w.
Proof.
  induction w as [|y w IH]; cbn [first_index app In]; [tauto|].
  intros H. destruct (String.eqb_spec y r); [reflexivity|].
  destruct H as [H|H]; [contradiction|]. rewrite IH by exact H. reflexivity.
Qed.

Lemma first_index_app_new w x :
  ~ In x w -> first_index x (w ++ [x]) = length w.
Proof.
  induction w as [|y w IH]; cbn [first_index app In length]; intros H.
  - rewrite String.eqb_refl. reflexivity.
  - destruct (String.eqb_spec y x); [tauto|]. rewrite IH by tauto.
    reflexivity.
Qed.

Lemma count_in_snoc r w x :
  count_in r (w ++ [x]) = count_in r w + (if string_dec x r then 1 else 0).
Proof.
  unfold count_in. rewrite count_occ_app. cbn [count_occ].
  destruct (string_dec x r); lia.
Qed.

Lemma count_in_pos r w : In r w <-> 0 < count_in r w.
Proof.
  unfold count_in. rewrite (count_occ_In string_dec). lia.
Qed.

(** *** The dictionary *)

Lemma dict_get_absent k default d :
  ~ In k (map fst d) -> Dict.get k default d = default.
Proof.
  induction d as [|[k' v] d IH]; cbn [Dict.get map fst In]; [reflexivity|].
  intros H. destruct (String.eqb_spec k' k); [tauto|]. apply IH; tauto.
Qed.

Lemma dict_get_present k v default d :
  NoDup (map fst d) -> In (k, v) d -> Dict.get k default d = v.
Proof.
  induction d as [|[k' v'] d IH]; cbn [Dict.get map fst In]; [tauto|].
  intros Hnd [H|H].
  - inversion H; subst. rewrite String.eqb_refl. reflexivity.
  - inversion Hnd as [|? ? Hk Hnd']; subst.
    destruct (String.eqb_spec k' k) as [E|E].
    + subst. exfalso. apply Hk. apply (in_map fst) in H. exact H.
    + apply IH; assumption.
Qed.

Lemma dict_set_keys_present k v d :
  In k (map fst d) -> map fst (Dict.set k v d) = map fst d.
Proof.
  induction d as [|[k' v'] d IH]; cbn [Dict.set map fst In]; [tauto|].
  intros H. destruct (String.eqb_spec k' k); [reflexivity|].
  cbn [map fst]. rewrite IH; [reflexivity|tauto].
Qed.

Lemma dict_set_keys_absent k v d :
  ~ In k (map fst d) -> map fst (Dict.set k v d) = map fst d ++ [k].
Proof.
  induction d as [|[k' v'] d IH]; cbn [Dict.set map fst In app];
    [reflexivity|].
  intros H. destruct (String.eqb_spec k' k); [tauto|].
  cbn [map fst]. rewrite IH; [reflexivity|tauto].
Qed.

Lemma dict_set_items k v d r c :
  NoDup (map fst d) ->
  In (r, c) (Dict.set k v d) <->
  (r = k /\ c = v) \/ (r <> k /\ In (r, c) d).
Proof.
  induction d as [|[k' v'] d IH]; cbn [Dict.set map fst In]; intros Hnd.
  - split.
    + intros [H|[]]. inversion H; subst. left; split; reflexivity.
    + intros [[E1 E2]|[_ []]]. subst. left; reflexivity.
  - inversion Hnd as [|? ? Hk Hnd']; subst.
    destruct (String.eqb_spec k' k) as [E|E]; cbn [In].
    + subst k'. split.
      * intros [H|H].
        -- inversion H; subst. left; split; reflexivity.
        -- right. split; [|right; exact H].
           intros ->. apply Hk. apply (in_map fst) in H. exact H.
      * intros [[E1 E2]|[Hne [H|H]]].
        -- subst. left; reflexivity.
        -- inversion H; subst. contradiction.
        -- right; exact H.
    + rewrite (IH Hnd'). split.
      * intros [H|[H|[Hne H]]].
        -- inversion H; subst. right. split; [exact E|left; reflexivity].
        -- left; exact H.
        -- right. split; [exact Hne|right; exact H].
      * intros [H|[Hne [H|H]]].
        -- right; left; exact H.
        -- left; exact H.
        -- right; right. split; assumption.
Qed.

(** One turn of the counting loop. *)
Lemma counts_of_step p d x :
  counts_of p d ->
  counts_of (p ++ [x]) (Dict.set x (Dict.get x 0 d + 1) d).
Proof.
  intros (Hnd & Hitems & Horder).
  assert (Hkeys : forall r, In r (map fst d) <-> In r p).
  { intros r. split.
    - intros H. apply in_map_iff in H. destruct H as ([r' c] & E & H).
      cbn in E; subst r'. apply Hitems in H. tauto.
    - intros H. apply (in_map fst) with (x := (r, count_in r p)).
      apply Hitems. tauto. }
  destruct (in_dec string_dec x p) as [Hin|Hout].
  - (* a reason already counted *)
    assert (Hget : Dict.get x 0 d = count_in x p).
    { apply dict_get_present; [exact Hnd|]. apply Hitems. tauto. }
    rewrite Hget.
    split; [|split].
    + rewrite dict_set_keys_present by (apply Hkeys; exact Hin). exact Hnd.
    + intros r c. rewrite dict_set_items by exact Hnd.
      rewrite Hitems, in_app_iff, count_in_snoc. cbn [In].
      destruct (string_dec x r) as [E|E].
      * subst r. split.
        -- intros [[_ H]|[H _]]; [|contradiction]. tauto.
        -- intros [_ H]. left. tauto.
      * split.
        -- intros [[H _]|[_ [H1 H2]]]; [congruence|].
           split; [tauto|lia].
        -- intros [[H|[H|[]]] H2]; [|congruence].
           right. split; [congruence|]. split; [exact H|lia].
    + rewrite dict_set_keys_present by (apply Hkeys; exact Hin).
      intros a b Hab.
      destruct (comes_before_in _ _ _ Hab) as [Ha Hb].
      apply Hkeys in Ha. apply Hkeys in Hb.
      rewrite !first_index_app_in by assumption.
      apply Horder; exact Hab.
  - (* a new reason *)
    assert (Hget : Dict.get x 0 d = 0).
    { apply dict_get_absent. rewrite Hkeys. exact Hout. }
    rewrite Hget.
    assert (Hzero : count_in x p = 0).
    { destruct (Z.eq_dec (count_in x p) 0) as [E|E]; [exact E|].
      exfalso. apply Hout. apply count_in_pos.
      unfold count_in in *. lia. }
    split; [|split].
    + rewrite dict_set_keys_absent by (rewrite Hkeys; exact Hout).
      apply NoDup_app; [exact Hnd|repeat constructor; intros []|].
      intros r Hr [E|[]]. subst r. apply Hout. apply Hkeys. exact Hr.
    + intros r c. rewrite dict_set_items by exact Hnd.
      rewrite Hitems, in_app_iff, count_in_snoc. cbn [In].
      destruct (string_dec x r) as [E|E].
      * subst r. rewrite Hzero. split.
        -- intros [[_ H]|[H _]]; [|contradiction]. split; [tauto|lia].
        -- intros [_ H]. left. split; [reflexivity|lia].
      * split.
        -- intros [[H _]|[_ [H1 H2]]]; [congruence|].
           split; [tauto|lia].
        -- intros [[H|[H|[]]] H2]; [|congruence].
           right. split; [congruence|]. split; [exact H|lia].
    + rewrite dict_set_keys_absent by (rewrite Hkeys; exact Hout).
      intros a b Hab. apply comes_before_snoc in Hab.
      destruct Hab as [Hab|[E Ha]].
      * destruct (comes_before_in _ _ _ Hab) as [Ha Hb].
        apply Hkeys in Ha. apply Hkeys in Hb.
        rewrite !first_index_app_in by assumption.
        apply Horder; exact Hab.
      * subst b. apply Hkeys in Ha.
        rewrite first_index_app_in by exact Ha.
        rewrite first_index_app_new by exact Hout.
        apply first_index_lt; exact Ha.
Qed.

Lemma counts_of_loop rest : forall p d,
  counts_of p d -> counts_of (p ++ rest) (count_failures rest d).
Proof.
  unfold count_failures.
  induction rest as [|x rest IH]; intros p d H; cbn [fold_left].
  - rewrite app_nil_r. exact H.
  - replace (p ++ x :: rest) with ((p ++ [x]) ++ rest)
      by (rewrite <- app_assoc; reflexivity).
    apply IH. apply counts_of_step. exact H.
Qed.

Lemma counts_of_failures w : counts_of w (count_failures w []).
Proof.
  apply (counts_of_loop w [] []).
  split; [constructor|]. split.
  - intros r c. cbn. tauto.
  - intros a b [].
Qed.

(** *** The sort *)

Lemma insert_desc_perm x l : Permutation (insert_desc x l) (x :: l).
Proof.
  induction l as [|y l IH]; cbn [insert_desc]; [reflexivity|].
  destruct (snd x <? snd y); [|reflexivity].
  rewrite IH. apply perm_swap.
Qed.

Lemma sorted_by_count_desc_perm l : Permutation (sorted_by_count_desc l) l.
Proof.
  unfold sorted_by_count_desc.
  induction l as [|x l IH]; cbn [fold_right]; [reflexivity|].
  rewrite insert_desc_perm. constructor. exact IH.
Qed.

Lemma insert_desc_sorted x l :
  StronglySorted (fun a b => snd b <= snd a) l ->
  StronglySorted (fun a b => snd b <= snd a) (insert_desc x l).
Proof.
  induction l as [|y l IH]; cbn [insert_desc]; intros H.
  - repeat constructor.
  - apply StronglySorted_inv in H. destruct H as [Hl Hy].
    destruct (Z.ltb_spec (snd x) (snd y)).
    + constructor; [apply IH; exact Hl|].
      apply Forall_forall. intros z Hz.
      apply (Permutation_in _ (insert_desc_perm x l)) in Hz.
      destruct Hz as [E|Hz]; [subst z; lia|].
      rewrite Forall_forall in Hy. apply Hy. exact Hz.
    + constructor; [constructor; assumption|].
      constructor; [lia|].
      eapply Forall_impl; [|exact Hy]. cbn. intros; lia.
Qed.

Lemma sorted_by_count_desc_sorted l :
  StronglySorted (fun a b => snd b <= snd a) (sorted_by_count_desc l).
Proof.
  unfold sorted_by_count_desc.
  induction l as [|x l IH]; cbn [fold_right]; [constructor|].
  apply insert_desc_sorted. exact IH.
Qed.

(** Items of equal count keep the order they had. *)
Lemma insert_desc_stable x l a b :
  comes_before a b (insert_desc x l) -> snd a = snd b ->
  (x = a /\ In b l) \/ comes_before a b l.
Proof.
  induction l as [|y l IH]; cbn [insert_desc].
  - cbn. intros [[_ []]|[]].
  - destruct (Z.ltb_spec (snd x) (snd y)) as [Hlt|Hge];
      [|cbn [comes_before]; tauto].
    cbn [comes_before]. intros [[E Hin]|H] Heq.
    + subst y.
      apply (Permutation_in _ (insert_desc_perm x l)) in Hin.
      destruct Hin as [E|Hin]; [subst b; lia|].
      right; left; split; [reflexivity|exact Hin].
    + destruct (IH H Heq) as [[E Hin]|H'].
      * left; split; [exact E|right; exact Hin].
      * right; right; exact H'.
Qed.

Lemma sorted_by_count_desc_stable l a b :
  comes_before a b (sorted_by_count_desc l) -> snd a = snd b ->
  comes_before a b l.
Proof.
  unfold sorted_by_count_desc.
  induction l as [|x l IH]; cbn [fold_right]; [tauto|].
  intros H Heq. apply insert_desc_stable in H; [|exact Heq].
  destruct H as [[E Hin]|H].
  - left. split; [exact E|].
    apply (Permutation_in _ (sorted_by_count_desc_perm l)). exact Hin.
  - right. apply IH; assumption.
Qed.

(** *** The buffer the breakdown reads *)

Lemma run_recent_failures evs : forall s pre,
  recent_failures s = Deque.lastn maxlen pre ->
  recent_failures (run evs s)
  = Deque.lastn maxlen (pre ++ failures_of evs).
Proof.
  induction evs as [|ev rest IH]; intros s pre H.
  - cbn. rewrite app_nil_r. exact H.
  - unfold run in *; cbn [fold_left].
    unfold failures_of in *; cbn [flat_map].
    rewrite app_assoc. apply IH.
    rewrite cycle_recent_failures.
    destruct (result ev).
    + rewrite app_nil_r. exact H.
    + rewrite H. apply append_lastn. apply maxlen_pos.
Qed.

(** The failure buffer the loop ends with. *)
Lemma loop_recent_failures cfg start evs intr :
  let s0 := startup cfg start init in
  recent_failures (fst (fst (loop cfg evs intr s0)))
  = Deque.lastn maxlen
      (failures_of (completed cfg evs s0)
       ++ cut_failures (cut_pass cfg evs intr s0)).
Proof.
  cbv zeta. rewrite loop_state.
  destruct (after_cut_fields (cut_pass cfg evs intr (startup cfg start init))
              (run (completed cfg evs (startup cfg start init))
                   (startup cfg start init)))
    as (_ & _ & _ & _ & _ & _ & _ & _ & _ & _ & Cf).
  rewrite Cf.
  rewrite (run_recent_failures _ _ []).
  - cbn [app].
    destruct (cut_pass cfg evs intr (startup cfg start init)) as [[|error]|];
      cbn [cut_failures fold_left]; rewrite ?app_nil_r; try reflexivity.
    apply append_lastn. apply maxlen_pos.
  - destruct (startup_fields cfg start init)
      as (_ & _ & _ & _ & _ & _ & _ & _ & E & _).
    rewrite E. reflexivity.
Qed.

Lemma breakdown_lines_shown (items : list (string * Z)) :
  breakdown_shown
    (map (fun item => Log "WARN" (MBreakdownItem (fst item) (snd item))) items)
  = items.
Proof.
  induction items as [|[r c] items IH]; [reflexivity|].
  unfold breakdown_shown in *. cbn [map flat_map fst snd app].
  rewrite IH. reflexivity.
Qed.

Lemma final_stats_breakdown now s :
  0 < failure_count s -> recent_failures s <> [] ->
  In (Log "WARN" MBreakdownHeader) (print_final_stats now s)
  /\ breakdown_shown (print_final_stats now s)
     = failure_breakdown (recent_failures s).
Proof.
  intros Hf Hne. apply Z.ltb_lt in Hf.
  unfold print_final_stats. rewrite Hf.
  destruct (recent_failures s) as [|e w] eqn:E; [congruence|].
  split.
  - apply in_or_app; right. apply in_or_app; right.
    apply in_or_app; left. apply in_or_app; right. left; reflexivity.
  - unfold breakdown_shown. rewrite !flat_map_app.
    destruct (rtt_summary (recent_pings s)) as [[[a b] c]|];
      cbn [flat_map app]; rewrite app_nil_r;
      apply breakdown_lines_shown.
Qed.

(** C6, as the code has it.  When at least one probe failed, the final
    report prints "Failure breakdown:" and, under it, the reasons held by
    the rolling failure buffer, which are the last 100 failure reasons of
    the run (all of them when the run had at most 100; the reason of a
    failed probe whose pass the interrupt cut is one of them): every
    distinct one once, with its number of occurrences among them, by
    decreasing number, reasons of equal number in the order of their first
    occurrence among them. *)
Theorem failure_breakdown_of_recent_failures (cfg : Config) (start : Z)
    (diagnostics : diagnostics_input) (evs : list cycle_input)
    (intr : interrupt) (final_now : Z) :
  let s0 := startup cfg start init in
  let s := fst (monitor cfg start diagnostics evs intr final_now init) in
  let report := print_final_stats final_now s in
  let reasons :=
    failures_of (completed cfg evs s0)
    ++ cut_failures (cut_pass cfg evs intr s0) in
  let recent := Deque.lastn 100 reasons in
  let shown := breakdown_shown report in
  0 < failure_count s ->
  In (Log "WARN" MBreakdownHeader) report
  /\ ((length reasons <= 100)%nat -> recent = reasons)
  /\ NoDup (map fst shown)
  /\ (forall r c, In (r, c) shown <-> In r recent /\ c = count_in r recent)
  /\ StronglySorted (fun a b => snd b <= snd a) shown
  /\ (forall a b,
        comes_before a b shown -> snd a = snd b ->
        (first_index (fst a) recent < first_index (fst b) recent)%nat).
Proof.
  cbv zeta. intros Hf.
  set (s := fst (monitor cfg start diagnostics evs intr final_now init)) in *.
  assert (Hw : recent_failures s
               = Deque.lastn 100
                   (failures_of (completed cfg evs (startup cfg start init))
                    ++ cut_failures
                         (cut_pass cfg evs intr (startup cfg start init)))).
  { unfold s. rewrite monitor_state. apply loop_recent_failures. }
  assert (Hne : recent_failures s <> []).
  { assert (Ht : buffers_track_counts s).
    { unfold s. apply (monitor_invariant buffers_track_counts).
      - unfold buffers_track_counts, startup.
        destruct (duration cfg =? 0); split; reflexivity.
      - apply buffers_track_counts_cycle.
      - apply buffers_track_counts_begin_pass. }
    destruct Ht as [_ Ht]. intros E. rewrite E in Ht. cbn in Ht. lia. }
  destruct (final_stats_breakdown final_now s Hf Hne) as [Hhead Hshown].
  rewrite Hshown, Hw.
  set (recent := Deque.lastn 100 _).
  destruct (counts_of_failures recent) as (Hnd & Hitems & Horder).
  pose proof (sorted_by_count_desc_perm (count_failures recent [])) as Hperm.
  unfold failure_breakdown.
  split; [exact Hhead|]. split; [|split; [|split; [|split]]].
  - intros Hlen. unfold recent, Deque.lastn.
    replace (length _ - 100)%nat with 0%nat by lia. reflexivity.
  - apply (Permutation_NoDup (l := map fst (count_failures recent [])));
      [|exact Hnd].
    apply Permutation_map. symmetry. exact Hperm.
  - intros r c. rewrite <- Hitems. split; intros H.
    + apply (Permutation_in _ Hperm). exact H.
    + apply (Permutation_in _ (Permutation_sym Hperm)). exact H.
  - apply sorted_by_count_desc_sorted.
  - intros a b Hab Heq. apply Horder.
    apply comes_before_map.
    apply sorted_by_count_desc_stable; assumption.
Qed.

Lemma failure_breakdown_of_recent_failures_witness :
  breakdown_shown
    (print_final_stats 50000000
       (fst (monitor default_config 0 all_checks_pass scenario InSleep
                     50000000 init)))
  = [("timeout", 2)]
  /\ In ("timeout", 2)
        (breakdown_shown
           (print_final_stats 50000000
              (fst (monitor default_config 0 all_checks_pass scenario
                            InSleep 50000000 init)))).
Proof.
  split; [vm_compute; reflexivity|].
  assert (Hf : 0 < failure_count
                     (fst (monitor default_config 0 all_checks_pass scenario
                                   InSleep 50000000 init)))
    by (vm_compute; reflexivity).
  apply (proj1 (proj2 (proj2 (proj2
           (failure_breakdown_of_recent_failures default_config 0
              all_checks_pass scenario InSleep 50000000 Hf))))).
  vm_compute. split; [left; reflexivity|reflexivity].
Defined.

(** C6, on the whole run, fails: after one probe that found the network
    unreachable and 101 timeouts the breakdown is the single item
    [("Ping timeout", 100)]; the first failure is not listed and the
    timeouts are one short. *)
Lemma breakdown_forgets_old_failures :
  ~ breakdown_covers_run long_outage 2000000000.
Proof.
  unfold breakdown_covers_run. cbv zeta. intros H.
  assert (Hf : 0 < failure_count
                     (fst (monitor default_config 0 all_checks_pass
                                   long_outage InSleep 2000000000 init)))
    by (vm_compute; reflexivity).
  specialize (H Hf "Ping timeout").
  assert (Hin : In "Ping timeout"
                  (failures_of
                     (completed default_config long_outage
                        (startup default_config 0 init))))
    by (vm_compute; right; left; reflexivity).
  specialize (H Hin). vm_compute in H.
  destruct H as [H|[]]. discriminate H.
Qed.

(** ** The scenarios of the specification *)

(** Two successes, two failures, one success: one closed episode spanning
    the two failures, three latencies and two reasons in the buffers. *)
Example scenario_run :
  let s := run scenario init in
  success_count s = 3 /\ failure_count s = 2 /\ ping_count s = 5
  /\ recent_pings s = [20 # 1; 22 # 1; 25 # 1]%Q
  /\ recent_failures s = ["timeout"; "timeout"]
  /\ closed_episodes None scenario
     = [{| episode_start := 20000000; recovery_time := 40000000 |}]
  /\ downtime_duration s = 20000000 /\ max_downtime s = 20000000
  /\ downtime_start s = None /\ current_downtime s = 0.
Proof. vm_compute. repeat split. Qed.

(** 100 failures, then 5 successes: one episode over the whole outage. *)
Example outage_then_recovery_run :
  let s := run outage_then_recovery init in
  recent_pings s = repeat (20 # 1)%Q 5
  /\ recent_failures s = repeat "timeout" 100
  /\ failure_count s = 100
  /\ downtime_duration s = 1000000000 /\ max_downtime s = 1000000000.
Proof. vm_compute. repeat split. Qed.

(** The wall clock set back during an episode: the duration of the episode
    is negative, it is added to the cumulative downtime, and the maximum
    keeps its value. *)
Example clock_set_back_run :
  let s := run clock_set_back init in
  closed_durations None clock_set_back = [-3590000000]
  /\ downtime_duration s = -3590000000 /\ max_downtime s = 0.
Proof. vm_compute. repeat split. Qed.

(** * Further properties of the loop and its reports *)

(** ** The lines of one pass *)

Lemma cycle_output ev s :
  snd (cycle ev s)
  = branch_lines ev s
    ++ (if (ping_count s + 1) mod 10 =? 0
        then print_stats (fst (cycle ev s)) else []).
Proof.
  rewrite cycle_snd. f_equal. unfold branch_lines.
  destruct s as [? ? ? ? ? [?|] ? ? ? ? ?]; destruct (result ev);
    proj_simpl;
    repeat match goal with
           | |- context [?a <? ?b] => destruct (Z.ltb_spec a b); proj_simpl
           end; reflexivity.
Qed.

Lemma count_lines_app p out1 out2 :
  count_lines p (out1 ++ out2) = (count_lines p out1 + count_lines p out2)%nat.
Proof. unfold count_lines. rewrite filter_app, length_app. reflexivity. Qed.

Lemma recoveries_shown_app out1 out2 :
  recoveries_shown (out1 ++ out2)
  = recoveries_shown out1 ++ recoveries_shown out2.
Proof. unfold recoveries_shown. apply flat_map_app. Qed.

Lemma count_lines_none p out :
  (forall m, is_pass_line m = false -> p m = false) ->
  no_pass_line out -> count_lines p out = 0%nat.
Proof.
  intros Hp H. unfold count_lines.
  induction H as [|o out Ho _ IH]; [reflexivity|].
  cbn [filter]. destruct o as [lvl m|text]; [|exact IH].
  rewrite (Hp m Ho). exact IH.
Qed.

Lemma recoveries_shown_none out :
  no_pass_line out -> recoveries_shown out = [].
Proof.
  intros H. unfold recoveries_shown.
  induction H as [|o out Ho _ IH]; [reflexivity|].
  cbn [flat_map]. rewrite IH.
  destruct o as [lvl m|text]; [|reflexivity].
  destruct m; try reflexivity. discriminate Ho.
Qed.

Lemma no_pass_line_app out1 out2 :
  no_pass_line out1 -> no_pass_line out2 -> no_pass_line (out1 ++ out2).
Proof. unfold no_pass_line. intros; apply Forall_app; split; assumption. Qed.

(** The banner, the diagnostics and the final report hold no line of a
    pass. *)
Lemma run_diagnostics_no_pass_line d : no_pass_line (run_diagnostics d).
Proof.
  destruct d as [[? ?] [? ?] [? ?] [? ?] [? ?]].
  unfold run_diagnostics, no_pass_line. cbn.
  repeat constructor.
Qed.

Lemma print_final_stats_no_pass_line now s :
  no_pass_line (print_final_stats now s).
Proof.
  unfold print_final_stats.
  repeat apply no_pass_line_app.
  - repeat constructor.
  - destruct (rtt_summary (recent_pings s)) as [[[a b] c]|];
      repeat constructor.
  - destruct (0 <? failure_count s); [|constructor].
    apply no_pass_line_app; [repeat constructor|].
    destruct (recent_failures s); [constructor|].
    constructor; [reflexivity|].
    unfold no_pass_line. apply Forall_map. apply Forall_forall.
    intros item _. reflexivity.
  - repeat constructor.
Qed.

(** The lines of [monitor]: the banner and the diagnostics, the lines of
    the loop, "Interrupted by user" after an interrupt, the final report. *)
Lemma monitor_output cfg start diagnostics evs intr final_now :
  exists banner closing,
    snd (monitor cfg start diagnostics evs intr final_now init)
    = banner ++ snd (fst (loop cfg evs intr (startup cfg start init)))
             ++ closing
    /\ no_pass_line banner /\ no_pass_line closing.
Proof.
  unfold monitor.
  destruct (loop cfg evs intr (startup cfg start init)) as [[s out] why].
  cbn [fst snd].
  exists (banner_lines cfg diagnostics).
  exists (interrupt_lines why ++ print_final_stats final_now s).
  split; [|split].
  - unfold banner_lines. f_equal.
    destruct why; cbn [interrupt_lines app]; rewrite <- ?app_assoc;
      reflexivity.
  - unfold banner_lines. repeat apply no_pass_line_app.
    + destruct (duration cfg =? 0); repeat constructor.
    + apply run_diagnostics_no_pass_line.
    + repeat constructor.
  - apply no_pass_line_app; [destruct why; repeat constructor|].
    apply print_final_stats_no_pass_line.
Qed.

(** ** The lines of the loop *)

Lemma loop_cons cfg ev rest intr s :
  duration_exceeded s (head_now ev) = false ->
  (interval cfg <? 0) = false ->
  snd (fst (loop cfg (ev :: rest) intr s))
  = snd (cycle ev s) ++ snd (fst (loop cfg rest intr (fst (cycle ev s)))).
Proof.
  intros H Hi. cbn [loop]. rewrite H.
  destruct (cycle ev s) as [s1 out1]; cbn [fst snd]. rewrite Hi.
  destruct (loop cfg rest intr s1) as [[s2 out2] why]; reflexivity.
Qed.

(** With a negative interval the first pass is the last. *)
Lemma loop_cons_sleep cfg ev rest intr s :
  duration_exceeded s (head_now ev) = false ->
  (interval cfg <? 0) = true ->
  loop cfg (ev :: rest) intr s
  = (fst (cycle ev s), snd (cycle ev s), SleepRaised).
Proof.
  intros H Hi. cbn [loop]. rewrite H.
  destruct (cycle ev s) as [s1 out1]; cbn [fst snd]. rewrite Hi.
  reflexivity.
Qed.

(** The pass the interrupt cuts prints at most the line of its duration
    check. *)
Lemma loop_nil_no_pass_line cfg intr s :
  no_pass_line (snd (fst (loop cfg [] intr s))).
Proof.
  cbn [loop]. destruct intr as [|now point]; [constructor|].
  destruct (duration_exceeded s now); repeat constructor.
Qed.

Lemma stats_step n :
  (n + 1) / 10 - n / 10 = if (n + 1) mod 10 =? 0 then 1 else 0.
Proof.
  destruct (Z.eqb_spec ((n + 1) mod 10) 0) as [E|E];
    Z.div_mod_to_equations; lia.
Qed.

Lemma lines_of_passes_none out s :
  no_pass_line out -> lines_of_passes out [] s.
Proof.
  intros H. unfold lines_of_passes.
  rewrite (count_lines_none is_ping_ok out),
          (count_lines_none is_ping_loss out),
          (count_lines_none is_still_down out),
          (count_lines_none is_stats out),
          (recoveries_shown_none out); try assumption;
    try (intros m; destruct m; cbn; congruence).
  cbn. rewrite Z.add_0_r. repeat split; lia.
Qed.

Lemma lines_of_passes_cons ev s out ran :
  lines_of_passes out ran (fst (cycle ev s)) ->
  lines_of_passes (snd (cycle ev s) ++ out) (ev :: ran) s.
Proof.
  unfold lines_of_passes. intros (H1 & H2 & H3 & H4 & H5).
  rewrite !count_lines_app, recoveries_shown_app, H3.
  rewrite cycle_ping_count in H5.
  rewrite cycle_downtime_start in *.
  set (c_ok := count_lines is_ping_ok out) in *.
  set (c_loss := count_lines is_ping_loss out) in *.
  set (c_still := count_lines is_still_down out) in *.
  set (c_stats := count_lines is_stats out) in *.
  rewrite cycle_output, !count_lines_app, recoveries_shown_app.
  unfold latencies_of, failures_of, closed_durations in *.
  cbn [flat_map closed_episodes open_episode length].
  rewrite !length_app.
  pose proof (stats_step (ping_count s)) as Hs.
  replace (ping_count s + Z.of_nat (S (length ran)))
    with (ping_count s + 1 + Z.of_nat (length ran)) by lia.
  unfold branch_lines, print_stats.
  destruct (result ev); destruct (downtime_start s);
    destruct ((ping_count s + 1) mod 10 =? 0);
    cbn [count_lines filter is_ping_ok is_ping_loss is_still_down
         is_stats length app recoveries_shown flat_map map
         episode_duration recovery_time episode_start open_count] in *;
    repeat split; try lia; rewrite ?app_nil_r; reflexivity.
Qed.

(** The lines of the loop are those of the passes that ran to their end. *)
Lemma loop_lines cfg evs intr : forall s,
  lines_of_passes (snd (fst (loop cfg evs intr s))) (completed cfg evs s) s.
Proof.
  induction evs as [|ev rest IH]; intros s.
  - apply lines_of_passes_none. apply loop_nil_no_pass_line.
  - cbn [completed].
    destruct (duration_exceeded s (head_now ev)) eqn:E.
    + cbn [loop]. rewrite E. apply lines_of_passes_none.
      repeat constructor.
    + destruct (interval cfg <? 0) eqn:Ei.
      * rewrite loop_cons_sleep by assumption. cbn [fst snd].
        rewrite <- (app_nil_r (snd (cycle ev s))).
        apply lines_of_passes_cons, lines_of_passes_none. constructor.
      * rewrite loop_cons by assumption.
        apply lines_of_passes_cons, IH.
Qed.

Lemma run_counts evs : forall s,
  success_count (run evs s)
  = success_count s + Z.of_nat (length (latencies_of evs))
  /\ failure_count (run evs s)
     = failure_count s + Z.of_nat (length (failures_of evs)).
Proof.
  induction evs as [|ev rest IH]; intros s.
  - cbn. lia.
  - unfold run in *; cbn [fold_left].
    destruct (IH (fst (cycle ev s))) as [H1 H2]. rewrite H1, H2.
    rewrite cycle_success_count, cycle_failure_count.
    unfold latencies_of, failures_of; cbn [flat_map].
    rewrite !length_app.
    destruct (result ev); cbn [length]; lia.
Qed.

Lemma run_recent_pings evs : forall s pre,
  recent_pings s = Deque.lastn maxlen pre ->
  recent_pings (run evs s) = Deque.lastn maxlen (pre ++ latencies_of evs).
Proof.
  induction evs as [|ev rest IH]; intros s pre H.
  - cbn. rewrite app_nil_r. exact H.
  - unfold run in *; cbn [fold_left].
    unfold latencies_of in *; cbn [flat_map].
    rewrite app_assoc. apply IH.
    rewrite cycle_recent_pings.
    destruct (result ev).
    + rewrite H. apply append_lastn. apply maxlen_pos.
    + rewrite app_nil_r. exact H.
Qed.

(** The lines of the passes in the output of [monitor]. *)
Lemma monitor_pass_lines cfg start diagnostics evs intr final_now
    (p : message -> bool) :
  (forall m, is_pass_line m = false -> p m = false) ->
  count_lines p (snd (monitor cfg start diagnostics evs intr final_now init))
  = count_lines p (snd (fst (loop cfg evs intr (startup cfg start init)))).
Proof.
  intros Hp.
  destruct (monitor_output cfg start diagnostics evs intr final_now)
    as (banner & closing & E & Hb & Hc).
  rewrite E, !count_lines_app.
  rewrite (count_lines_none p banner), (count_lines_none p closing);
    try assumption.
  lia.
Qed.

(** The counters the run ends with. *)
Lemma monitor_counts cfg start diagnostics evs intr final_now :
  let s0 := startup cfg start init in
  let s := fst (monitor cfg start diagnostics evs intr final_now init) in
  let ran := completed cfg evs s0 in
  let cut := cut_pass cfg evs intr s0 in
  ping_count s = Z.of_nat (length ran) + probes_begun cut
  /\ success_count s = Z.of_nat (length (latencies_of ran))
  /\ failure_count s
     = Z.of_nat (length (failures_of ran))
       + Z.of_nat (length (cut_failures cut)).
Proof.
  cbv zeta. rewrite monitor_state, loop_state.
  destruct (after_cut_fields (cut_pass cfg evs intr (startup cfg start init))
              (run (completed cfg evs (startup cfg start init))
                   (startup cfg start init)))
    as (_ & _ & Cp & Cs & Cf & _).
  rewrite Cp, Cs, Cf, run_ping_count.
  destruct (run_counts (completed cfg evs (startup cfg start init))
                       (startup cfg start init)) as [R1 R2].
  rewrite R1, R2.
  destruct (startup_fields cfg start init) as (E0 & E1 & E2 & _).
  rewrite E0, E1, E2. cbn [init ping_count success_count failure_count].
  repeat split; lia.
Qed.

(** X1.  In the output of [monitor] the periodic statistics appear once
    per ten passes that ran to their end.  Their number is that of these
    passes divided by 10; it is [ping_count / 10] unless the interrupt cut
    the pass whose number is a multiple of ten, which [ping_count] counts
    and which printed no statistics. *)
Theorem statistics_every_ten_passes (cfg : Config) (start : Z)
    (diagnostics : diagnostics_input) (evs : list cycle_input)
    (intr : interrupt) (final_now : Z) :
  let s0 := startup cfg start init in
  let s := fst (monitor cfg start diagnostics evs intr final_now init) in
  let out := snd (monitor cfg start diagnostics evs intr final_now init) in
  let cut := cut_pass cfg evs intr s0 in
  Z.of_nat (count_lines is_stats out)
  = Z.of_nat (length (completed cfg evs s0)) / 10
  /\ Z.of_nat (count_lines is_stats out)
     = (ping_count s - probes_begun cut) / 10
  /\ (cut = None \/ ping_count s mod 10 <> 0 ->
      Z.of_nat (count_lines is_stats out) = ping_count s / 10)
  /\ (cut <> None -> ping_count s mod 10 = 0 ->
      Z.of_nat (count_lines is_stats out) = ping_count s / 10 - 1).
Proof.
  cbv zeta.
  rewrite monitor_pass_lines by (intros m; destruct m; cbn; congruence).
  destruct (loop_lines cfg evs intr (startup cfg start init))
    as (_ & _ & _ & _ & H).
  destruct (monitor_counts cfg start diagnostics evs intr final_now)
    as (Hp & _).
  cbv zeta in Hp.
  destruct (startup_fields cfg start init) as (E0 & _). rewrite E0 in H.
  cbn [init ping_count] in H. rewrite Z.sub_0_r, Z.add_0_l in H.
  rewrite H, Hp.
  set (n := Z.of_nat (length (completed cfg evs (startup cfg start init)))).
  split; [reflexivity|].
  split; [f_equal; lia|].
  destruct (cut_pass cfg evs intr (startup cfg start init)) as [point|];
    cbn [probes_begun].
  - split.
    + intros [H0|H0]; [discriminate|].
      Z.div_mod_to_equations; lia.
    + intros _ H0. Z.div_mod_to_equations; lia.
  - rewrite Z.add_0_r. split; [reflexivity|]. intros H0. congruence.
Qed.

Lemma statistics_every_ten_passes_witness :
  count_lines is_stats
    (snd (monitor default_config 0 all_checks_pass
            (firstn 9 ten_successes) (InPass 90000000 InProbe)
            100000000 init))
  = 0%nat
  /\ ping_count
       (fst (monitor default_config 0 all_checks_pass
               (firstn 9 ten_successes) (InPass 90000000 InProbe)
               100000000 init))
     = 10.
Proof.
  assert (Hp : ping_count
                 (fst (monitor default_config 0 all_checks_pass
                         (firstn 9 ten_successes) (InPass 90000000 InProbe)
                         100000000 init))
               = 10) by (vm_compute; reflexivity).
  split; [|exact Hp].
  pose proof (statistics_every_ten_passes default_config 0 all_checks_pass
                (firstn 9 ten_successes) (InPass 90000000 InProbe)
                100000000) as (_ & _ & _ & H).
  cbv zeta in H. rewrite Hp in H.
  apply Nat2Z.inj. rewrite H; [reflexivity| |reflexivity].
  vm_compute. discriminate.
Defined.

(** X2.  In the output of [monitor] there is one "Ping #" line per
    successful probe and one "Ping loss" or "Still down" line per failed
    probe whose pass ran to its end, so one outcome line per such pass.
    Their numbers are [success_count] and [failure_count], less one for
    the second when the interrupt came in the signal query of a failed
    probe: that failure is counted and has no line. *)
Theorem one_outcome_line_per_pass (cfg : Config) (start : Z)
    (diagnostics : diagnostics_input) (evs : list cycle_input)
    (intr : interrupt) (final_now : Z) :
  let s0 := startup cfg start init in
  let s := fst (monitor cfg start diagnostics evs intr final_now init) in
  let out := snd (monitor cfg start diagnostics evs intr final_now init) in
  let cut := cut_pass cfg evs intr s0 in
  Z.of_nat (count_lines is_ping_ok out) = success_count s
  /\ Z.of_nat (count_lines is_ping_loss out + count_lines is_still_down out)
     = failure_count s - Z.of_nat (length (cut_failures cut))
  /\ (count_lines is_ping_ok out + count_lines is_ping_loss out
      + count_lines is_still_down out)%nat
     = length (completed cfg evs s0).
Proof.
  cbv zeta.
  rewrite !monitor_pass_lines by (intros m; destruct m; cbn; congruence).
  destruct (loop_lines cfg evs intr (startup cfg start init))
    as (H1 & H2 & _).
  destruct (monitor_counts cfg start diagnostics evs intr final_now)
    as (_ & Hs & Hf).
  cbv zeta in Hs, Hf. rewrite Hs, Hf.
  assert (Hlen : (length (latencies_of
                            (completed cfg evs (startup cfg start init)))
                  + length (failures_of
                              (completed cfg evs (startup cfg start init))))%nat
                 = length (completed cfg evs (startup cfg start init))).
  { generalize (completed cfg evs (startup cfg start init)) as ran.
    induction ran as [|ev ran IH]; [reflexivity|].
    unfold latencies_of, failures_of in *. cbn [flat_map].
    rewrite !length_app. destruct (result ev); cbn [length]; lia. }
  repeat split; lia.
Qed.

Lemma one_outcome_line_per_pass_witness :
  count_lines is_ping_loss
    (snd (monitor default_config 0 all_checks_pass scenario
            (InPass 50000000 (InSignalQuery "timeout")) 60000000 init))
  = 1%nat
  /\ count_lines is_still_down
       (snd (monitor default_config 0 all_checks_pass scenario
               (InPass 50000000 (InSignalQuery "timeout")) 60000000 init))
     = 1%nat
  /\ failure_count
       (fst (monitor default_config 0 all_checks_pass scenario
               (InPass 50000000 (InSignalQuery "timeout")) 60000000 init))
     = 3.
Proof.
  pose proof (one_outcome_line_per_pass default_config 0 all_checks_pass
                scenario (InPass 50000000 (InSignalQuery "timeout"))
                60000000) as (_ & H & _).
  cbv zeta in H.
  assert (Hl : count_lines is_ping_loss
                 (snd (monitor default_config 0 all_checks_pass scenario
                         (InPass 50000000 (InSignalQuery "timeout"))
                         60000000 init)) = 1%nat)
    by (vm_compute; reflexivity).
  assert (Hc : cut_pass default_config scenario
                 (InPass 50000000 (InSignalQuery "timeout"))
                 (startup default_config 0 init)
               = Some (InSignalQuery "timeout")) by (vm_compute; reflexivity).
  rewrite Hl, Hc in H. cbn [cut_failures length] in H.
  split; [exact Hl|]. split.
  - vm_compute. reflexivity.
  - assert (Hd : count_lines is_still_down
                   (snd (monitor default_config 0 all_checks_pass scenario
                           (InPass 50000000 (InSignalQuery "timeout"))
                           60000000 init)) = 1%nat)
      by (vm_compute; reflexivity).
    rewrite Hd in H. lia.
Defined.

(** X3.  The "Connection RECOVERED" lines of [monitor] announce the closed
    episodes, each once, in order and with its duration; the "Ping loss"
    lines are one per episode, closed or still open. *)
Theorem episodes_are_announced (cfg : Config) (start : Z)
    (diagnostics : diagnostics_input) (evs : list cycle_input)
    (intr : interrupt) (final_now : Z) :
  let s0 := startup cfg start init in
  let ran := completed cfg evs s0 in
  let out := snd (monitor cfg start diagnostics evs intr final_now init) in
  recoveries_shown out = closed_durations None ran
  /\ count_lines is_ping_loss out
     = (length (closed_episodes None ran)
        + open_count (open_episode None ran))%nat.
Proof.
  cbv zeta.
  rewrite monitor_pass_lines by (intros m; destruct m; cbn; congruence).
  destruct (monitor_output cfg start diagnostics evs intr final_now)
    as (banner & closing & E & Hb & Hc).
  rewrite E, !recoveries_shown_app.
  rewrite (recoveries_shown_none banner), (recoveries_shown_none closing);
    try assumption.
  destruct (loop_lines cfg evs intr (startup cfg start init))
    as (_ & _ & H3 & H4 & _).
  destruct (startup_downtime cfg start) as (_ & _ & E3 & _).
  rewrite E3 in *. cbn [open_count] in H4.
  rewrite app_nil_r. cbn [app]. split; [exact H3|lia].
Qed.

(** X4.  At the end of the run the rolling latency buffer holds the last
    100 latencies of the successful passes, in order, and the rolling
    failure buffer the last 100 reasons of the failed probes, in order,
    the one whose pass the interrupt cut in the signal query included. *)
Theorem buffers_hold_the_most_recent (cfg : Config) (start : Z)
    (diagnostics : diagnostics_input) (evs : list cycle_input)
    (intr : interrupt) (final_now : Z) :
  let s0 := startup cfg start init in
  let ran := completed cfg evs s0 in
  let s := fst (monitor cfg start diagnostics evs intr final_now init) in
  recent_pings s = Deque.lastn 100 (latencies_of ran)
  /\ recent_failures s
     = Deque.lastn 100
         (failures_of ran ++ cut_failures (cut_pass cfg evs intr s0)).
Proof.
  cbv zeta. rewrite monitor_state. split.
  - rewrite loop_state.
    destruct (after_cut_fields
                (cut_pass cfg evs intr (startup cfg start init))
                (run (completed cfg evs (startup cfg start init))
                     (startup cfg start init)))
      as (_ & _ & _ & _ & _ & _ & _ & _ & _ & Cp & _).
    rewrite Cp.
    apply (run_recent_pings _ _ []).
    destruct (startup_fields cfg start init)
      as (_ & _ & _ & _ & _ & _ & _ & Ep & _).
    rewrite Ep. reflexivity.
  - apply loop_recent_failures.
Qed.

(** ** Up and down *)

Lemma run_app evs1 evs2 s : run (evs1 ++ evs2) s = run evs2 (run evs1 s).
Proof. unfold run. apply fold_left_app. Qed.

Lemma open_episode_app evs1 : forall evs2 active,
  open_episode active (evs1 ++ evs2)
  = open_episode (open_episode active evs1) evs2.
Proof.
  induction evs1 as [|ev rest IH]; intros evs2 active; [reflexivity|].
  cbn [app open_episode].
  destruct (result ev); destruct active; apply IH.
Qed.

Lemma last_pass_failed_snoc evs ev :
  last_pass_failed (evs ++ [ev])
  = match result ev with Failure _ => true | Success _ => false end.
Proof. unfold last_pass_failed. rewrite rev_unit. reflexivity. Qed.

Lemma open_episode_last evs :
  open_episode None evs <> None <-> last_pass_failed evs = true.
Proof.
  induction evs as [|ev pre _] using rev_ind.
  - cbn. split; [congruence|discriminate].
  - rewrite open_episode_app, last_pass_failed_snoc.
    cbn [open_episode].
    destruct (result ev); destruct (open_episode None pre);
      split; congruence.
Qed.

Lemma run_invariant (P : CellularMonitor -> Prop) :
  (forall ev s, P s -> P (fst (cycle ev s))) ->
  forall evs s, P s -> P (run evs s).
Proof.
  intros Hstep evs; induction evs as [|ev rest IH]; intros s Hs;
    [exact Hs|].
  unfold run in *; cbn [fold_left]. apply IH, Hstep, Hs.
Qed.

(** Failed passes inside an episode keep its start and show the time from
    the start to the last of them. *)
Lemma run_failures_open streak : forall s t0 d,
  downtime_start s = Some t0 -> Forall is_failure streak ->
  downtime_start (run streak s) = Some t0
  /\ current_downtime (run streak s)
     = match streak with
       | [] => current_downtime s
       | _ :: _ => body_now (last streak d) - t0
       end.
Proof.
  induction streak as [|ev rest IH]; intros s t0 d Hs Hall.
  - split; [exact Hs|reflexivity].
  - inversion Hall as [|? ? Hev Hrest]; subst.
    unfold run in *; cbn [fold_left].
    assert (H1 : downtime_start (fst (cycle ev s)) = Some t0).
    { rewrite cycle_downtime_start, Hs.
      unfold is_failure in Hev. destruct (result ev); tauto. }
    assert (H2 : current_downtime (fst (cycle ev s)) = body_now ev - t0).
    { rewrite cycle_current_downtime, Hs.
      unfold is_failure in Hev. destruct (result ev); tauto. }
    destruct (IH (fst (cycle ev s)) t0 d H1 Hrest) as [IH1 IH2].
    split; [exact IH1|]. rewrite IH2.
    destruct rest as [|ev' rest']; [exact H2|reflexivity].
Qed.

(** The downtime attributes the run ends with are those the passes that
    ran to their end left: a pass cut by the interrupt changes none. *)
Lemma monitor_downtime cfg start diagnostics evs intr final_now :
  let s0 := startup cfg start init in
  let s := fst (monitor cfg start diagnostics evs intr final_now init) in
  let ran := run (completed cfg evs s0) s0 in
  downtime_start s = downtime_start ran
  /\ downtime_duration s = downtime_duration ran
  /\ max_downtime s = max_downtime ran
  /\ current_downtime s = current_downtime ran.
Proof.
  cbv zeta. rewrite monitor_state, loop_state.
  destruct (after_cut_fields (cut_pass cfg evs intr (startup cfg start init))
              (run (completed cfg evs (startup cfg start init))
                   (startup cfg start init)))
    as (_ & _ & _ & _ & _ & Cs & Cd & Cm & Cc & _).
  repeat split; assumption.
Qed.

(** X5.  At the end of the run an episode is open exactly when the last
    pass that ran to its end failed.  A pass cut by the interrupt opens no
    episode, not even when its probe had failed and the failure is counted:
    [downtime_start] is what the passes before it left. *)
Theorem down_iff_last_pass_failed (cfg : Config) (start : Z)
    (diagnostics : diagnostics_input) (evs : list cycle_input)
    (intr : interrupt) (final_now : Z) :
  let s0 := startup cfg start init in
  let ran := completed cfg evs s0 in
  let s := fst (monitor cfg start diagnostics evs intr final_now init) in
  (downtime_start s <> None <-> last_pass_failed ran = true)
  /\ downtime_start s = open_episode None ran
  /\ (forall error,
        cut_pass cfg evs intr s0 = Some (InSignalQuery error) ->
        last_pass_failed ran = false ->
        downtime_start s = None
        /\ failure_count s
           = Z.of_nat (length (failures_of ran)) + 1).
Proof.
  cbv zeta.
  destruct (monitor_downtime cfg start diagnostics evs intr final_now)
    as (Hs & _).
  cbv zeta in Hs.
  destruct (run_downtime (completed cfg evs (startup cfg start init))
                         (startup cfg start init)) as (_ & _ & Ho).
  destruct (startup_downtime cfg start) as (_ & _ & E3 & _).
  rewrite E3 in Ho. rewrite Hs, Ho.
  split; [apply open_episode_last|]. split; [reflexivity|].
  intros error Hcut Hlast. split.
  - destruct (open_episode None
                (completed cfg evs (startup cfg start init))) eqn:E;
      [|reflexivity].
    assert (Hne : open_episode None
                    (completed cfg evs (startup cfg start init)) <> None)
      by congruence.
    apply open_episode_last in Hne. congruence.
  - destruct (monitor_counts cfg start diagnostics evs intr final_now)
      as (_ & _ & Hf).
    cbv zeta in Hf. rewrite Hf, Hcut. reflexivity.
Qed.

Lemma down_iff_last_pass_failed_witness :
  downtime_start
    (fst (monitor default_config 0 all_checks_pass scenario
            (InPass 50000000 (InSignalQuery "timeout")) 60000000 init))
  = None
  /\ failure_count
       (fst (monitor default_config 0 all_checks_pass scenario
               (InPass 50000000 (InSignalQuery "timeout")) 60000000 init))
     = Z.of_nat
         (length (failures_of
                    (completed default_config scenario
                       (startup default_config 0 init)))) + 1.
Proof.
  apply (proj2 (proj2 (down_iff_last_pass_failed default_config 0
                         all_checks_pass scenario
                         (InPass 50000000 (InSignalQuery "timeout"))
                         60000000)) "timeout").
  - vm_compute. reflexivity.
  - vm_compute. reflexivity.
Defined.

(** X6.  When the passes that ran to their end finish with a streak of
    failures that follows a success or the start of the run, the open
    episode starts at the clock of the first failure of the streak, and
    [current_downtime] is the time from that first failure to the last one
    (0 when the streak is a single failure); a pass cut by the interrupt
    after them changes neither. *)
Theorem open_episode_spans_the_streak (cfg : Config) (start : Z)
    (diagnostics : diagnostics_input) (evs : list cycle_input)
    (intr : interrupt) (final_now : Z) (pre streak : list cycle_input)
    (f : cycle_input) :
  let s := fst (monitor cfg start diagnostics evs intr final_now init) in
  completed cfg evs (startup cfg start init) = pre ++ f :: streak ->
  last_pass_failed pre = false ->
  Forall is_failure (f :: streak) ->
  downtime_start s = Some (body_now f)
  /\ current_downtime s
     = match streak with
       | [] => 0
       | _ :: _ => body_now (last streak f) - body_now f
       end.
Proof.
  cbv zeta. intros Hran Hpre Hall.
  destruct (monitor_downtime cfg start diagnostics evs intr final_now)
    as (Hs & _ & _ & Hc).
  cbv zeta in Hs, Hc. rewrite Hs, Hc, Hran, run_app.
  set (s0 := startup cfg start init).
  assert (Hup : downtime_start (run pre s0) = None).
  { destruct (run_downtime pre s0) as (_ & _ & Ho). rewrite Ho.
    destruct (startup_downtime cfg start) as (_ & _ & E3 & _).
    unfold s0. rewrite E3.
    destruct (open_episode None pre) eqn:E; [|reflexivity].
    assert (Hne : open_episode None pre <> None) by congruence.
    apply open_episode_last in Hne. congruence. }
  assert (Hzero : current_downtime (run pre s0) = 0).
  { apply (run_invariant up_shows_zero).
    - apply up_shows_zero_cycle.
    - intros _. apply startup_downtime.
    - exact Hup. }
  inversion Hall as [|? ? Hf Hstreak]; subst.
  change (run (f :: streak) (run pre s0))
    with (run streak (fst (cycle f (run pre s0)))).
  assert (H1 : downtime_start (fst (cycle f (run pre s0)))
               = Some (body_now f)).
  { rewrite cycle_downtime_start, Hup.
    unfold is_failure in Hf. destruct (result f); tauto. }
  assert (H2 : current_downtime (fst (cycle f (run pre s0))) = 0).
  { rewrite cycle_current_downtime, Hup, Hzero.
    destruct (result f); reflexivity. }
  destruct (run_failures_open streak _ _ f H1 Hstreak) as [R1 R2].
  split; [exact R1|]. rewrite R2.
  destruct streak; [exact H2|reflexivity].
Qed.

Lemma open_episode_spans_the_streak_witness :
  downtime_start
    (fst (monitor default_config 0 all_checks_pass ends_in_outage
                  (InPass 80000000 (InSignalQuery "timeout")) 90000000 init))
  = Some 50000000
  /\ current_downtime
       (fst (monitor default_config 0 all_checks_pass ends_in_outage
                     (InPass 80000000 (InSignalQuery "timeout")) 90000000
                     init))
     = 20000000.
Proof.
  apply (open_episode_spans_the_streak default_config 0 all_checks_pass
           ends_in_outage (InPass 80000000 (InSignalQuery "timeout"))
           90000000 scenario
           [fail_at 60000000 "timeout"; fail_at 70000000 "timeout"]
           (fail_at 50000000 "timeout")).
  - vm_compute. reflexivity.
  - reflexivity.
  - repeat constructor.
Defined.

(** ** The clock and the accumulators *)

Lemma sum_Z_nonneg l : Forall (fun d => 0 <= d) l -> 0 <= sum_Z l.
Proof.
  induction 1 as [|d l Hd _ IH]; cbn [sum_Z fold_right]; [lia|].
  unfold sum_Z in IH. lia.
Qed.

Lemma in_le_sum_Z l d :
  Forall (fun d => 0 <= d) l -> In d l -> d <= sum_Z l.
Proof.
  induction 1 as [|x l Hx Hl IH]; cbn [In sum_Z fold_right]; [tauto|].
  pose proof (sum_Z_nonneg l Hl) as Hs. unfold sum_Z in *.
  intros [E|H]; [lia|]. specialize (IH H). lia.
Qed.

Lemma run_current_downtime_nonneg evs : forall s,
  clock_nondecreasing evs ->
  0 <= current_downtime s ->
  (forall t0, downtime_start s = Some t0 ->
              Forall (fun ev => t0 <= body_now ev) evs) ->
  0 <= current_downtime (run evs s).
Proof.
  unfold clock_nondecreasing.
  induction evs as [|ev rest IH]; intros s Hs Hc Ha; [exact Hc|].
  unfold run in *; cbn [fold_left].
  cbn [map] in Hs. apply StronglySorted_inv in Hs. destruct Hs as [Hs Hhd].
  rewrite Forall_map in Hhd.
  apply IH; [exact Hs| |].
  - rewrite cycle_current_downtime.
    destruct (result ev); destruct (downtime_start s) as [t0|] eqn:E;
      try lia.
    specialize (Ha t0 eq_refl). inversion Ha; subst. lia.
  - intros t0. rewrite cycle_downtime_start.
    destruct (result ev); destruct (downtime_start s) as [t|] eqn:E;
      intros Ht; inversion Ht; subst.
    + specialize (Ha t0 eq_refl). inversion Ha; assumption.
    + exact Hhd.
Qed.

(** X7.  [max_downtime] is never negative; when the clock of the passes
    never goes back, the cumulative downtime is not negative, no episode is
    longer than it, and the displayed downtime is not negative. *)
Theorem accumulators_are_ordered (cfg : Config) (start : Z)
    (diagnostics : diagnostics_input) (evs : list cycle_input)
    (intr : interrupt) (final_now : Z) :
  let ran := completed cfg evs (startup cfg start init) in
  let s := fst (monitor cfg start diagnostics evs intr final_now init) in
  0 <= max_downtime s
  /\ (clock_nondecreasing ran ->
      0 <= downtime_duration s /\ max_downtime s <= downtime_duration s
      /\ 0 <= current_downtime s).
Proof.
  cbv zeta.
  destruct (monitor_downtime cfg start diagnostics evs intr final_now)
    as (_ & Cd & Cm & Cc).
  cbv zeta in Cd, Cm, Cc. rewrite Cd, Cm, Cc. clear Cd Cm Cc.
  set (s0 := startup cfg start init).
  set (ran := completed cfg evs s0).
  destruct (run_downtime ran s0) as (Hd & Hm & _).
  destruct (startup_downtime cfg start) as (E1 & E2 & E3 & E4).
  fold s0 in E1, E2, E3, E4. rewrite E1, E2, E3 in *.
  rewrite Hd, Hm.
  split; [apply fold_max_ge|].
  intros Hclock.
  assert (Hpos : Forall (fun d => 0 <= d) (closed_durations None ran)).
  { apply closed_durations_nonneg; [exact Hclock|discriminate]. }
  pose proof (sum_Z_nonneg _ Hpos) as Hsum.
  split; [lia|]. split.
  - destruct (fold_max_in (closed_durations None ran) 0) as [E|H].
    + rewrite E. lia.
    + pose proof (in_le_sum_Z _ _ Hpos H). lia.
  - apply run_current_downtime_nonneg; [exact Hclock|rewrite E4; lia|].
    rewrite E3. discriminate.
Qed.

Lemma accumulators_are_ordered_witness :
  0 <= downtime_duration
         (fst (monitor default_config 0 all_checks_pass ends_in_outage
                       InSleep 80000000 init))
  /\ max_downtime
       (fst (monitor default_config 0 all_checks_pass ends_in_outage
                     InSleep 80000000 init))
     <= downtime_duration
          (fst (monitor default_config 0 all_checks_pass ends_in_outage
                        InSleep 80000000 init))
  /\ 0 <= current_downtime
            (fst (monitor default_config 0 all_checks_pass ends_in_outage
                          InSleep 80000000 init)).
Proof.
  apply (proj2 (accumulators_are_ordered default_config 0 all_checks_pass
                  ends_in_outage InSleep 80000000)).
  vm_compute. repeat constructor; discriminate.
Defined.

(** ** The rates of the final report *)

Lemma rates_sum (a b p : Z) :
  0 < p ->
  (inject_Z a / inject_Z p * 100 + inject_Z b / inject_Z p * 100
   == inject_Z (a + b) / inject_Z p * 100)%Q.
Proof.
  intros Hp.
  assert (Hne : ~ (inject_Z p == 0)%Q) by (unfold Qeq; cbn; lia).
  rewrite inject_Z_plus. field. exact Hne.
Qed.

Lemma rate_of_all (p : Z) :
  0 < p -> (inject_Z p / inject_Z p * 100 == 100)%Q.
Proof.
  intros Hp.
  assert (Hne : ~ (inject_Z p == 0)%Q) by (unfold Qeq; cbn; lia).
  field. exact Hne.
Qed.

Lemma rate_of_fewer (n p : Z) :
  0 < p -> n < p -> (inject_Z n / inject_Z p * 100 < 100)%Q.
Proof.
  intros Hp Hn.
  destruct p as [|p|p]; try lia.
  unfold Qlt, Qdiv, Qmult, Qinv, inject_Z. cbn. lia.
Qed.

(** X8.  In the final report of a run that started at least one probe, the
    success rate and the loss rate add up to 100, except when the interrupt
    came inside the last probe: that probe is counted in [ping_count] and
    is neither a success nor a failure, so that the two rates add up to
    [(ping_count - 1) / ping_count * 100], which is less than 100. *)
Theorem final_rates_add_up (cfg : Config) (start : Z)
    (diagnostics : diagnostics_input) (evs : list cycle_input)
    (intr : interrupt) (final_now : Z) :
  let s := fst (monitor cfg start diagnostics evs intr final_now init) in
  let cut := cut_pass cfg evs intr (startup cfg start init) in
  0 < ping_count s ->
  exists success_rate loss_rate,
    success_rates_shown (print_final_stats final_now s) = [success_rate]
    /\ loss_rates_shown (print_final_stats final_now s) = [loss_rate]
    /\ (cut <> Some InProbe -> (success_rate + loss_rate == 100)%Q)
    /\ (cut = Some InProbe ->
        (success_rate + loss_rate
         == inject_Z (ping_count s - 1) / inject_Z (ping_count s) * 100)%Q
        /\ (success_rate + loss_rate < 100)%Q).
Proof.
  cbv zeta. intros Hp.
  destruct (monitor_counts cfg start diagnostics evs intr final_now)
    as (Hc & Hs & Hf).
  cbv zeta in Hc, Hs, Hf.
  assert (Hlen : (length (latencies_of
                            (completed cfg evs (startup cfg start init)))
                  + length (failures_of
                              (completed cfg evs (startup cfg start init))))%nat
                 = length (completed cfg evs (startup cfg start init))).
  { generalize (completed cfg evs (startup cfg start init)) as ran.
    induction ran as [|ev ran IH]; [reflexivity|].
    unfold latencies_of, failures_of in *. cbn [flat_map].
    rewrite !length_app. destruct (result ev); cbn [length]; lia. }
  set (s := fst (monitor cfg start diagnostics evs intr final_now init)) in *.
  destruct (final_stats_rates final_now s) as [F1 F2].
  assert (E : (0 <? ping_count s) = true) by (apply Z.ltb_lt; exact Hp).
  rewrite E in F1, F2.
  eexists. eexists. split; [exact F1|]. split; [exact F2|].
  rewrite rates_sum by exact Hp.
  split.
  - intros Hcut.
    assert (Hsum : success_count s + failure_count s = ping_count s).
    { destruct (cut_pass cfg evs intr (startup cfg start init))
        as [[|error]|]; cbn [probes_begun cut_failures length] in *;
        [congruence|lia|lia]. }
    rewrite Hsum. apply rate_of_all. exact Hp.
  - intros Hcut. rewrite Hcut in *.
    cbn [probes_begun cut_failures length] in *.
    assert (Hsum : success_count s + failure_count s = ping_count s - 1)
      by lia.
    rewrite Hsum. split; [reflexivity|].
    apply rate_of_fewer; lia.
Qed.

Lemma final_rates_add_up_witness :
  (exists success_rate loss_rate,
     success_rates_shown
       (print_final_stats 1000
          (fst (monitor default_config 0 all_checks_pass []
                        (InPass 0 InProbe) 1000 init)))
     = [success_rate]
     /\ loss_rates_shown
          (print_final_stats 1000
             (fst (monitor default_config 0 all_checks_pass []
                           (InPass 0 InProbe) 1000 init)))
        = [loss_rate]
     /\ (success_rate + loss_rate < 100)%Q)
  /\ exists success_rate loss_rate,
       success_rates_shown
         (print_final_stats 50000000
            (fst (monitor default_config 0 all_checks_pass scenario
                          InSleep 50000000 init)))
       = [success_rate]
       /\ loss_rates_shown
            (print_final_stats 50000000
               (fst (monitor default_config 0 all_checks_pass scenario
                             InSleep 50000000 init)))
          = [loss_rate]
       /\ (success_rate + loss_rate == 100)%Q.
Proof.
  split.
  - destruct (final_rates_add_up default_config 0 all_checks_pass []
                (InPass 0 InProbe) 1000)
      as (a & b & H1 & H2 & _ & H4); [vm_compute; reflexivity|].
    exists a, b. split; [exact H1|]. split; [exact H2|].
    apply H4. reflexivity.
  - destruct (final_rates_add_up default_config 0 all_checks_pass scenario
                InSleep 50000000)
      as (a & b & H1 & H2 & H3 & _); [vm_compute; reflexivity|].
    exists a, b. split; [exact H1|]. split; [exact H2|].
    apply H3. vm_compute. discriminate.
Defined.

(** ** The counts of the breakdown *)

Lemma dict_set_sum k v d :
  sum_Z (map snd (Dict.set k v d))
  = sum_Z (map snd d) - Dict.get k 0 d + v.
Proof.
  unfold sum_Z.
  induction d as [|[k' v'] d IH];
    cbn [Dict.set Dict.get map snd fold_right]; [lia|].
  destruct (String.eqb k' k); cbn [map snd fold_right]; lia.
Qed.

Lemma count_failures_sum w : forall d,
  sum_Z (map snd (count_failures w d))
  = sum_Z (map snd d) + Z.of_nat (length w).
Proof.
  unfold count_failures.
  induction w as [|x w IH]; intros d; cbn [fold_left length]; [lia|].
  rewrite IH, dict_set_sum. lia.
Qed.

Lemma sorted_by_count_desc_sum l :
  sum_Z (map snd (sorted_by_count_desc l)) = sum_Z (map snd l).
Proof.
  unfold sorted_by_count_desc, sum_Z.
  induction l as [|x l IH]; cbn [fold_right map]; [reflexivity|].
  rewrite <- IH. generalize (fold_right insert_desc [] l) as sorted.
  induction sorted as [|y sorted IHs]; cbn [insert_desc map fold_right];
    [reflexivity|].
  destruct (snd x <? snd y); cbn [map fold_right]; lia.
Qed.

(** X9.  When at least one probe failed, the counts printed under "Failure
    breakdown:" add up to the number of reasons in the rolling failure
    buffer, [min(failure_count, 100)]. *)
Theorem breakdown_counts_add_up (cfg : Config) (start : Z)
    (diagnostics : diagnostics_input) (evs : list cycle_input)
    (intr : interrupt) (final_now : Z) :
  let s := fst (monitor cfg start diagnostics evs intr final_now init) in
  0 < failure_count s ->
  sum_Z (map snd (breakdown_shown (print_final_stats final_now s)))
  = Z.min (failure_count s) 100.
Proof.
  cbv zeta. intros Hf.
  set (s := fst (monitor cfg start diagnostics evs intr final_now init)) in *.
  assert (Ht : buffers_track_counts s).
  { unfold s. apply (monitor_invariant buffers_track_counts).
    - unfold buffers_track_counts, startup.
      destruct (duration cfg =? 0); split; reflexivity.
    - apply buffers_track_counts_cycle.
    - apply buffers_track_counts_begin_pass. }
  destruct Ht as [_ Ht].
  assert (Hne : recent_failures s <> []).
  { intros E. rewrite E in Ht. cbn in Ht. lia. }
  destruct (final_stats_breakdown final_now s Hf Hne) as [_ Hshown].
  rewrite Hshown. unfold failure_breakdown.
  rewrite sorted_by_count_desc_sum, count_failures_sum.
  cbn [map sum_Z fold_right]. lia.
Qed.

Lemma breakdown_counts_add_up_witness :
  sum_Z (map snd
           (breakdown_shown
              (print_final_stats 2000000000
                 (fst (monitor default_config 0 all_checks_pass long_outage
                               InSleep 2000000000 init)))))
  = 100.
Proof.
  apply (breakdown_counts_add_up default_config 0 all_checks_pass long_outage
           InSleep 2000000000).
  vm_compute. reflexivity.
Defined.

(** ** How the loop is left *)

Lemma loop_cons_why cfg ev rest intr s :
  duration_exceeded s (head_now ev) = false ->
  (interval cfg <? 0) = false ->
  snd (loop cfg (ev :: rest) intr s)
  = snd (loop cfg rest intr (fst (cycle ev s))).
Proof.
  intros H Hi. cbn [loop]. rewrite H.
  destruct (cycle ev s) as [s1 out1]; cbn [fst]. rewrite Hi.
  destruct (loop cfg rest intr s1) as [[s2 out2] why]; reflexivity.
Qed.

(** With an interval that is not negative the loop is left by the duration
    check exactly when some check reads a clock at or after the end time. *)
Lemma loop_why cfg evs intr : forall s,
  (interval cfg <? 0) = false ->
  snd (loop cfg evs intr s) = DurationExceeded
  <-> Exists (fun t => duration_exceeded s t = true)
             (map head_now evs ++ interrupt_checks intr).
Proof.
  induction evs as [|ev rest IH]; intros s Hi.
  - cbn [loop map app]. destruct intr as [|now point]; cbn [interrupt_checks].
    + split; [discriminate|]. intros H; inversion H.
    + destruct (duration_exceeded s now) eqn:E; cbn [snd].
      * split; [|reflexivity]. intros _. left. exact E.
      * split; [discriminate|]. intros H.
        inversion H as [? ? Hhd|? ? Htl]; subst; [congruence|inversion Htl].
  - cbn [map app].
    destruct (duration_exceeded s (head_now ev)) eqn:E.
    + cbn [loop]. rewrite E. split; [|reflexivity]. intros _. left. exact E.
    + rewrite loop_cons_why by assumption. rewrite IH by exact Hi.
      split.
      * intros H. right. eapply Exists_impl; [|exact H].
        intros a Ha. cbn in Ha. rewrite duration_exceeded_cycle in Ha.
        exact Ha.
      * intros H. inversion H as [? ? Hhd|? ? Htl]; subst; [congruence|].
        eapply Exists_impl; [|exact Htl].
        intros a Ha. cbn. rewrite duration_exceeded_cycle. exact Ha.
Qed.

(** The loop is left by the error of [time.sleep] exactly when the interval
    is negative and a pass ran to its end. *)
Lemma loop_sleep cfg evs intr : forall s,
  snd (loop cfg evs intr s) = SleepRaised
  <-> (interval cfg <? 0) = true /\ completed cfg evs s <> [].
Proof.
  induction evs as [|ev rest IH]; intros s.
  - cbn [loop completed]. destruct intr as [|now point].
    + split; [discriminate|]. intros [_ H]. congruence.
    + destruct (duration_exceeded s now); cbn [snd];
        (split; [discriminate|]; intros [_ H]; congruence).
  - cbn [completed].
    destruct (duration_exceeded s (head_now ev)) eqn:E.
    + cbn [loop]. rewrite E. cbn [snd].
      split; [discriminate|]. intros [_ H]. congruence.
    + destruct (interval cfg <? 0) eqn:Ei.
      * rewrite loop_cons_sleep by assumption. cbn [snd].
        split; [|reflexivity]. intros _. split; [reflexivity|discriminate].
      * rewrite loop_cons_why by assumption. rewrite IH.
        split; intros [H _]; discriminate H.
Qed.

Lemma completed_at_most_one cfg evs s :
  (interval cfg <? 0) = true -> (length (completed cfg evs s) <= 1)%nat.
Proof.
  intros Hi. destruct evs as [|ev rest]; cbn [completed length]; [lia|].
  destruct (duration_exceeded s (head_now ev)); [cbn; lia|].
  rewrite Hi. cbn. lia.
Qed.

(** Without an end time and with an interval that is not negative every
    pass offered runs, and the loop is left by the interrupt. *)
Lemma loop_runs_everything cfg evs intr : forall s,
  end_time s = None -> (interval cfg <? 0) = false ->
  completed cfg evs s = evs /\ snd (loop cfg evs intr s) = Interrupted.
Proof.
  induction evs as [|ev rest IH]; intros s He Hi.
  - cbn [completed loop]. split; [reflexivity|].
    destruct intr as [|now point]; [reflexivity|].
    unfold duration_exceeded. rewrite He. reflexivity.
  - assert (Hev : duration_exceeded s (head_now ev) = false)
      by (unfold duration_exceeded; rewrite He; reflexivity).
    rewrite loop_cons_why by assumption. cbn [completed]. rewrite Hev, Hi.
    destruct (IH (fst (cycle ev s))) as [IH1 IH2];
      [rewrite cycle_end_time; exact He|exact Hi|].
    rewrite IH1. split; [reflexivity|exact IH2].
Qed.

Lemma cycle_no_stop_line ev s :
  count_lines is_duration_exceeded (snd (cycle ev s)) = 0%nat
  /\ count_lines is_interrupted (snd (cycle ev s)) = 0%nat.
Proof.
  rewrite cycle_output. unfold branch_lines, print_stats.
  destruct (result ev); destruct (downtime_start s);
    destruct ((ping_count s + 1) mod 10 =? 0); split; reflexivity.
Qed.

Lemma loop_stop_lines cfg evs intr : forall s,
  count_lines is_duration_exceeded (snd (fst (loop cfg evs intr s)))
  = match snd (loop cfg evs intr s) with
    | DurationExceeded => 1%nat
    | Interrupted | SleepRaised => 0%nat
    end
  /\ count_lines is_interrupted (snd (fst (loop cfg evs intr s))) = 0%nat.
Proof.
  induction evs as [|ev rest IH]; intros s.
  - cbn [loop]. destruct intr as [|now point]; [split; reflexivity|].
    destruct (duration_exceeded s now); split; reflexivity.
  - destruct (duration_exceeded s (head_now ev)) eqn:E.
    + cbn [loop]. rewrite E. split; reflexivity.
    + destruct (cycle_no_stop_line ev s) as [C1 C2].
      destruct (interval cfg <? 0) eqn:Ei.
      * rewrite loop_cons_sleep by assumption. cbn [fst snd].
        split; assumption.
      * rewrite loop_cons, loop_cons_why by assumption.
        rewrite !count_lines_app, C1, C2.
        apply IH.
Qed.

Lemma free_of_app p out1 out2 :
  free_of p out1 -> free_of p out2 -> free_of p (out1 ++ out2).
Proof. unfold free_of. intros; apply Forall_app; split; assumption. Qed.

Lemma count_lines_free p out : free_of p out -> count_lines p out = 0%nat.
Proof.
  intros H. unfold count_lines.
  induction H as [|o out Ho _ IH]; [reflexivity|].
  cbn [filter]. destruct o as [lvl m|text]; [|exact IH].
  rewrite Ho. exact IH.
Qed.

Ltac final_stats_free :=
  unfold print_final_stats;
  repeat apply free_of_app;
  [ repeat constructor
  | match goal with
    | |- context [rtt_summary ?l] =>
        destruct (rtt_summary l) as [[[? ?] ?]|]; repeat constructor
    end
  | match goal with
    | |- context [0 <? failure_count ?s] =>
        destruct (0 <? failure_count s); [|constructor];
        apply free_of_app; [repeat constructor|];
        destruct (recent_failures s); [constructor|];
        constructor; [reflexivity|];
        unfold free_of; apply Forall_map; apply Forall_forall;
        intros item _; reflexivity
    end
  | repeat constructor ].

Lemma print_final_stats_no_stop_line now s :
  free_of is_duration_exceeded (print_final_stats now s)
  /\ free_of is_interrupted (print_final_stats now s).
Proof. split; final_stats_free. Qed.

Lemma banner_lines_no_stop_line cfg diagnostics :
  free_of is_duration_exceeded (banner_lines cfg diagnostics)
  /\ free_of is_interrupted (banner_lines cfg diagnostics).
Proof.
  destruct diagnostics as [[? ?] [? ?] [? ?] [? ?] [? ?]].
  unfold banner_lines, run_diagnostics.
  split; destruct (duration cfg =? 0); cbn; repeat constructor.
Qed.

(** The lines of [monitor], in order. *)
Lemma monitor_lines cfg start diagnostics evs intr final_now :
  snd (monitor cfg start diagnostics evs intr final_now init)
  = banner_lines cfg diagnostics
    ++ snd (fst (loop cfg evs intr (startup cfg start init)))
    ++ interrupt_lines (snd (loop cfg evs intr (startup cfg start init)))
    ++ print_final_stats final_now
         (fst (fst (loop cfg evs intr (startup cfg start init)))).
Proof.
  unfold monitor, banner_lines.
  destruct (loop cfg evs intr (startup cfg start init)) as [[s out] why].
  cbn [fst snd]. f_equal.
  destruct why; cbn [interrupt_lines app]; rewrite <- ?app_assoc;
    reflexivity.
Qed.

(** X10.  The loop is left in one of three ways.  With a negative interval
    [time.sleep] raises after the first pass that runs to its end: at most
    one pass does, and the loop is left by that error exactly when one
    did.  With another interval and a duration of 0 every pass offered runs
    and the loop is left by the interrupt; with another duration it is
    left by the duration check exactly when some duration check, that of
    the pass the interrupt would cut included, reads a clock at or after
    the start time plus the duration.  The output of [monitor] holds
    "Duration exceeded, stopping" once when the duration check stopped the
    loop and never otherwise, and "Interrupted by user" once when the
    interrupt did and never otherwise: after the error of [time.sleep] it
    holds neither. *)
Theorem how_the_loop_is_left (cfg : Config) (start : Z)
    (diagnostics : diagnostics_input) (evs : list cycle_input)
    (intr : interrupt) (final_now : Z) :
  let s0 := startup cfg start init in
  let why := snd (loop cfg evs intr s0) in
  let out := snd (monitor cfg start diagnostics evs intr final_now init) in
  (why = SleepRaised <-> interval cfg < 0 /\ completed cfg evs s0 <> [])
  /\ (interval cfg < 0 -> (length (completed cfg evs s0) <= 1)%nat)
  /\ (0 <= interval cfg -> duration cfg = 0 ->
      completed cfg evs s0 = evs /\ why = Interrupted)
  /\ (0 <= interval cfg -> duration cfg <> 0 ->
      (why = DurationExceeded
       <-> Exists (fun t => start + duration cfg * 60000000 <= t)
                  (map head_now evs ++ interrupt_checks intr)))
  /\ count_lines is_duration_exceeded out
     = match why with
       | DurationExceeded => 1%nat
       | Interrupted | SleepRaised => 0%nat
       end
  /\ count_lines is_interrupted out
     = match why with
       | Interrupted => 1%nat
       | DurationExceeded | SleepRaised => 0%nat
       end.
Proof.
  cbv zeta. split; [|split; [|split; [|split]]].
  - rewrite loop_sleep. rewrite Z.ltb_lt. reflexivity.
  - intros Hi. apply completed_at_most_one. apply Z.ltb_lt. exact Hi.
  - intros Hi H. apply loop_runs_everything.
    + unfold startup. rewrite H. reflexivity.
    + apply Z.ltb_ge. exact Hi.
  - intros Hi H. rewrite loop_why by (apply Z.ltb_ge; exact Hi).
    assert (E : forall t,
               duration_exceeded (startup cfg start init) t
               = (start + duration cfg * 60000000 <=? t)).
    { intros t. unfold duration_exceeded, startup.
      destruct (Z.eqb_spec (duration cfg) 0); [contradiction|reflexivity]. }
    split; intros Hex; (eapply Exists_impl; [|exact Hex]);
      intros t Ht; cbn in *; rewrite E in *; apply Z.leb_le; exact Ht.
  - rewrite monitor_lines, !count_lines_app.
    destruct (loop_stop_lines cfg evs intr (startup cfg start init))
      as [L1 L2].
    destruct (banner_lines_no_stop_line cfg diagnostics) as [B1 B2].
    destruct (print_final_stats_no_stop_line final_now
                (fst (fst (loop cfg evs intr (startup cfg start init)))))
      as [F1 F2].
    rewrite L1, L2.
    rewrite !(count_lines_free _ _ B1), !(count_lines_free _ _ B2),
            !(count_lines_free _ _ F1), !(count_lines_free _ _ F2).
    destruct (snd (loop cfg evs intr (startup cfg start init)));
      split; reflexivity.
Qed.

Lemma how_the_loop_is_left_witness :
  (completed default_config scenario (startup default_config 0 init)
   = scenario
   /\ snd (loop default_config scenario InSleep
              (startup default_config 0 init)) = Interrupted)
  /\ snd (loop one_minute expiring_run InSleep (startup one_minute 0 init))
     = DurationExceeded
  /\ snd (loop negative_interval scenario InSleep
             (startup negative_interval 0 init))
     = SleepRaised.
Proof.
  split; [|split].
  - apply (proj1 (proj2 (proj2
             (how_the_loop_is_left default_config 0 all_checks_pass
                scenario InSleep 50000000))));
      [cbn; lia|reflexivity].
  - apply (proj1 (proj2 (proj2 (proj2
             (how_the_loop_is_left one_minute 0 all_checks_pass
                expiring_run InSleep 60000001))))).
    + cbn; lia.
    + discriminate.
    + right. right. left. cbn. lia.
  - apply (proj1 (how_the_loop_is_left negative_interval 0 all_checks_pass
                    scenario InSleep 50000000)).
    split; [cbn; lia|]. vm_compute. discriminate.
Defined.

(** X11.  A negative duration is taken like any other: the end time lies
    before the start time, so when the first duration check reads a clock
    not before the start time, [monitor] issues no probe, leaves the loop
    by the duration check and reports 0 pings and rates of 0. *)
Theorem negative_duration_runs_no_probe (cfg : Config) (start : Z)
    (diagnostics : diagnostics_input) (ev : cycle_input)
    (rest : list cycle_input) (intr : interrupt) (final_now : Z) :
  let s :=
    fst (monitor cfg start diagnostics (ev :: rest) intr final_now init) in
  duration cfg < 0 -> start <= head_now ev ->
  s = startup cfg start init
  /\ ping_count s = 0
  /\ snd (loop cfg (ev :: rest) intr (startup cfg start init))
     = DurationExceeded
  /\ success_rates_shown (print_final_stats final_now s) = [0%Q]
  /\ loss_rates_shown (print_final_stats final_now s) = [0%Q].
Proof.
  cbv zeta. intros Hd Hnow.
  assert (Hend : end_time (startup cfg start init)
                 = Some (start + duration cfg * 60000000)).
  { unfold startup. destruct (Z.eqb_spec (duration cfg) 0); [lia|reflexivity]. }
  assert (Hloop : loop cfg (ev :: rest) intr (startup cfg start init)
                  = (startup cfg start init,
                     [Log "INFO" MDurationExceeded], DurationExceeded)).
  { apply (loop_stops_at_end_time _ _ _ _ _ _ Hend). lia. }
  rewrite monitor_state, Hloop. cbn [fst snd].
  destruct (startup_fields cfg start init) as (E0 & _).
  destruct (final_stats_rates final_now (startup cfg start init)) as [F1 F2].
  rewrite F1, F2, E0. repeat split.
Qed.

Lemma negative_duration_runs_no_probe_witness :
  ping_count
    (fst (monitor negative_duration 0 all_checks_pass scenario InSleep 1000
                  init))
  = 0.
Proof.
  apply (negative_duration_runs_no_probe negative_duration 0 all_checks_pass
           (ok_at 0 (20 # 1)) (tl scenario) InSleep 1000); cbn; lia.
Defined.

(** ** [ping_host]: success, failure and the line that gives the time *)

(** X12.  [ping_host] reports a success exactly when the host is an
    address or resolves and the subprocess returns with status 0; when the
    host is a name that does not resolve it reports the failure
    "DNS resolution failed: ..." whatever the subprocess would do. *)
Theorem ping_host_succeeds_iff
    (parse_float : string -> option Q) (strip : string -> string)
    (env : ping_input) :
  ((exists rtt, ping_host parse_float strip env = Success rtt)
   <-> (is_ip env = true \/ fst (resolution env) = true)
       /\ exists stdout stderr, ping env = Completed 0 stdout stderr)
  /\ (is_ip env = false -> fst (resolution env) = false ->
      ping_host parse_float strip env
      = Failure (String.append "DNS resolution failed: "
                               (snd (resolution env)))).
Proof.
  unfold ping_host. split; [split|].
  - intros [rtt H].
    destruct (negb (is_ip env) && negb (fst (resolution env))) eqn:E;
      [discriminate H|].
    split.
    { destruct (is_ip env); destruct (fst (resolution env));
        cbn in E; try discriminate E; tauto. }
    destruct (ping env) as [rc out err| |msg]; try discriminate H.
    destruct (Z.eqb_spec rc 0); [subst; eauto|discriminate H].
  - intros [Hh (out & err & Hp)].
    replace (negb (is_ip env) && negb (fst (resolution env))) with false
      by (destruct Hh as [E|E]; rewrite E;
          destruct (is_ip env); reflexivity).
    rewrite Hp. cbn [Z.eqb].
    destruct (first_rtt parse_float _); eauto.
  - intros H1 H2. rewrite H1, H2. reflexivity.
Qed.

Lemma ping_host_succeeds_iff_witness :
  ping_host sample_float sample_strip unresolved_host
  = Failure "DNS resolution failed: Name or service not known".
Proof.
  apply (proj2 (ping_host_succeeds_iff sample_float sample_strip
                  unresolved_host));
    reflexivity.
Defined.

Lemma first_rtt_first_accepted parse_float (pre : list string) :
  forall line post rtt,
  (forall l, In l pre -> Str.contains "time=" l = true ->
             parse_float (time_field l) = None) ->
  Str.contains "time=" line = true ->
  parse_float (time_field line) = Some rtt ->
  first_rtt parse_float (pre ++ line :: post) = Some rtt.
Proof.
  induction pre as [|l pre IH]; intros line post rtt Hpre Hc Hp;
    cbn [app first_rtt].
  - rewrite Hc, Hp. reflexivity.
  - destruct (Str.contains "time=" l) eqn:E.
    + rewrite (Hpre l (or_introl eq_refl) E).
      apply IH; [|assumption|assumption].
      intros l' Hl'. apply Hpre. right; exact Hl'.
    + apply IH; [|assumption|assumption].
      intros l' Hl'. apply Hpre. right; exact Hl'.
Qed.

(** X13.  When the subprocess returns with status 0, the latency reported
    is the one of the first line of its output that holds ['time='] and
    whose field [float] accepts: lines before it without ['time='] or with
    a field [float] refuses are passed over, and the lines after it are not
    read. *)
Theorem ping_host_reads_first_accepted_time
    (parse_float : string -> option Q) (strip : string -> string)
    (env : ping_input) (stdout stderr : string)
    (pre post : list string) (line : string) (rtt : Q) :
  is_ip env = true \/ fst (resolution env) = true ->
  ping env = Completed 0 stdout stderr ->
  Str.split Str.newline stdout = pre ++ line :: post ->
  (forall l, In l pre -> Str.contains "time=" l = true ->
             parse_float (time_field l) = None) ->
  Str.contains "time=" line = true ->
  parse_float (time_field line) = Some rtt ->
  ping_host parse_float strip env = Success rtt.
Proof.
  intros Hhost Hping Hsplit Hpre Hc Hp. unfold ping_host.
  replace (negb (is_ip env) && negb (fst (resolution env))) with false
    by (destruct Hhost as [E|E]; rewrite E;
        destruct (is_ip env); reflexivity).
  rewrite Hping. cbn [Z.eqb]. rewrite Hsplit.
  rewrite (first_rtt_first_accepted parse_float pre line post rtt);
    auto.
Qed.

Lemma ping_host_reads_first_accepted_time_witness :
  ping_host sample_float sample_strip reply_with_two_times
  = Success (inject_Z 20 + Qmake 3 10)%Q.
Proof.
  apply (ping_host_reads_first_accepted_time sample_float sample_strip
           reply_with_two_times
           (String.append "probe time=n/a"
             (String.append Str.newline
             (String.append "64 bytes from 8.8.8.8: time=20.3 ms"
             (String.append Str.newline
                "64 bytes from 8.8.8.8: time=99.9 ms"))))
           ""
           ["probe time=n/a"] ["64 bytes from 8.8.8.8: time=99.9 ms"]
           "64 bytes from 8.8.8.8: time=20.3 ms").
  - right; reflexivity.
  - reflexivity.
  - reflexivity.
  - intros l [E|[]] _. subst l. reflexivity.
  - reflexivity.
  - reflexivity.
Defined.

(** ** Searching a text *)

Lemma prefix_spec (sub s : string) :
  String.prefix sub s = true <-> exists post, s = String.append sub post.
Proof.
  revert s. induction sub as [|c sub IH]; intros s.
  - split; [intros _; exists s; reflexivity|].
    intros _. destruct s; reflexivity.
  - destruct s as [|c' s]; cbn.
    + split; [discriminate|]. intros [post H]. discriminate H.
    + destruct (ascii_dec c c') as [E|E].
      * subst c'. rewrite IH. split; intros [post H]; exists post.
        -- rewrite H. reflexivity.
        -- inversion H. reflexivity.
      * split; [discriminate|]. intros [post H]. inversion H.
        subst. contradiction E. reflexivity.
Qed.

(** [sub in s] holds exactly when [s] is some text, [sub], some text. *)
Lemma contains_spec (sub s : string) :
  Str.contains sub s = true
  <-> exists pre post, s = String.append pre (String.append sub post).
Proof.
  split.
  - induction s as [|c s IH]; cbn [Str.contains].
    + intros H. apply prefix_spec in H. destruct H as [post H].
      exists EmptyString, post. exact H.
    + intros H. apply orb_true_iff in H. destruct H as [H|H].
      * apply prefix_spec in H. destruct H as [post H].
        exists EmptyString, post. exact H.
      * destruct (IH H) as (pre & post & E).
        exists (String c pre), post. rewrite E. reflexivity.
  - intros (pre & post & E). subst s.
    induction pre as [|c pre IH].
    + cbn [String.append].
      assert (Hp : String.prefix sub (String.append sub post) = true)
        by (apply prefix_spec; exists post; reflexivity).
      destruct (String.append sub post) eqn:E; cbn [Str.contains].
      * exact Hp.
      * rewrite Hp. reflexivity.
    + cbn [String.append Str.contains]. rewrite IH. apply orb_true_r.
Qed.

Lemma check_ip_config_passes_iff (strip : string -> string)
    (r : command_result) :
  fst (check_ip_config_of strip r) = true
  <-> exists pre post,
        r = Returned 0 (String.append pre (String.append "inet " post))
        \/ r = Returned 0 (String.append pre (String.append "inet6 " post)).
Proof.
  destruct r as [rc out|text]; cbn [check_ip_config_of].
  - destruct (Z.eqb_spec rc 0) as [E|E]; cbn [negb].
    + subst rc.
      destruct (Str.contains "inet " out) eqn:E4;
        destruct (Str.contains "inet6 " out) eqn:E6; cbn [orb fst].
      * split; [intros _|reflexivity].
        apply contains_spec in E4. destruct E4 as (pre & post & E4).
        exists pre, post. left. rewrite E4. reflexivity.
      * split; [intros _|reflexivity].
        apply contains_spec in E4. destruct E4 as (pre & post & E4).
        exists pre, post. left. rewrite E4. reflexivity.
      * split; [intros _|reflexivity].
        apply contains_spec in E6. destruct E6 as (pre & post & E6).
        exists pre, post. right. rewrite E6. reflexivity.
      * split; [discriminate|]. intros (pre & post & [H|H]);
          inversion H as [Hout].
        -- assert (Ht : Str.contains "inet " out = true)
             by (apply contains_spec; exists pre, post; exact Hout).
           congruence.
        -- assert (Ht : Str.contains "inet6 " out = true)
             by (apply contains_spec; exists pre, post; exact Hout).
           congruence.
    + split; [discriminate|]. intros (pre & post & [H|H]);
        inversion H; contradiction.
  - split; [discriminate|]. intros (pre & post & [H|H]); discriminate H.
Qed.

(** X14.  Each of the three checks that search the output of a command
    passes exactly when the command returns with status 0 and its output
    holds the text searched for, anywhere: "UP" for [check_interface],
    "inet " or "inet6 " for [check_ip_config], "Modem" for
    [check_modem_status]. *)
Theorem checks_pass_iff_text_found (strip : string -> string)
    (r : command_result) :
  (fst (check_interface_of r) = true
   <-> exists pre post,
         r = Returned 0 (String.append pre (String.append "UP" post)))
  /\ (fst (check_ip_config_of strip r) = true
      <-> exists pre post,
            r = Returned 0 (String.append pre (String.append "inet " post))
            \/ r = Returned 0
                     (String.append pre (String.append "inet6 " post)))
  /\ (fst (check_modem_status_of strip r) = true
      <-> exists pre post,
            r = Returned 0 (String.append pre (String.append "Modem" post))).
Proof.
  split; [|split].
  - destruct r as [rc out|text]; cbn [check_interface_of].
    + destruct (Z.eqb_spec rc 0) as [E|E]; cbn [negb].
      * subst rc. destruct (Str.contains "UP" out) eqn:Ec; cbn [negb fst].
        -- split; [intros _|reflexivity].
           apply contains_spec in Ec. destruct Ec as (pre & post & Ec).
           exists pre, post. rewrite Ec. reflexivity.
        -- split; [discriminate|]. intros (pre & post & H).
           inversion H as [Hout].
           assert (Ht : Str.contains "UP" out = true)
             by (apply contains_spec; exists pre, post; exact Hout).
           congruence.
      * split; [discriminate|]. intros (pre & post & H).
        inversion H. contradiction.
    + split; [discriminate|]. intros (pre & post & H). discriminate H.
  - apply check_ip_config_passes_iff.
  - destruct r as [rc out|text]; cbn [check_modem_status_of].
    + destruct (Z.eqb_spec rc 0) as [E|E]; cbn [negb].
      * subst rc. destruct (Str.contains "Modem" out) eqn:Ec; cbn [fst].
        -- split; [intros _|reflexivity].
           apply contains_spec in Ec. destruct Ec as (pre & post & Ec).
           exists pre, post. rewrite Ec. reflexivity.
        -- split; [discriminate|]. intros (pre & post & H).
           inversion H as [Hout].
           assert (Ht : Str.contains "Modem" out = true)
             by (apply contains_spec; exists pre, post; exact Hout).
           congruence.
      * split; [discriminate|]. intros (pre & post & H).
        inversion H. contradiction.
    + split; [discriminate|]. intros (pre & post & H). discriminate H.
Qed.

Lemma checks_pass_iff_text_found_witness :
  fst (check_interface_of (Returned 0 no_carrier_output)) = true.
Proof.
  apply (proj1 (checks_pass_iff_text_found sample_strip
                  (Returned 0 no_carrier_output))).
  exists "3: wwan0: <NO-CARRIER,BROADCAST,MULTICAST,",
         "> mtu 1500 state DOWN".
  reflexivity.
Defined.

(** ** Splitting a text *)

Lemma append_nil_right (s : string) : String.append s EmptyString = s.
Proof. induction s as [|c s IH]; cbn; [reflexivity|rewrite IH; reflexivity]. Qed.

Lemma append_assoc3 (a b c : string) :
  String.append (String.append a b) c = String.append a (String.append b c).
Proof. induction a as [|x a IH]; cbn; [reflexivity|rewrite IH; reflexivity]. Qed.

Lemma split_from_skip sep (a : string) : forall rest cur,
  Str.split_from sep (String.append a rest) cur (String.length a)
  = Str.split_from sep rest cur 0.
Proof.
  induction a as [|c a IH]; intros rest cur; [reflexivity|].
  cbn [String.append String.length Str.split_from]. apply IH.
Qed.

(** A text without the separator is one piece. *)
Lemma split_from_none sep (s : string) : forall cur,
  Str.contains sep s = false ->
  Str.split_from sep s cur 0 = [String.append cur s].
Proof.
  induction s as [|c s IH]; intros cur H.
  - cbn. rewrite append_nil_right. reflexivity.
  - cbn [Str.contains] in H. apply orb_false_iff in H. destruct H as [H1 H2].
    cbn [Str.split_from]. rewrite H1, IH by exact H2.
    rewrite append_assoc3. reflexivity.
Qed.

(** The first piece ends at the first occurrence of the separator. *)
Lemma split_from_first sep (pre : string) : forall rest cur,
  sep <> EmptyString ->
  starts_none sep pre (String.append sep rest) = true ->
  Str.split_from sep (String.append pre (String.append sep rest)) cur 0
  = String.append cur pre :: Str.split_from sep rest EmptyString 0.
Proof.
  induction pre as [|c pre IH]; intros rest cur Hsep H.
  - destruct sep as [|c0 sep']; [contradiction|].
    cbn [String.append]. cbn [Str.split_from].
    assert (Hp : String.prefix (String c0 sep')
                   (String c0 (String.append sep' rest)) = true).
    { apply prefix_spec. exists rest. reflexivity. }
    rewrite Hp. rewrite append_nil_right.
    cbn [String.length]. rewrite Nat.sub_1_r. cbn [Nat.pred].
    rewrite split_from_skip. reflexivity.
  - cbn [starts_none] in H. apply andb_true_iff in H. destruct H as [H1 H2].
    apply negb_true_iff in H1.
    cbn [String.append] in *. cbn [Str.split_from]. rewrite H1.
    rewrite IH by assumption. rewrite append_assoc3. reflexivity.
Qed.

(** The first piece begins with what precedes the first occurrence. *)
Lemma split_from_head sep (s : string) : forall cur,
  exists h l, Str.split_from sep s cur 0 = String.append cur h :: l.
Proof.
  induction s as [|c s IH]; intros cur.
  - exists EmptyString, []. cbn. rewrite append_nil_right. reflexivity.
  - cbn [Str.split_from]. destruct (String.prefix sep (String c s)).
    + exists EmptyString. eexists. rewrite append_nil_right. reflexivity.
    + destruct (IH (String.append cur (String c EmptyString))) as (h & l & E).
      exists (String c h), l. rewrite E, append_assoc3. reflexivity.
Qed.

Lemma split_from_head_after sep (pre : string) : forall tail cur,
  starts_none sep pre tail = true ->
  exists h l,
    Str.split_from sep (String.append pre tail) cur 0
    = String.append cur (String.append pre h) :: l.
Proof.
  induction pre as [|c pre IH]; intros tail cur H.
  - cbn [String.append]. apply split_from_head.
  - cbn [starts_none] in H. apply andb_true_iff in H. destruct H as [H1 H2].
    apply negb_true_iff in H1.
    cbn [String.append] in *. cbn [Str.split_from]. rewrite H1.
    destruct (IH tail (String.append cur (String c EmptyString)) H2)
      as (h & l & E).
    exists h, l. rewrite E, append_assoc3. reflexivity.
Qed.

(** A text none of whose characters is the first one of the separator
    holds no occurrence of it, and none starts inside it. *)
Lemma starts_none_other_chars c0 sep' (pre tail : string) :
  Forall (fun c => c <> c0) (list_ascii_of_string pre) ->
  starts_none (String c0 sep') pre tail = true.
Proof.
  induction pre as [|c pre IH]; cbn [list_ascii_of_string starts_none];
    intros H; [reflexivity|].
  inversion H as [|? ? Hc Hrest]; subst.
  rewrite IH by exact Hrest. cbn [String.append String.prefix].
  destruct (ascii_dec c0 c) as [E|E]; [congruence|reflexivity].
Qed.

Lemma contains_other_chars c0 sep' (s : string) :
  Forall (fun c => c <> c0) (list_ascii_of_string s) ->
  Str.contains (String c0 sep') s = false.
Proof.
  induction s as [|c s IH]; cbn [list_ascii_of_string Str.contains];
    intros H; [reflexivity|].
  inversion H as [|? ? Hc Hrest]; subst.
  rewrite IH by exact Hrest. cbn [String.prefix].
  destruct (ascii_dec c0 c) as [E|E]; [congruence|reflexivity].
Qed.

Lemma prefix_app_long (sep : string) : forall u v,
  (String.length sep <= String.length u)%nat ->
  String.prefix sep (String.append u v) = String.prefix sep u.
Proof.
  induction sep as [|c sep IH]; intros u v H.
  - destruct u; destruct v; reflexivity.
  - destruct u as [|c' u]; [cbn in H; lia|].
    cbn [String.append String.prefix].
    destruct (ascii_dec c c'); [|reflexivity].
    apply IH. cbn [String.length] in H. lia.
Qed.

Lemma length_append (a b : string) :
  String.length (String.append a b)
  = (String.length a + String.length b)%nat.
Proof. induction a as [|c a IH]; cbn; [reflexivity|rewrite IH; reflexivity]. Qed.

Lemma starts_none_time (pre : string) : forall x,
  Str.contains "time=" (String.append pre "time") = false ->
  starts_none "time=" pre (String.append "time=" x) = true.
Proof.
  induction pre as [|c pre IH]; intros x H; [reflexivity|].
  cbn [String.append Str.contains] in H.
  apply orb_false_iff in H. destruct H as [H1 H2].
  cbn [starts_none]. rewrite IH by exact H2. rewrite andb_true_r.
  apply negb_true_iff.
  replace (String.append (String c pre) (String.append "time=" x))
    with (String.append (String.append (String c pre) "time")
                        (String.append "=" x))
    by (rewrite append_assoc3; reflexivity).
  rewrite prefix_app_long; [exact H1|].
  rewrite length_append. cbn [String.length]. lia.
Qed.

(** X15.  For a line that reads [pre], then "time=", then a field that
    holds neither a space nor the letter t, [time_field] is that field,
    whether the field ends the line or a space and more text follow it;
    [pre] is what precedes the first "time=" of the line. *)
Theorem time_field_extracts (pre field rest : string) :
  Str.contains "time=" (String.append pre "time") = false ->
  Forall (fun c => c <> " "%char /\ c <> "t"%char)
         (list_ascii_of_string field) ->
  time_field (String.append pre (String.append "time=" field)) = field
  /\ time_field
       (String.append pre
          (String.append "time="
             (String.append field (String.append " " rest))))
     = field.
Proof.
  intros Hpre Hfield.
  assert (Hsp : Forall (fun c => c <> " "%char) (list_ascii_of_string field))
    by (eapply Forall_impl; [|exact Hfield]; cbn; tauto).
  assert (Ht : Forall (fun c => c <> "t"%char) (list_ascii_of_string field))
    by (eapply Forall_impl; [|exact Hfield]; cbn; tauto).
  unfold time_field, Str.split. split.
  - rewrite (split_from_first "time=" pre field);
      [|discriminate|apply starts_none_time; exact Hpre].
    rewrite (split_from_none "time=" field)
      by (apply contains_other_chars; exact Ht).
    cbn [nth String.append].
    rewrite (split_from_none " " field)
      by (apply contains_other_chars; exact Hsp).
    reflexivity.
  - rewrite (split_from_first "time=" pre);
      [|discriminate|apply starts_none_time; exact Hpre].
    destruct (split_from_head_after "time="
                (String.append field " ") rest EmptyString) as (h & l & E).
    { apply starts_none_other_chars.
      clear -Ht. induction field as [|c f IH]; cbn [String.append
        list_ascii_of_string].
      - repeat constructor. discriminate.
      - inversion Ht; subst. constructor; [assumption|]. apply IH.
        assumption. }
    rewrite <- append_assoc3, E. cbn [nth String.append].
    rewrite append_assoc3.
    rewrite split_from_first;
      [reflexivity|discriminate|].
    apply starts_none_other_chars. exact Hsp.
Qed.

Lemma time_field_extracts_witness :
  time_field
    (String.append ping_line_before (String.append "time=" "20.3"))
  = "20.3"
  /\ time_field
       (String.append ping_line_before
          (String.append "time=" (String.append "20.3"
                                    (String.append " " "ms"))))
     = "20.3".
Proof.
  apply (time_field_extracts ping_line_before "20.3" "ms").
  - reflexivity.
  - repeat constructor; discriminate.
Defined.

(** ** The signal query *)

(** After a separator of one character, the last piece is the text that
    follows its last occurrence. *)
Lemma split_from_last c0 (value : string) (pre : string) : forall cur d,
  Str.contains (String c0 EmptyString) value = false ->
  last (Str.split_from (String c0 EmptyString)
          (String.append pre (String c0 value)) cur 0) d
  = value.
Proof.
  induction pre as [|c pre IH]; intros cur d H.
  - cbn [String.append Str.split_from String.prefix String.length].
    destruct (ascii_dec c0 c0) as [_|E]; [|contradiction E; reflexivity].
    replace (String.prefix EmptyString value) with true
      by (destruct value; reflexivity).
    cbn [Nat.sub]. rewrite split_from_none by exact H. reflexivity.
  - cbn [String.append Str.split_from String.length Nat.sub].
    destruct (String.prefix (String c0 EmptyString)
                (String c (String.append pre (String c0 value)))).
    + destruct (split_from_head (String c0 EmptyString)
                  (String.append pre (String c0 value)) EmptyString)
        as (h & l & E).
      specialize (IH EmptyString d H). rewrite E in *.
      exact IH.
    + apply IH. exact H.
Qed.

Lemma first_signal_first_match strip lower (before : list string) :
  forall line after,
  (forall l, In l before ->
             Str.contains "signal quality" (lower l) = false) ->
  Str.contains "signal quality" (lower line) = true ->
  first_signal strip lower (before ++ line :: after)
  = Some (strip (last (Str.split ":" line) EmptyString)).
Proof.
  induction before as [|l before IH]; intros line after Hb Hl;
    cbn [app first_signal].
  - rewrite Hl. reflexivity.
  - rewrite (Hb l (or_introl eq_refl)).
    apply IH; [|exact Hl]. intros l' Hl'. apply Hb. right; exact Hl'.
Qed.

Lemma first_signal_no_match strip lower (lines : list string) :
  (forall l, In l lines ->
             Str.contains "signal quality" (lower l) = false) ->
  first_signal strip lower lines = None.
Proof.
  induction lines as [|l lines IH]; intros H; cbn [first_signal];
    [reflexivity|].
  rewrite (H l (or_introl eq_refl)).
  apply IH. intros l' Hl'. apply H. right; exact Hl'.
Qed.

(** X16.  [get_signal_strength] answers "unknown" when the command fails,
    returns another status than 0, or prints no line holding "signal
    quality" in any letter case; otherwise it answers, stripped, the text
    that follows the last colon of the first such line. *)
Theorem get_signal_strength_reads_first_match
    (strip lower : string -> string) :
  (forall text, get_signal_strength strip lower (Failed text) = "unknown")
  /\ (forall rc stdout, rc <> 0 ->
        get_signal_strength strip lower (Returned rc stdout) = "unknown")
  /\ (forall stdout,
        (forall l, In l (Str.split Str.newline stdout) ->
                   Str.contains "signal quality" (lower l) = false) ->
        get_signal_strength strip lower (Returned 0 stdout) = "unknown")
  /\ (forall stdout before label value after,
        Str.split Str.newline stdout
        = before ++ String.append label (String.append ":" value) :: after ->
        (forall l, In l before ->
                   Str.contains "signal quality" (lower l) = false) ->
        Str.contains "signal quality"
          (lower (String.append label (String.append ":" value))) = true ->
        Str.contains ":" value = false ->
        get_signal_strength strip lower (Returned 0 stdout) = strip value).
Proof.
  split; [reflexivity|]. split; [|split].
  - intros rc stdout H. cbn [get_signal_strength].
    destruct (Z.eqb_spec rc 0); [contradiction|reflexivity].
  - intros stdout H. cbn [get_signal_strength Z.eqb].
    rewrite first_signal_no_match by exact H. reflexivity.
  - intros stdout before label value after Hsplit Hb Hl Hv.
    cbn [get_signal_strength Z.eqb]. rewrite Hsplit.
    rewrite (first_signal_first_match strip lower before _ after Hb Hl).
    unfold Str.split. cbn [String.append].
    rewrite split_from_last by exact Hv. reflexivity.
Qed.

Lemma get_signal_strength_reads_first_match_witness :
  get_signal_strength sample_strip sample_lower (Returned 0 mmcli_output)
  = "75% (recent)".
Proof.
  apply (proj2 (proj2 (proj2
           (get_signal_strength_reads_first_match sample_strip sample_lower)))
           mmcli_output
           ["  Status |          state: connected"]
           "         | signal quality" "75% (recent)"
           ["         |   access tech: lte"]).
  - reflexivity.
  - intros l [E|[]]. subst l. reflexivity.
  - reflexivity.
  - reflexivity.
Defined.

(** ** The addresses [check_ip_config] lists *)

(** A text that occurs in [s] and holds no newline occurs in a line of
    [s]. *)
Lemma contains_in_a_line (sub post : string) (pre : string) : forall cur,
  Forall (fun c => c <> "010"%char) (list_ascii_of_string sub) ->
  exists line,
    In line (Str.split_from Str.newline
               (String.append pre (String.append sub post)) cur 0)
    /\ Str.contains sub line = true.
Proof.
  induction pre as [|c pre IH]; intros cur H.
  - cbn [String.append].
    destruct (split_from_head_after Str.newline sub post cur) as (h & l & E).
    { apply starts_none_other_chars. exact H. }
    rewrite E. eexists. split; [left; reflexivity|].
    apply contains_spec. exists cur, h. reflexivity.
  - cbn [String.append Str.split_from].
    destruct (String.prefix Str.newline
                (String c (String.append pre (String.append sub post)))).
    + destruct (IH EmptyString H) as (line & Hin & Hc).
      exists line. split; [right; exact Hin|exact Hc].
    + apply IH. exact H.
Qed.

(** X17.  When [check_ip_config] passes, at least one line of the output
    holds "inet", and its message lists, stripped and joined by ", ", the
    first two such lines (the only one when there is one). *)
Theorem check_ip_config_lists_addresses (strip : string -> string)
    (r : command_result) :
  fst (check_ip_config_of strip r) = true ->
  exists stdout first more,
    r = Returned 0 stdout
    /\ filter (Str.contains "inet") (Str.split Str.newline stdout)
       = first :: more
    /\ snd (check_ip_config_of strip r)
       = String.append "IPs: "
           (join ", " (strip first :: map strip (firstn 1 more))).
Proof.
  intros Hpass.
  destruct (proj1 (check_ip_config_passes_iff strip r) Hpass)
    as (pre & post & Hr).
  assert (Hline : exists stdout line,
             r = Returned 0 stdout
             /\ In line (Str.split Str.newline stdout)
             /\ Str.contains "inet" line = true).
  { destruct Hr as [Hr|Hr]; subst r; eexists; unfold Str.split.
    - destruct (contains_in_a_line "inet " post pre EmptyString)
        as (line & Hin & Hc); [repeat constructor; discriminate|].
      exists line. split; [reflexivity|]. split; [exact Hin|].
      apply contains_spec in Hc. destruct Hc as (a & b & E).
      apply contains_spec. exists a, (String.append " " b).
      rewrite E. reflexivity.
    - destruct (contains_in_a_line "inet6 " post pre EmptyString)
        as (line & Hin & Hc); [repeat constructor; discriminate|].
      exists line. split; [reflexivity|]. split; [exact Hin|].
      apply contains_spec in Hc. destruct Hc as (a & b & E).
      apply contains_spec. exists a, (String.append "6 " b).
      rewrite E. reflexivity. }
  destruct Hline as (stdout & line & E & Hin & Hc). subst r.
  assert (Hf : In line (filter (Str.contains "inet")
                          (Str.split Str.newline stdout)))
    by (apply filter_In; split; assumption).
  destruct (filter (Str.contains "inet") (Str.split Str.newline stdout))
    as [|first more] eqn:Ef; [destruct Hf|].
  exists stdout, first, more. split; [reflexivity|]. split; [exact Ef|].
  cbn [check_ip_config_of Z.eqb negb] in *.
  destruct (Str.contains "inet " stdout || Str.contains "inet6 " stdout);
    [|discriminate Hpass].
  cbn [snd]. rewrite Ef. destruct more; reflexivity.
Qed.

Lemma check_ip_config_lists_addresses_witness :
  exists stdout first more,
    Returned 0 ip_addr_output = Returned 0 stdout
    /\ filter (Str.contains "inet") (Str.split Str.newline stdout)
       = first :: more
    /\ snd (check_ip_config_of sample_strip (Returned 0 ip_addr_output))
       = String.append "IPs: "
           (join ", " (sample_strip first
                       :: map sample_strip (firstn 1 more))).
Proof.
  apply (check_ip_config_lists_addresses sample_strip
           (Returned 0 ip_addr_output)).
  reflexivity.
Defined.

(** ** The checks of the resolver file and of the routes *)

(** One character of the text is read by [split] on line breaks. *)
Lemma split_newline_step (c : ascii) (s cur : string) :
  Str.split_from Str.newline (String c s) cur 0
  = if Ascii.eqb c "010"
    then cur :: Str.split_from Str.newline s EmptyString 0
    else Str.split_from Str.newline s
           (String.append cur (String c EmptyString)) 0.
Proof.
  cbn [Str.split_from]. unfold Str.newline at 1. cbn [String.prefix].
  destruct (ascii_dec "010" c) as [E|E].
  - subst c. cbn. destruct s; reflexivity.
  - destruct (Ascii.eqb_spec c "010") as [E'|E']; [congruence|reflexivity].
Qed.

(** A text without line break that starts a text cut by a line break starts
    the part before the cut. *)
Lemma prefix_before_newline (p : string) :
  Forall (fun c => c <> "010"%char) (list_ascii_of_string p) ->
  forall cur s,
    String.prefix p (String.append cur (String "010" s)) = String.prefix p cur.
Proof.
  induction p as [|a p IH]; intros Hp cur s.
  - destruct cur; reflexivity.
  - cbn [list_ascii_of_string] in Hp. inversion Hp as [|? ? Ha Hp']; subst.
    destruct cur as [|b cur]; cbn [String.append String.prefix].
    + destruct (ascii_dec a "010") as [E|E]; [contradiction|reflexivity].
    + destruct (ascii_dec a b); [apply IH; exact Hp'|reflexivity].
Qed.

Lemma prefix_after_newline (p s : string) :
  String.prefix (String.append Str.newline p) (String "010" s)
  = String.prefix p s.
Proof.
  cbn [Str.newline String.append String.prefix].
  destruct (ascii_dec "010" "010") as [_|E]; [reflexivity|].
  contradiction E. reflexivity.
Qed.

Lemma prefix_after_other (p : string) (c : ascii) (s : string) :
  c <> "010"%char ->
  String.prefix (String.append Str.newline p) (String c s) = false.
Proof.
  intros Hc. cbn [Str.newline String.append String.prefix].
  destruct (ascii_dec "010" c) as [E|E]; [|reflexivity].
  contradiction Hc. symmetry. exact E.
Qed.

(** Some line starts with [p] exactly when the text starts with [p] or
    holds [p] right after a line break. *)
Lemma lines_with_prefix (p : string) :
  Forall (fun c => c <> "010"%char) (list_ascii_of_string p) ->
  forall s cur,
    existsb (String.prefix p) (Str.split_from Str.newline s cur 0)
    = String.prefix p (String.append cur s)
      || Str.contains (String.append Str.newline p) s.
Proof.
  intros Hp. induction s as [|c s IH]; intros cur.
  - cbn [Str.split_from existsb Str.contains]. rewrite append_nil_right.
    cbn. rewrite orb_false_r. reflexivity.
  - rewrite split_newline_step. cbn [Str.contains].
    destruct (Ascii.eqb_spec c "010") as [E|E].
    + subst c. cbn [existsb]. rewrite IH. cbn [String.append].
      rewrite prefix_before_newline by exact Hp.
      rewrite prefix_after_newline. reflexivity.
    + rewrite IH, append_assoc3. cbn [String.append].
      rewrite prefix_after_other by exact E. reflexivity.
Qed.

Lemma filter_nonempty_existsb {A : Type} (f : A -> bool) (l : list A) :
  existsb f l = match filter f l with [] => false | _ :: _ => true end.
Proof.
  induction l as [|x l IH]; [reflexivity|].
  cbn [existsb filter]. destruct (f x); [reflexivity|exact IH].
Qed.

(** X19.  [check_dns] passes exactly when the file could be read and its
    text starts with "nameserver" or holds "nameserver" right after a line
    break: a line that is indented or commented out does not count. *)
Theorem check_dns_passes_iff_a_line_starts_with_nameserver (r : read_result) :
  fst (check_dns_of r) = true
  <-> exists content,
        r = Content content
        /\ ((exists post, content = String.append "nameserver" post)
            \/ exists pre post,
                 content
                 = String.append pre
                     (String.append
                        (String.append Str.newline "nameserver") post)).
Proof.
  assert (Hp : Forall (fun c => c <> "010"%char)
                 (list_ascii_of_string "nameserver")).
  { cbn. repeat constructor; discriminate. }
  assert (Hpass : forall content,
             fst (check_dns_of (Content content))
             = String.prefix "nameserver" content
               || Str.contains (String.append Str.newline "nameserver")
                    content).
  { intros content.
    pose proof (lines_with_prefix "nameserver" Hp content EmptyString) as L.
    change (String.append EmptyString content) with content in L.
    rewrite <- L, filter_nonempty_existsb. cbn [check_dns_of]. unfold Str.split.
    destruct (filter _ _); reflexivity. }
  split.
  - destruct r as [content|text]; [|discriminate].
    rewrite Hpass. intros H. exists content. split; [reflexivity|].
    apply orb_true_iff in H. destruct H as [H|H].
    + left. apply prefix_spec. exact H.
    + right. apply contains_spec. exact H.
  - intros (content & -> & H). rewrite Hpass. apply orb_true_iff.
    destruct H as [H|H].
    + left. apply prefix_spec. exact H.
    + right. apply contains_spec. exact H.
Qed.

Lemma check_dns_passes_iff_a_line_starts_with_nameserver_witness :
  fst (check_dns_of (Content resolv_conf)) = true.
Proof.
  apply (proj2 (check_dns_passes_iff_a_line_starts_with_nameserver
                  (Content resolv_conf))).
  exists resolv_conf. split; [reflexivity|]. right.
  exists "# Generated by NetworkManager".
  exists (String.append " 8.8.8.8"
            (String.append Str.newline
               (String.append "nameserver 1.1.1.1" Str.newline))).
  reflexivity.
Defined.

(** [split] on line breaks gives one piece more than there are breaks. *)
Lemma split_newline_length (s : string) : forall cur,
  length (Str.split_from Str.newline s cur 0) = S (count_newlines s).
Proof.
  induction s as [|c s IH]; intros cur; [reflexivity|].
  rewrite split_newline_step. cbn [count_newlines].
  destruct (Ascii.eqb c "010").
  - cbn [length]. rewrite IH. reflexivity.
  - rewrite IH. reflexivity.
Qed.

(** The first piece is empty exactly when the text is empty or starts with
    a line break. *)
Lemma split_newline_first (s : string) :
  match Str.split Str.newline s with
  | String _ _ :: _ =>
      exists c rest, s = String c rest /\ c <> "010"%char
  | _ => s = EmptyString \/ exists rest, s = String "010" rest
  end.
Proof.
  unfold Str.split. destruct s as [|c s]; [left; reflexivity|].
  rewrite split_newline_step.
  destruct (Ascii.eqb_spec c "010") as [E|E].
  - subst c. right. exists s. reflexivity.
  - destruct (split_from_head Str.newline s
                (String.append EmptyString (String c EmptyString)))
      as (h & l & Eh).
    rewrite Eh. cbn [String.append]. exists c, s. split; [reflexivity|exact E].
Qed.

(** X20.  [check_route] passes exactly when the command returned status 0
    and its stripped output starts with a character other than a line
    break; the number of routes it then reports is one more than the number
    of line breaks of the stripped output, blank lines included. *)
Theorem check_route_counts_line_breaks (strip : string -> string)
    (r : command_result) :
  fst (check_route_of strip r) = true
  <-> exists stdout c rest,
        r = Returned 0 stdout
        /\ strip stdout = String c rest /\ c <> "010"%char
        /\ snd (check_route_of strip r)
           = String.append "Routes: "
               (String.append
                  (str_of_nat (S (count_newlines (strip stdout))))
                  " found").
Proof.
  split.
  - destruct r as [rc stdout|text]; cbn [check_route_of]; [|discriminate].
    destruct (Z.eqb_spec rc 0) as [E|E]; cbn [negb]; [subst rc|discriminate].
    pose proof (split_newline_first (strip stdout)) as Hf.
    pose proof (split_newline_length (strip stdout) EmptyString) as Hl.
    fold (Str.split Str.newline (strip stdout)) in Hl.
    destruct (Str.split Str.newline (strip stdout)) as [|[|c0 first] l];
      try discriminate.
    intros _. destruct Hf as (c & rest & Es & Hc).
    exists stdout, c, rest. repeat split; try assumption.
    cbn [snd]. rewrite Hl. reflexivity.
  - intros (stdout & c & rest & -> & Es & Hc & _). cbn [check_route_of].
    cbn [Z.eqb negb].
    pose proof (split_newline_first (strip stdout)) as Hf.
    destruct (Str.split Str.newline (strip stdout)) as [|[|c0 first] l].
    + destruct Hf as [Hf|[rest' Hf]]; rewrite Es in Hf;
        [discriminate|congruence].
    + destruct Hf as [Hf|[rest' Hf]]; rewrite Es in Hf;
        [discriminate|congruence].
    + reflexivity.
Qed.

Lemma check_route_counts_line_breaks_witness :
  check_route_of sample_strip (Returned 0 ip_route_output)
  = (true, "Routes: 2 found").
Proof.
  assert (H : fst (check_route_of sample_strip (Returned 0 ip_route_output))
              = true) by reflexivity.
  destruct (proj1 (check_route_counts_line_breaks sample_strip
                     (Returned 0 ip_route_output)) H)
    as (stdout & c & rest & E & _ & _ & Hs).
  injection E as <-.
  rewrite (surjective_pairing (check_route_of sample_strip _)), Hs.
  reflexivity.
Defined.
